(** * Spam detection system: a shallow embedding of [karthik.py]

    Definitions first, in the order of the Python module: Python strings
    ([Py]) and the classifier ([SpamDetector]), floating-point times and the
    settings of the interpreter ([Float64], [Runtime]), the file system the
    module works on ([OS]), the JSON text it writes ([Json]), the system
    operations
    ([SystemManager]) and the result store ([FileProcessor]). Then the
    lemmas about each part, and last the claims. *)

From Stdlib Require Import String Ascii.
From Stdlib Require Import List NArith ZArith QArith Bool Lia Lqa.
From Stdlib Require SpecFloat.
Import ListNotations.

Open Scope Z_scope.

(** ** Python strings

    A Python [str] is a sequence of Unicode code points. *)

Definition codepoint := N.
Bind Scope N_scope with codepoint.
Definition text := list codepoint.

(** An ASCII literal, as a sequence of code points. *)
Definition str (s : string) : text :=
  map N_of_ascii (list_ascii_of_string s).

(** [chr(c).lower()] on the ASCII range. *)
Definition ascii_tolower (c : codepoint) : codepoint :=
  if ((65 <=? c) && (c <=? 90))%N then (c + 32)%N else c.

(** The part of the interpreter's Unicode database the module consults:
    [str.lower] (lower-casing is not character-wise in general), and the
    character properties behind [str.isupper] and [str.split]. On ASCII-only
    strings [str.lower] is character-wise. *)
Class UnicodeData : Type := {
  str_lower : text -> text;
  ch_isupper : codepoint -> bool;
  ch_islower : codepoint -> bool;
  ch_istitle : codepoint -> bool;
  ch_isspace : codepoint -> bool;
  str_lower_ascii :
    forall s, forallb (fun c => (c <? 128)%N) s = true ->
              str_lower s = map ascii_tolower s
}.

Module Py.
Section Str.
Context {U : UnicodeData}.

(** [len(s)], on strings and on lists *)
Definition len {A : Type} (s : list A) : Z := Z.of_nat (length s).

(** [s.lower()] *)
Definition lower (s : text) : text := str_lower s.

(** [s.startswith(sub)] *)
Fixpoint startswith (s sub : text) : bool :=
  match sub, s with
  | [], _ => true
  | _ :: _, [] => false
  | b :: sub', a :: s' => (a =? b)%N && startswith s' sub'
  end.

(** [sub in s] *)
Fixpoint contains (s sub : text) : bool :=
  startswith s sub ||
  match s with
  | [] => false
  | _ :: s' => contains s' sub
  end.

(** [s.count(sub)]: the number of non-overlapping occurrences of [sub],
    scanning from the left; [skip] is the number of characters of the
    last occurrence still to step over. *)
Fixpoint count_from (sub : text) (skip : nat) (s : text) : Z :=
  match s with
  | [] => 0
  | _ :: s' =>
      match skip with
      | S k => count_from sub k s'
      | O => if startswith s sub
             then 1 + count_from sub (length sub - 1) s'
             else count_from sub 0 s'
      end
  end.

Definition count (s sub : text) : Z :=
  match sub with
  | [] => len s + 1
  | _ :: _ => count_from sub 0 s
  end.

(** [s.split()]: maximal runs of non-whitespace characters; [word] is the
    run being read, most recent character first. *)
Fixpoint split_from (word : text) (s : text) : list text :=
  match s with
  | [] => match word with [] => [] | _ :: _ => [rev word] end
  | c :: s' =>
      if ch_isspace c
      then match word with
           | [] => split_from [] s'
           | _ :: _ => rev word :: split_from [] s'
           end
      else split_from (c :: word) s'
  end.

Definition split (s : text) : list text := split_from [] s.

(** [s.isupper()]: no lower-case or title-case character, and at least one
    upper-case character (a one-character string is answered from the
    character's upper-case property alone). *)
Definition isupper (s : text) : bool :=
  match s with
  | [c] => ch_isupper c
  | _ => negb (existsb (fun c => ch_islower c || ch_istitle c) s)
         && existsb ch_isupper s
  end.

End Str.
End Py.

(** ** The Latin-1 rows of the Unicode database

    Exact for code points up to U+00FF; code points above are taken as
    caseless and non-blank, so this instance is used on Latin-1 texts only. *)
Module Latin1.

Definition between (lo hi c : codepoint) : bool := ((lo <=? c) && (c <=? hi))%N.

Definition isupper (c : codepoint) : bool :=
  between 65 90 c || between 192 214 c || between 216 222 c.

Definition islower (c : codepoint) : bool :=
  between 97 122 c || (c =? 170)%N || (c =? 181)%N || (c =? 186)%N
  || between 223 246 c || between 248 255 c.

Definition isspace (c : codepoint) : bool :=
  between 9 13 c || between 28 32 c || (c =? 133)%N || (c =? 160)%N.

Definition tolower (c : codepoint) : codepoint :=
  if isupper c then (c + 32)%N else c.

Definition in_range (s : text) : bool := forallb (fun c => (c <? 256)%N) s.

Lemma tolower_ascii s :
  forallb (fun c => (c <? 128)%N) s = true ->
  map tolower s = map ascii_tolower s.
Proof.
  intros H. apply map_ext_in. intros c Hc.
  rewrite forallb_forall in H. specialize (H c Hc).
  apply N.ltb_lt in H.
  unfold tolower, ascii_tolower, isupper, between.
  replace ((192 <=? c) && (c <=? 214))%N with false by (symmetry; apply andb_false_iff; left; apply N.leb_gt; lia).
  replace ((216 <=? c) && (c <=? 222))%N with false by (symmetry; apply andb_false_iff; left; apply N.leb_gt; lia).
  now rewrite !orb_false_r.
Qed.

#[global] Instance unicode : UnicodeData := {|
  str_lower := map tolower;
  ch_isupper := isupper;
  ch_islower := islower;
  ch_istitle := fun _ => false;
  ch_isspace := isspace;
  str_lower_ascii := tolower_ascii
|}.

End Latin1.

(** ** The classifier *)

Definition SPAM_INDICATORS : list text :=
  map str
    ["urgent"; "winner"; "prize"; "reward"; "claim"; "selected";
     "valued customer"; "call now"; "limited time"; "congratulations";
     "account compromised"; "security alert"]%string.

Record DetectionResult : Type := mkDetectionResult {
  classification : text;
  score : Z
}.

Definition SPAM : text := str "SPAM".
Definition NOT_SPAM : text := str "NOT SPAM".

Module SpamDetector.

Record t : Type := mk { spam_threshold : Z }.

(** [__init__(self, spam_threshold=2)] *)
Definition default_spam_threshold : Z := 2.

Definition init (spam_threshold : option Z) : t :=
  match spam_threshold with
  | Some th => mk th
  | None => mk default_spam_threshold
  end.

Section Methods.
Context {U : UnicodeData}.

(** The list comprehension of [calculate_spam_score]. *)
Definition caps_words (txt : text) : list text :=
  filter (fun word => (2 <? Py.len word) && Py.isupper word) (Py.split txt).

Definition calculate_spam_score (self : t) (txt : text) : Z :=
  let score := 0 in
  let score :=
    fold_left
      (fun score indicator =>
         if Py.contains (Py.lower txt) (Py.lower indicator)
         then score + 1 else score)
      SPAM_INDICATORS score in
  let score := if 2 <? Py.count txt (str "!") then score + 1 else score in
  let score := if 2 <? Py.len (caps_words txt) then score + 1 else score in
  score.

Definition classify (self : t) (txt : text) : DetectionResult :=
  let score := calculate_spam_score self txt in
  let classification :=
    if self.(spam_threshold) <=? score then SPAM else NOT_SPAM in
  {| classification := classification; score := score |}.

End Methods.
End SpamDetector.

(** The sixth demonstration message of [main]; the pound sign is U+00A3. *)
Definition prize_message : text :=
  str "WINNER!! As a valued network customer you have been selected to receive a "
  ++ [163%N] ++ str "900 prize reward!".

(** ** The scoring rule in the words of the specification

    One point per indicator phrase occurring in the lower-cased text, one
    point for more than two exclamation marks, one point for more than two
    upper-case tokens longer than two characters. *)
Section ScoringRule.
Context {U : UnicodeData}.

Definition indicator_hit (txt indicator : text) : bool :=
  Py.contains (Py.lower txt) indicator.

Definition exclamation_marks (txt : text) : Z :=
  Z.of_nat (count_occ N.eq_dec txt 33%N).

Definition punctuation_flag (txt : text) : bool :=
  2 <? exclamation_marks txt.

Definition caps_flag (txt : text) : bool :=
  2 <? Py.len (SpamDetector.caps_words txt).

Definition points (b : bool) : Z := if b then 1 else 0.

Definition indicator_points (txt : text) : Z :=
  Py.len (filter (indicator_hit txt) SPAM_INDICATORS).

Definition score_rule (txt : text) : Z :=
  indicator_points txt + points (punctuation_flag txt) + points (caps_flag txt).

(** A character with any of the three case properties. *)
Definition ch_cased (c : codepoint) : bool :=
  ch_isupper c || ch_islower c || ch_istitle c.

End ScoringRule.


(** ** Floating-point numbers

    A Python [float] is an IEEE 754 binary64 number: times read from the
    clock and from the file system are such numbers, and their difference
    is rounded to the nearest one, ties to even. *)
Definition float : Type := SpecFloat.spec_float.

Module Float64.
Import SpecFloat.

Definition prec : Z := 53.
Definition emax : Z := 1024.

(** [float(k)] *)
Definition of_Z (k : Z) : float := binary_normalize prec emax k 0 false.

(** [x - y] *)
Definition sub (x y : float) : float := SFsub prec emax x y.

(** [x / y] *)
Definition div (x y : float) : float := SFdiv prec emax x y.

(** [x > k] for a float [x] and an int [k]: the interpreter compares the
    two numbers exactly, without converting the int. *)
Definition gt_int (x : float) (k : Z) : bool :=
  match x with
  | S754_nan => false
  | S754_infinity s => negb s
  | S754_zero _ => k <? 0
  | S754_finite s m e =>
      let m' := if s then Z.neg m else Z.pos m in
      if 0 <=? e then k <? m' * 2 ^ e else k * 2 ^ (- e) <? m'
  end.

Definition is_finite (x : float) : bool :=
  match x with
  | S754_finite _ _ _ | S754_zero _ => true
  | _ => false
  end.

(** The number a finite float stands for. *)
Definition to_Q (x : float) : Q :=
  match x with
  | S754_finite s m e =>
      let m' := if s then Z.neg m else Z.pos m in
      if 0 <=? e then inject_Z (m' * 2 ^ e)
      else Qmake m' (Z.to_pos (2 ^ (- e)))
  | _ => 0%Q
  end.

End Float64.

(** ** The interpreter and its locale

    Two settings of the process the module runs in: the text encoding that
    [open] takes from the locale when none is given
    ([locale.getencoding()]), as the set of characters its codec encodes, and
    the limit on the number of digits in a conversion between [int] and
    [str] ([sys.get_int_max_str_digits()], where 0 stands for no limit and
    the least limit the interpreter accepts is 640). No codec encodes a
    surrogate code point, and the codecs of locales encode ASCII. *)
Definition is_surrogate (c : codepoint) : bool :=
  ((55296 <=? c) && (c <=? 57343))%N.

Class Runtime : Type := {
  encodable : codepoint -> bool;
  int_max_str_digits : N;
  surrogate_not_encodable :
    forall c, is_surrogate c = true -> encodable c = false;
  ascii_encodable :
    forall c, (c <? 128)%N = true -> encodable c = true;
  int_max_str_digits_range :
    int_max_str_digits = 0%N \/ (640 <= int_max_str_digits)%N
}.

(** The defaults of CPython 3.11 and later in a UTF-8 locale. *)
Module CPython.

Definition utf8_encodable (c : codepoint) : bool := negb (is_surrogate c).

Lemma utf8_surrogate c : is_surrogate c = true -> utf8_encodable c = false.
Proof. unfold utf8_encodable. now intros ->. Qed.

Lemma utf8_ascii c : (c <? 128)%N = true -> utf8_encodable c = true.
Proof.
  intros H. apply N.ltb_lt in H. unfold utf8_encodable, is_surrogate.
  apply negb_true_iff, andb_false_iff. left. apply N.leb_gt. lia.
Qed.

Lemma default_limit : 4300%N = 0%N \/ (640 <= 4300)%N.
Proof. right. lia. Qed.

#[global] Instance runtime : Runtime := {|
  encodable := utf8_encodable;
  int_max_str_digits := 4300;
  surrogate_not_encodable := utf8_surrogate;
  ascii_encodable := utf8_ascii;
  int_max_str_digits_range := default_limit
|}.

End CPython.

(** ** The file system

    The working directory is a tree of directories and regular files
    (no links). A path is the list of its components, relative to the
    working directory: ["data/output"] is [[str "data"; str "output"]], the
    empty list is the working directory itself, and
    [os.path.join(root, name)] is [root ++ [name]]. Times are seconds since
    the epoch, as floats. A file holds the text written to it.
    Every call is made by a single process that has the permissions it
    needs, so a call raises only for the shape of the tree (a missing path,
    a file where a directory is needed, a directory where a file is needed)
    or for a text that cannot be written. *)
Module OS.

Definition path := list text.

#[warnings="-register-all"] Inductive node : Type :=
| File (mtime : float) (data : text)
| Dir (entries : list (text * node)).

Definition text_eq_dec : forall a b : text, {a = b} + {a <> b} :=
  list_eq_dec N.eq_dec.

Definition is_dir (n : node) : bool :=
  match n with Dir _ => true | File _ _ => false end.

(** *** One directory *)

Fixpoint find_entry (name : text) (es : list (text * node)) : option node :=
  match es with
  | [] => None
  | (n, x) :: es' => if text_eq_dec n name then Some x else find_entry name es'
  end.

Fixpoint set_entry (name : text) (x : node) (es : list (text * node))
  : list (text * node) :=
  match es with
  | [] => [(name, x)]
  | (n, y) :: es' =>
      if text_eq_dec n name then (n, x) :: es' else (n, y) :: set_entry name x es'
  end.

Fixpoint remove_entry (name : text) (es : list (text * node))
  : list (text * node) :=
  match es with
  | [] => []
  | (n, y) :: es' =>
      if text_eq_dec n name then es' else (n, y) :: remove_entry name es'
  end.

(** *** Paths *)

Fixpoint lookup (p : path) (n : node) : option node :=
  match p with
  | [] => Some n
  | name :: p' =>
      match n with
      | Dir es =>
          match find_entry name es with
          | Some x => lookup p' x
          | None => None
          end
      | File _ _ => None
      end
  end.

(** The tree with the node at [p] replaced by [x]; a path that does not
    resolve leaves the tree as it is. *)
Fixpoint replace (p : path) (x : node) (n : node) : node :=
  match p with
  | [] => x
  | name :: p' =>
      match n with
      | Dir es =>
          match find_entry name es with
          | Some d => Dir (set_entry name (replace p' x d) es)
          | None => n
          end
      | File _ _ => n
      end
  end.

(** [os.path.split]: the directory part and the last component. *)
Fixpoint split (p : path) : option (path * text) :=
  match p with
  | [] => None
  | name :: p' =>
      match split p' with
      | None => Some ([], name)
      | Some (head, tail) => Some (name :: head, tail)
      end
  end.

Definition join (root : path) (name : text) : path := root ++ [name].

(** Nesting depth of a tree; bounds the recursion of [walk]. *)
Fixpoint height (n : node) : nat :=
  match n with
  | File _ _ => 0
  | Dir es => S (fold_right (fun e h => Nat.max (height (snd e)) h) 0%nat es)
  end.

(** Names are unique within every directory. *)
Fixpoint names_unique (n : node) : bool :=
  match n with
  | File _ _ => true
  | Dir es =>
      (fix go (es : list (text * node)) : bool :=
         match es with
         | [] => true
         | (name, x) :: es' =>
             match find_entry name es' with
             | Some _ => false
             | None => names_unique x && go es'
             end
         end) es
  end.

(** *** Exceptions

    The exceptions the calls of the module raise. ([UnicodeEncodeError] is a
    [ValueError] to the interpreter; the module catches neither.) *)

Inductive exception : Type :=
| FileNotFoundError | FileExistsError | NotADirectoryError | IsADirectoryError
| UnicodeEncodeError | ValueError.

(** [isinstance(e, OSError)] *)
Definition is_OSError (e : exception) : bool :=
  match e with
  | UnicodeEncodeError | ValueError => false
  | _ => true
  end.

(** What a call raises for a path that does not resolve:
    [NotADirectoryError] when the path runs through a regular file,
    [FileNotFoundError] when a name is missing. *)
Fixpoint lookup_error (p : path) (n : node) : exception :=
  match p with
  | [] => FileNotFoundError
  | name :: p' =>
      match n with
      | Dir es =>
          match find_entry name es with
          | Some x => lookup_error p' x
          | None => FileNotFoundError
          end
      | File _ _ => NotADirectoryError
      end
  end.

(** *** Calls: the tree is the state, an exception ends the computation *)

Inductive outcome (A : Type) : Type :=
| Return (a : A)
| Raise (e : exception).
Arguments Return {A} a.
Arguments Raise {A} e.

Definition M (A : Type) : Type := node -> outcome A * node.

Definition ret {A : Type} (a : A) : M A := fun fs => (Return a, fs).

Definition raise {A : Type} (e : exception) : M A := fun fs => (Raise e, fs).

Definition bind {A B : Type} (m : M A) (k : A -> M B) : M B :=
  fun fs =>
    match m fs with
    | (Return a, fs') => k a fs'
    | (Raise e, fs') => (Raise e, fs')
    end.

(** [try: m  except Exception as e: handler e] *)
Definition try_except {A : Type} (m : M A) (handler : exception -> M A) : M A :=
  fun fs =>
    match m fs with
    | (Return a, fs') => (Return a, fs')
    | (Raise e, fs') => handler e fs'
    end.

(** [try: m  except OSError as e: handler e] *)
Definition try_except_OSError {A : Type} (m : M A) (handler : exception -> M A)
  : M A :=
  try_except m (fun e => if is_OSError e then handler e else raise e).

Definition get : M node := fun fs => (Return fs, fs).
Definition put (fs' : node) : M unit := fun _ => (Return tt, fs').

Declare Scope os_scope.
Delimit Scope os_scope with os.
Notation "x <- m ;; k" := (bind m (fun x => k))
  (at level 61, m at next level, right associativity) : os_scope.
Notation "' pat <- m ;; k" := (bind m (fun x => match x with pat => k end))
  (at level 61, pat pattern, m at next level, right associativity) : os_scope.
Notation "m ;; k" := (bind m (fun _ => k))
  (at level 61, right associativity) : os_scope.
Open Scope os_scope.

(** [for x in xs: body x] *)
Fixpoint for_each {A : Type} (xs : list A) (body : A -> M unit) : M unit :=
  match xs with
  | [] => ret tt
  | x :: xs' => body x ;; for_each xs' body
  end.

(** [os.path.exists], [os.path.isdir] *)
Definition exists_ (p : path) : M bool :=
  fs <- get ;;
  ret (match lookup p fs with Some _ => true | None => false end).

Definition isdir (p : path) : M bool :=
  fs <- get ;;
  ret (match lookup p fs with Some n => is_dir n | None => false end).

(** The directory that holds [p]: its path, its entries, and the last
    component of [p]. *)
Definition resolve_parent (p : path) : M (path * list (text * node) * text) :=
  fs <- get ;;
  match split p with
  | None => raise FileNotFoundError
  | Some (head, tail) =>
      match lookup head fs with
      | None => raise (lookup_error head fs)
      | Some (File _ _) => raise NotADirectoryError
      | Some (Dir es) => ret (head, es, tail)
      end
  end.

(** Rewrites the entries of the directory at [head]. *)
Definition set_dir (head : path) (es : list (text * node)) : M unit :=
  fs <- get ;; put (replace head (Dir es) fs).

(** [os.mkdir] *)
Definition mkdir (p : path) : M unit :=
  match p with
  | [] => raise FileExistsError
  | _ :: _ =>
      '(head, es, tail) <- resolve_parent p ;;
      match find_entry tail es with
      | Some _ => raise FileExistsError
      | None => set_dir head (es ++ [(tail, Dir [])])
      end
  end.

(** [os.makedirs(name, exist_ok=exist_ok)]: makes the directory part of
    [name] first when it is missing, then [name] itself; the recursion is on
    the directory part, and [fuel] bounds its length. *)
Fixpoint makedirs_rec (fuel : nat) (name : path) (exist_ok : bool) : M unit :=
  match fuel with
  | O => ret tt
  | S fuel' =>
      (match split name with
       | Some (head, _) =>
           match head with
           | [] => ret tt
           | _ :: _ =>
               head_exists <- exists_ head ;;
               if head_exists then ret tt
               else try_except (makedirs_rec fuel' head exist_ok)
                      (fun e => match e with
                                | FileExistsError => ret tt
                                | _ => raise e
                                end)
           end
       | None => ret tt
       end) ;;
      try_except_OSError (mkdir name)
        (fun e =>
           name_isdir <- isdir name ;;
           if negb exist_ok || negb name_isdir then raise e else ret tt)
  end.

Definition makedirs (name : path) (exist_ok : bool) : M unit :=
  makedirs_rec (S (length name)) name exist_ok.

(** *** Text files

    [now] is the time of the call. *)
Section TextFiles.
Context {R : Runtime}.

(** [open(p, "w")]: makes the file, or empties the one that is there. *)
Definition open_w (p : path) (now : float) : M unit :=
  '(head, es, tail) <- resolve_parent p ;;
  match find_entry tail es with
  | Some (Dir _) => raise IsADirectoryError
  | _ => set_dir head (set_entry tail (File now []) es)
  end.

(** [open(p, "a")]: makes the file when there is none. *)
Definition open_a (p : path) (now : float) : M unit :=
  '(head, es, tail) <- resolve_parent p ;;
  match find_entry tail es with
  | Some (Dir _) => raise IsADirectoryError
  | Some (File _ _) => ret tt
  | None => set_dir head (set_entry tail (File now []) es)
  end.

(** [f.write(data)] on the file opened at [p], in either mode: the text is
    encoded as a whole, which raises when a character has no encoding, and
    goes to the end of the file, which is there since [open] returned. *)
Definition write (p : path) (data : text) (now : float) : M unit :=
  if forallb encodable data then
    '(head, es, tail) <- resolve_parent p ;;
    match find_entry tail es with
    | Some (File _ old) => set_dir head (set_entry tail (File now (old ++ data)) es)
    | _ => ret tt
    end
  else raise UnicodeEncodeError.

(** [with open(p, "a") as f: f.write(data)] *)
Definition append_text (p : path) (data : text) (now : float) : M unit :=
  open_a p now ;; write p data now.

End TextFiles.

(** [os.path.getmtime]; directories carry no time in this tree, and the
    module asks for the time of non-directories only. *)
Definition getmtime (p : path) : M float :=
  fs <- get ;;
  match lookup p fs with
  | None => raise (lookup_error p fs)
  | Some (Dir _) => raise IsADirectoryError
  | Some (File mtime _) => ret mtime
  end.

(** [os.remove] *)
Definition remove (p : path) : M unit :=
  '(head, es, tail) <- resolve_parent p ;;
  match find_entry tail es with
  | None => raise FileNotFoundError
  | Some (Dir _) => raise IsADirectoryError
  | Some (File _ _) => set_dir head (remove_entry tail es)
  end.

(** [os.scandir], sorted into directory names and other names. *)
Definition scandir (top : path) : M (list text * list text) :=
  fs <- get ;;
  match lookup top fs with
  | None => raise (lookup_error top fs)
  | Some (File _ _) => raise NotADirectoryError
  | Some (Dir es) =>
      ret (map fst (filter (fun e => is_dir (snd e)) es),
           map fst (filter (fun e => negb (is_dir (snd e))) es))
  end.

(** [for root, dirs, files in os.walk(top): body (root, dirs, files)].
    The generator scans a directory when the loop reaches it, hands the
    triple to the loop body and descends into the sub-directories afterwards;
    a directory that cannot be scanned is skipped. *)
Fixpoint walk (fuel : nat) (top : path)
  (body : path * list text * list text -> M unit) : M unit :=
  match fuel with
  | O => ret tt
  | S fuel' =>
      scanned <- try_except_OSError (triple <- scandir top ;; ret (Some triple))
                                    (fun _ => ret None) ;;
      match scanned with
      | None => ret tt
      | Some (dirs, nondirs) =>
          body (top, dirs, nondirs) ;;
          for_each dirs (fun dirname => walk fuel' (join top dirname) body)
      end
  end.

End OS.

(** ** JSON, as [json.dump(data, f, indent=2)] writes it and [json.loads]
    reads it

    The module serialises one kind of document: a dictionary whose values
    are strings and integers. *)
Module Json.
Section Json.
Context {R : Runtime}.

Inductive value : Type :=
| Str (s : text)
| Int (n : Z).

Definition dict := list (text * value).

(** *** Encoding *)

(** One digit of [format(n, "04x")]. *)
Definition hex_digit (d : N) : codepoint :=
  if (d <? 10)%N then (48 + d)%N else (87 + d)%N.

(** ["\\u{0:04x}".format(n)], for [n < 0x10000] *)
Definition u_escape (n : N) : text :=
  [92%N; 117%N;
   hex_digit ((n / 4096) mod 16); hex_digit ((n / 256) mod 16);
   hex_digit ((n / 16) mod 16); hex_digit (n mod 16)].

(** The replacement of one character in [encode_basestring_ascii]: the
    short escapes, printable ASCII as it is, and a [\uXXXX] escape (a
    surrogate pair above U+FFFF) for everything else. *)
Definition escape_char (c : codepoint) : text :=
  if (c =? 92)%N then [92%N; 92%N]
  else if (c =? 34)%N then [92%N; 34%N]
  else if (c =? 8)%N then [92%N; 98%N]
  else if (c =? 12)%N then [92%N; 102%N]
  else if (c =? 10)%N then [92%N; 110%N]
  else if (c =? 13)%N then [92%N; 114%N]
  else if (c =? 9)%N then [92%N; 116%N]
  else if ((32 <=? c) && (c <=? 126))%N then [c]
  else if (c <? 65536)%N then u_escape c
  else
    let n := (c - 65536)%N in
    let s1 := N.lor 55296 (N.land (N.shiftr n 10) 1023) in
    let s2 := N.lor 56320 (N.land n 1023) in
    u_escape s1 ++ u_escape s2.

Definition encode_basestring_ascii (s : text) : text :=
  [34%N] ++ flat_map escape_char s ++ [34%N].

(** Decimal digits of a natural number, least significant first; [fuel]
    bounds their number. *)
Fixpoint digits_rev (fuel : nat) (n : N) : list N :=
  match fuel with
  | O => []
  | S fuel' =>
      if (n <? 10)%N then [n]
      else (n mod 10)%N :: digits_rev fuel' (n / 10)%N
  end.

Definition digits (n : N) : text :=
  map (fun d => (48 + d)%N) (rev (digits_rev (S (N.to_nat (N.log2 n))) n)).

(** The decimal text of an integer. *)
Definition decimal (z : Z) : text :=
  if z <? 0 then 45%N :: digits (Z.to_N (- z)) else digits (Z.to_N z).

(** The limit of the interpreter on a conversion between [int] and [str],
    on the number of digits (the sign is not counted). *)
Definition within_limit (ndigits : nat) : bool :=
  ((int_max_str_digits =? 0) || (N.of_nat ndigits <=? int_max_str_digits))%N.

Definition convertible (z : Z) : bool :=
  within_limit (length (digits (Z.to_N (Z.abs z)))).

(** [int.__repr__]; [None] stands for the [ValueError] of an integer over
    the limit. *)
Definition int_repr (z : Z) : option text :=
  if convertible z then Some (decimal z) else None.

(** The text of a value whose conversion does not raise. *)
Definition encode_value (v : value) : text :=
  match v with
  | Str s => encode_basestring_ascii s
  | Int n => decimal n
  end.

Definition newline_indent : text := [10%N; 32%N; 32%N].
Definition item_separator : text := [44%N] ++ newline_indent.
Definition key_separator : text := [58%N; 32%N].

Definition encode_item (item : text * value) : text :=
  encode_basestring_ascii (fst item) ++ key_separator ++ encode_value (snd item).

(** The items, each but the first preceded by the separator. *)
Fixpoint encode_items (first : bool) (items : dict) : text :=
  match items with
  | [] => []
  | item :: items' =>
      (if first then [] else item_separator)
      ++ encode_item item ++ encode_items false items'
  end.

(** The text of [json.dumps(dct, indent=2)], for a dictionary whose
    integers are all within the limit of the conversion. *)
Definition dumps (dct : dict) : text :=
  match dct with
  | [] => [123%N; 125%N]
  | _ :: _ => [123%N] ++ newline_indent ++ encode_items true dct ++ [10%N] ++ [125%N]
  end.

(** *** Writing to a file

    [json.dump] writes the document piece by piece, as the generator
    [_iterencode_dict] yields the pieces. A piece is the text of a string, of
    an integer, or a separator; the generator raises [ValueError] in place of
    the piece of an integer it cannot convert ([None] here), after the pieces
    before it have been written. *)
Definition value_chunk (v : value) : option text :=
  match v with
  | Str s => Some (encode_basestring_ascii s)
  | Int n => int_repr n
  end.

Fixpoint iterencode_items (first : bool) (items : dict) : list (option text) :=
  match items with
  | [] => []
  | (key, v) :: items' =>
      (if first then [] else [Some item_separator])
      ++ [Some (encode_basestring_ascii key); Some key_separator; value_chunk v]
      ++ iterencode_items false items'
  end.

Definition iterencode (dct : dict) : list (option text) :=
  match dct with
  | [] => [Some [123%N; 125%N]]
  | _ :: _ =>
      [Some [123%N]; Some newline_indent]
      ++ iterencode_items true dct ++ [Some [10%N]; Some [125%N]]
  end.

(** [for chunk in iterable: fp.write(chunk)] *)
Fixpoint write_chunks (chunks : list (option text)) (fp_write : text -> OS.M unit)
  : OS.M unit :=
  match chunks with
  | [] => OS.ret tt
  | Some chunk :: chunks' =>
      OS.bind (fp_write chunk) (fun _ => write_chunks chunks' fp_write)
  | None :: _ => OS.raise OS.ValueError
  end.

(** [json.dump(dct, fp, indent=2)], with [fp_write] for [fp.write] *)
Definition dump (dct : dict) (fp_write : text -> OS.M unit) : OS.M unit :=
  write_chunks (iterencode dct) fp_write.

(** The text of the pieces up to the place where the generator ends or
    raises, and whether it ends. *)
Fixpoint written (chunks : list (option text)) : text :=
  match chunks with
  | Some chunk :: chunks' => chunk ++ written chunks'
  | _ => []
  end.

Definition complete (chunks : list (option text)) : bool :=
  forallb (fun chunk => match chunk with Some _ => true | None => false end) chunks.

(** *** Decoding *)

Definition is_whitespace (c : codepoint) : bool :=
  ((c =? 32) || (c =? 9) || (c =? 10) || (c =? 13))%N.

Fixpoint skip_whitespace (s : text) : text :=
  match s with
  | [] => []
  | c :: s' => if is_whitespace c then skip_whitespace s' else s
  end.

Definition hex_value (c : codepoint) : option N :=
  if ((48 <=? c) && (c <=? 57))%N then Some (c - 48)%N
  else if ((97 <=? c) && (c <=? 102))%N then Some (c - 87)%N
  else if ((65 <=? c) && (c <=? 70))%N then Some (c - 55)%N
  else None.

Definition decode_uXXXX (h3 h2 h1 h0 : codepoint) : option N :=
  match hex_value h3, hex_value h2, hex_value h1, hex_value h0 with
  | Some d3, Some d2, Some d1, Some d0 =>
      Some (((d3 * 16 + d2) * 16 + d1) * 16 + d0)%N
  | _, _, _, _ => None
  end.

Definition is_high_surrogate (c : codepoint) : bool :=
  ((55296 <=? c) && (c <=? 56319))%N.

Definition is_low_surrogate (c : codepoint) : bool :=
  ((56320 <=? c) && (c <=? 57343))%N.

Definition join_surrogates (hi lo : codepoint) : codepoint :=
  (65536 + N.lor (N.shiftl (hi - 55296) 10) (lo - 56320))%N.

(** The character a backslash escape other than [\u] stands for. *)
Definition unescape (c : codepoint) : option codepoint :=
  if (c =? 34)%N then Some 34%N
  else if (c =? 92)%N then Some 92%N
  else if (c =? 47)%N then Some 47%N
  else if (c =? 98)%N then Some 8%N
  else if (c =? 102)%N then Some 12%N
  else if (c =? 110)%N then Some 10%N
  else if (c =? 114)%N then Some 13%N
  else if (c =? 116)%N then Some 9%N
  else None.

Definition cons_char (c : codepoint) (r : option (text * text))
  : option (text * text) :=
  match r with
  | Some (s, rest) => Some (c :: s, rest)
  | None => None
  end.

(** [scanstring], strict: reads a string literal from just after its
    opening quote; gives the string and what follows the closing quote. A
    [\uXXXX] escape of a high surrogate that is followed by the escape of a
    low surrogate is read together with it as one character. *)
Fixpoint scanstring (s : text) : option (text * text) :=
  match s with
  | [] => None
  | c :: s1 =>
      if (c =? 34)%N then Some ([], s1)
      else if (c =? 92)%N then
        match s1 with
        | [] => None
        | esc :: s2 =>
            if (esc =? 117)%N then
              match s2 with
              | h3 :: h2 :: h1 :: h0 :: s3 =>
                  match decode_uXXXX h3 h2 h1 h0 with
                  | None => None
                  | Some uni =>
                      match s3 with
                      | b :: s3' =>
                          if is_high_surrogate uni && (b =? 92)%N then
                            match s3' with
                            | u :: s4 =>
                                if (u =? 117)%N then
                                  match s4 with
                                  | l3 :: l2 :: l1 :: l0 :: s5 =>
                                      match decode_uXXXX l3 l2 l1 l0 with
                                      | None => None
                                      | Some uni2 =>
                                          if is_low_surrogate uni2
                                          then cons_char (join_surrogates uni uni2)
                                                 (scanstring s5)
                                          else cons_char uni (scanstring s3)
                                      end
                                  | _ => None
                                  end
                                else cons_char uni (scanstring s3)
                            | [] => cons_char uni (scanstring s3)
                            end
                          else cons_char uni (scanstring s3)
                      | [] => cons_char uni (scanstring s3)
                      end
                  end
              | _ => None
              end
            else
              match unescape esc with
              | Some ch => cons_char ch (scanstring s2)
              | None => None
              end
        end
      else if (c <? 32)%N then None
      else cons_char c (scanstring s1)
  end.

Definition is_digit (c : codepoint) : bool := ((48 <=? c) && (c <=? 57))%N.

(** The digits at the head of [s], read as a number continuing [acc]. *)
Fixpoint scan_digits (acc : N) (s : text) : N * text :=
  match s with
  | [] => (acc, [])
  | c :: s' =>
      if is_digit c then scan_digits (acc * 10 + (c - 48))%N s' else (acc, s)
  end.

(** The integer part of a number: [0], or a non-zero digit and the digits
    after it. *)
Definition scan_natural (s : text) : option (N * text) :=
  match s with
  | [] => None
  | c :: s' =>
      if (c =? 48)%N then Some (0%N, s')
      else if is_digit c then Some (scan_digits (c - 48)%N s')
      else None
  end.

(** A number that goes on with a fraction or an exponent is a float, which
    this module does not read. *)
Definition no_fraction (s : text) : bool :=
  match s with
  | [] => true
  | c :: _ => negb ((c =? 46) || (c =? 101) || (c =? 69))%N
  end.

(** An integer literal, converted by [int]; the conversion raises on more
    digits than the limit of the interpreter. *)
Definition scan_int (s : text) : option (Z * text) :=
  let '(negative, s1) :=
    match s with
    | c :: s' => if (c =? 45)%N then (true, s') else (false, s)
    | [] => (false, s)
    end in
  match scan_natural s1 with
  | Some (n, rest) =>
      if no_fraction rest && within_limit (length s1 - length rest)
      then Some (if negative then - Z.of_N n else Z.of_N n, rest)
      else None
  | None => None
  end.

(** [scan_once], for the values of this module. *)
Definition scan_once (s : text) : option (value * text) :=
  match s with
  | [] => None
  | c :: s' =>
      if (c =? 34)%N then
        match scanstring s' with
        | Some (str, rest) => Some (Str str, rest)
        | None => None
        end
      else
        match scan_int s with
        | Some (n, rest) => Some (Int n, rest)
        | None => None
        end
  end.

(** The loop of [JSONObject]: [s] starts just after the opening quote of a
    key, [pairs] are the items read so far; gives the items and what follows
    the closing brace. Each round consumes input, [fuel] bounds the number
    of rounds. *)
Fixpoint scan_items (fuel : nat) (s : text) (pairs : dict) : option (dict * text) :=
  match fuel with
  | O => None
  | S fuel' =>
      match scanstring s with
      | None => None
      | Some (key, s1) =>
          match skip_whitespace s1 with
          | [] => None
          | colon :: s2 =>
              if (colon =? 58)%N then
                match scan_once (skip_whitespace s2) with
                | None => None
                | Some (v, s3) =>
                    let pairs := pairs ++ [(key, v)] in
                    match skip_whitespace s3 with
                    | [] => None
                    | nextchar :: s4 =>
                        if (nextchar =? 125)%N then Some (pairs, s4)
                        else if (nextchar =? 44)%N then
                          match skip_whitespace s4 with
                          | [] => None
                          | quote :: s5 =>
                              if (quote =? 34)%N
                              then scan_items fuel' s5 pairs
                              else None
                          end
                        else None
                    end
                end
              else None
          end
      end
  end.

(** [JSONObject], from just after the opening brace. *)
Definition scan_object (s : text) : option (dict * text) :=
  match skip_whitespace s with
  | [] => None
  | c :: s' =>
      if (c =? 125)%N then Some ([], s')
      else if (c =? 34)%N then scan_items (length s) s' []
      else None
  end.

(** [json.loads], for a document that is an object of strings and
    integers; [None] stands for a document that is malformed, holds
    anything else, or holds an integer of more digits than the limit. *)
Definition loads (s : text) : option dict :=
  match skip_whitespace s with
  | [] => None
  | c :: s' =>
      if (c =? 123)%N then
        match scan_object s' with
        | Some (pairs, rest) =>
            match skip_whitespace rest with
            | [] => Some pairs
            | _ :: _ => None
            end
        | None => None
        end
      else None
  end.

(** What [scanstring] makes of the escapes of a string: a high surrogate
    followed by a low surrogate comes back as the one character they
    encode. *)
Fixpoint merge_surrogates (s : text) : text :=
  match s with
  | [] => []
  | c :: s' =>
      match s' with
      | c2 :: s'' =>
          if is_high_surrogate c && is_low_surrogate c2
          then join_surrogates c c2 :: merge_surrogates s''
          else c :: merge_surrogates s'
      | [] => [c]
      end
  end.

(** A Python string holds code points up to U+10FFFF. *)
Definition valid_str (s : text) : bool := forallb (fun c => (c <=? 1114111)%N) s.

(** No high surrogate is directly followed by a low surrogate. *)
Fixpoint no_surrogate_pair (s : text) : bool :=
  match s with
  | [] => true
  | c :: s' =>
      match s' with
      | c2 :: _ => negb (is_high_surrogate c && is_low_surrogate c2)
      | [] => true
      end && no_surrogate_pair s'
  end.

(** A value [json.dump] writes without raising. *)
Definition valid_value (v : value) : bool :=
  match v with
  | Str s => valid_str s
  | Int n => convertible n
  end.

Definition valid_dict (dct : dict) : bool :=
  forallb (fun item => valid_str (fst item) && valid_value (snd item)) dct.

(** A dictionary as it comes back from its text. *)
Definition reread_value (v : value) : value :=
  match v with
  | Str s => Str (merge_surrogates s)
  | Int n => Int n
  end.

Definition reread (dct : dict) : dict :=
  map (fun item => (merge_surrogates (fst item), reread_value (snd item))) dct.

End Json.
End Json.

(** ** System operations *)

Module SystemManager.
Import OS.

Definition required_dirs : list path :=
  [[str "data"]; [str "data"; str "input"];
   [str "data"; str "output"]; [str "data"; str "logs"]].

Definition setup_environment : M unit :=
  for_each required_dirs (fun directory => makedirs directory true).

(** [current_time] is the reading of [datetime.now().timestamp()]. *)
Definition cleanup_old_files (directory : path) (days : Z) (current_time : float)
  : M unit :=
  fs <- get ;;
  walk (S (height fs)) directory
    (fun '(root, _, files) =>
       for_each files
         (fun file =>
            let file_path := join root file in
            mtime <- getmtime file_path ;;
            if Float64.gt_int (Float64.sub current_time mtime) (days * 86400)
            then remove file_path
            else ret tt)).

Definition default_days : Z := 7.

(** The test of the sweep, on one modification time. *)
Definition expired (current_time : float) (days : Z) (mtime : float) : bool :=
  Float64.gt_int (Float64.sub current_time mtime) (days * 86400).

(** The tree the sweep is expected to leave: every expired file gone, at
    every depth, and everything else in place and in order. *)
Fixpoint sweep (current_time : float) (days : Z) (n : node) : node :=
  match n with
  | File _ _ => n
  | Dir es =>
      Dir ((fix sweep_entries (es : list (text * node)) : list (text * node) :=
              match es with
              | [] => []
              | (name, x) :: es' =>
                  match x with
                  | File mtime _ =>
                      if expired current_time days mtime
                      then sweep_entries es'
                      else (name, x) :: sweep_entries es'
                  | Dir _ => (name, sweep current_time days x) :: sweep_entries es'
                  end
              end) es)
  end.

Definition sweep_entries (current_time : float) (days : Z) (es : list (text * node))
  : list (text * node) :=
  match sweep current_time days (Dir es) with
  | Dir es' => es'
  | File _ _ => []
  end.

End SystemManager.

(** ** Result files and the log *)

Module FileProcessor.
Import OS.

Record t : Type := mk {
  base_dir : path;
  input_dir : path;
  output_dir : path;
  logs_dir : path
}.

(** [__init__(self, base_dir="data")] *)
Definition init (base_dir : option path) : t :=
  let base_dir := match base_dir with Some d => d | None => [str "data"] end in
  {| base_dir := base_dir;
     input_dir := join base_dir (str "input");
     output_dir := join base_dir (str "output");
     logs_dir := join base_dir (str "logs") |}.

(** The entry written by [log_operation]; [timestamp] is the reading of
    [datetime.now().strftime("%Y-%m-%d %H:%M:%S")]. *)
Definition log_entry (timestamp operation details : text) : text :=
  str "[" ++ timestamp ++ str "] " ++ operation ++ [10%N]
  ++ str "Details: " ++ details ++ [10%N]
  ++ repeat 45%N 50 ++ [10%N].

Definition log_file (self : t) : path :=
  join (logs_dir self) (str "system_log.txt").

(** The text of the log file, empty when there is none. *)
Definition log_content (self : t) (fs : node) : text :=
  match lookup (log_file self) fs with
  | Some (File _ data) => data
  | _ => []
  end.

(** The dictionary written by [save_result]. *)
Definition result_data (timestamp message : text) (result : DetectionResult)
  : Json.dict :=
  [(str "timestamp", Json.Str timestamp);
   (str "message", Json.Str message);
   (str "classification", Json.Str (classification result));
   (str "score", Json.Int (score result))].

Section Methods.
Context {R : Runtime}.

(** [now] is the time at which the file is written. *)
Definition log_operation (self : t) (operation details : text)
  (timestamp : text) (now : float) : M unit :=
  append_text (log_file self) (log_entry timestamp operation details) now.

(** [timestamp] is the reading of
    [datetime.now().strftime("%Y%m%d_%H%M%S")], [now] the time at which the
    file is written. *)
Definition save_result (self : t) (message : text) (result : DetectionResult)
  (timestamp : text) (now : float) : M path :=
  let filename := str "result_" ++ timestamp ++ str ".json" in
  let filepath := join (output_dir self) filename in
  let data := result_data timestamp message result in
  open_w filepath now ;;
  Json.dump data (fun chunk => write filepath chunk now) ;;
  ret filepath.

End Methods.

End FileProcessor.

(** ** Sample trees and messages *)

(** The tree [setup_environment] builds in an empty working directory. *)
Definition fresh_tree : OS.node :=
  OS.Dir
    [(str "data",
      OS.Dir [(str "input", OS.Dir []);
              (str "output", OS.Dir []);
              (str "logs", OS.Dir [])])].

(** A directory [data/output] with a result written 8 days before time
    [1000000], one written 6 days before it, and an archive directory with
    a result written 30 days before it. *)
Definition aged_tree : OS.node :=
  OS.Dir
    [(str "data",
      OS.Dir
        [(str "output",
          OS.Dir
            [(str "old.json", OS.File (Float64.of_Z (1000000 - 8 * 86400)) (str "{}"));
             (str "new.json", OS.File (Float64.of_Z (1000000 - 6 * 86400)) (str "{}"));
             (str "archive",
              OS.Dir
                [(str "older.json",
                  OS.File (Float64.of_Z (1000000 - 30 * 86400)) (str "{}"))])])])].

(** The float nearest to 99.999999999 (the value of that literal), and a
    directory [data/output] with one result, last modified at that time. *)
Definition stale_mtime : float :=
  Float64.div (Float64.of_Z 99999999999) (Float64.of_Z 1000000000).

Definition stale_tree : OS.node :=
  OS.Dir
    [(str "data",
      OS.Dir
        [(str "output",
          OS.Dir [(str "old.json", OS.File stale_mtime (str "{}"))])])].

(** A message of two code points, a high surrogate followed by a low
    surrogate (as a string holds them after a lenient decoding). *)
Definition paired_message : text := [55357%N; 56832%N].

Definition sample_result : DetectionResult :=
  {| classification := SPAM; score := 5 |}.



(** A working directory in use at time [1000000]: two results, one written
    8 days and one 6 days before, and a log. *)
Definition busy_tree : OS.node :=
  OS.Dir
    [(str "data",
      OS.Dir
        [(str "input", OS.Dir []);
         (str "output",
          OS.Dir
            [(str "result_old.json",
              OS.File (Float64.of_Z (1000000 - 8 * 86400)) (str "{}"));
             (str "result_new.json",
              OS.File (Float64.of_Z (1000000 - 6 * 86400)) (str "{}"))]);
         (str "logs",
          OS.Dir
            [(str "system_log.txt",
              OS.File (Float64.of_Z 999999) (str "started"))])])].

(** A working directory in which the name [data] is taken by a file. *)
Definition blocked_tree : OS.node :=
  OS.Dir [(str "data", OS.File (Float64.of_Z 5) (str "not a directory"))].
(** * Properties of the classifier *)

Section StrFacts.
Context {U : UnicodeData}.

Lemma startswith_single a s c :
  Py.startswith (a :: s) [c] = (a =? c)%N.
Proof. cbn [Py.startswith]. destruct s; apply andb_true_r. Qed.

Lemma count_single s c :
  Py.count s [c] = Z.of_nat (count_occ N.eq_dec s c).
Proof.
  unfold Py.count.
  induction s as [|a s IH]; [reflexivity|].
  cbn [Py.count_from]. rewrite startswith_single.
  cbn [length Nat.sub]. rewrite IH. cbn [count_occ].
  destruct (N.eq_dec a c) as [->|Hne].
  - rewrite N.eqb_refl. lia.
  - apply N.eqb_neq in Hne. now rewrite Hne.
Qed.

Lemma contains_nil_false sub :
  sub <> [] -> Py.contains [] sub = false.
Proof. destruct sub; [congruence|reflexivity]. Qed.

Lemma lower_ascii_fixed s :
  forallb (fun c => (c <? 128)%N) s = true ->
  map ascii_tolower s = s ->
  Py.lower s = s.
Proof. intros Hs Hfix. unfold Py.lower. now rewrite str_lower_ascii. Qed.

Lemma lower_nil : Py.lower [] = [].
Proof. now apply lower_ascii_fixed. Qed.

Definition plain_lower (s : text) : bool :=
  forallb (fun c => (c <? 128)%N) s
  && forallb (fun c => (ascii_tolower c =? c)%N) s.

Lemma plain_lower_fixed s : plain_lower s = true -> Py.lower s = s.
Proof.
  unfold plain_lower. intros [Ha Hl]%andb_prop.
  apply lower_ascii_fixed; [exact Ha|].
  rewrite forallb_forall in Hl.
  rewrite <- (map_id s) at 2. apply map_ext_in.
  intros c Hc. now apply N.eqb_eq, Hl.
Qed.

Lemma lower_indicator ind :
  In ind SPAM_INDICATORS -> Py.lower ind = ind.
Proof.
  intros Hin. apply plain_lower_fixed.
  assert (Hall : forallb plain_lower SPAM_INDICATORS = true) by reflexivity.
  rewrite forallb_forall in Hall. now apply Hall.
Qed.

Lemma indicator_nonempty ind : In ind SPAM_INDICATORS -> ind <> [].
Proof.
  intros Hin ->.
  assert (Hall : forallb (fun i => negb (Nat.eqb (length i) 0)) SPAM_INDICATORS = true)
    by reflexivity.
  rewrite forallb_forall in Hall. now specialize (Hall _ Hin).
Qed.

End StrFacts.

Section LoopFacts.

(** The accumulating [for] loop counts the elements that pass the test. *)
Lemma fold_points {A : Type} (p : A -> bool) (l : list A) (acc : Z) :
  fold_left (fun score x => if p x then score + 1 else score) l acc
  = acc + Py.len (filter p l).
Proof.
  unfold Py.len. revert acc.
  induction l as [|x l IH]; intros acc; cbn [fold_left filter].
  - cbn. lia.
  - rewrite IH. destruct (p x); cbn [length]; lia.
Qed.

Lemma len_filter_le {A : Type} (p : A -> bool) (l : list A) :
  0 <= Py.len (filter p l) <= Py.len l.
Proof.
  unfold Py.len. pose proof (filter_length_le p l). lia.
Qed.

Lemma filter_none {A : Type} (p : A -> bool) (l : list A) :
  (forall x, In x l -> p x = false) -> filter p l = [].
Proof.
  induction l as [|x l IH]; intros H; [reflexivity|].
  cbn [filter]. rewrite (H x (or_introl eq_refl)).
  apply IH. intros y Hy. apply H. now right.
Qed.

(** Counting is monotone in the test. *)
Lemma len_filter_mono {A : Type} (p q : A -> bool) (l : list A) :
  (forall x, In x l -> p x = true -> q x = true) ->
  Py.len (filter p l) <= Py.len (filter q l).
Proof.
  unfold Py.len. induction l as [|x l IH]; intros H; [cbn; lia|].
  cbn [filter].
  assert (IH' : (Z.of_nat (length (filter p l)) <= Z.of_nat (length (filter q l))))
    by (apply IH; intros y Hy; apply H; now right).
  destruct (p x) eqn:Hp.
  - rewrite (H x (or_introl eq_refl) Hp). cbn [length]. lia.
  - destruct (q x); cbn [length]; lia.
Qed.

End LoopFacts.

Section ScoreFacts.
Context {U : UnicodeData}.

Lemma points_range b : 0 <= points b <= 1.
Proof. destruct b; cbn; lia. Qed.

Lemma points_mono b b' : (b = true -> b' = true) -> points b <= points b'.
Proof. destruct b, b'; cbn; intros H; try lia; now specialize (H eq_refl). Qed.

Lemma hit_filter_lower txt :
  filter (fun ind => Py.contains (Py.lower txt) (Py.lower ind)) SPAM_INDICATORS
  = filter (indicator_hit txt) SPAM_INDICATORS.
Proof.
  apply filter_ext_in. intros ind Hin. unfold indicator_hit.
  rewrite (lower_indicator ind Hin). reflexivity.
Qed.

(** The method computes the rule. *)
Lemma score_is_rule self txt :
  SpamDetector.calculate_spam_score self txt = score_rule txt.
Proof.
  unfold SpamDetector.calculate_spam_score, score_rule.
  cbv zeta. rewrite fold_points, hit_filter_lower.
  change (str "!") with [33%N]. rewrite count_single.
  fold (exclamation_marks txt). fold (punctuation_flag txt).
  fold (caps_flag txt). fold (indicator_points txt).
  unfold points.
  destruct (punctuation_flag txt), (caps_flag txt); lia.
Qed.

Lemma score_rule_range txt :
  0 <= score_rule txt <= Py.len SPAM_INDICATORS + 2.
Proof.
  unfold score_rule, indicator_points.
  pose proof (len_filter_le (indicator_hit txt) SPAM_INDICATORS).
  pose proof (points_range (punctuation_flag txt)).
  pose proof (points_range (caps_flag txt)). lia.
Qed.

(** The rule is monotone in each of its conditions. *)
Lemma score_rule_mono txt txt' :
  (forall ind, In ind SPAM_INDICATORS ->
               indicator_hit txt ind = true -> indicator_hit txt' ind = true) ->
  (punctuation_flag txt = true -> punctuation_flag txt' = true) ->
  (caps_flag txt = true -> caps_flag txt' = true) ->
  score_rule txt <= score_rule txt'.
Proof.
  intros Hi Hp Hc. unfold score_rule, indicator_points.
  pose proof (len_filter_mono _ _ SPAM_INDICATORS Hi).
  pose proof (points_mono _ _ Hp). pose proof (points_mono _ _ Hc). lia.
Qed.

Lemma indicators_distinct : NoDup SPAM_INDICATORS.
Proof.
  unfold SPAM_INDICATORS.
  repeat (constructor; [cbn; intuition discriminate|]). constructor.
Qed.

Lemma labels_differ : SPAM <> NOT_SPAM.
Proof. discriminate. Qed.

End ScoreFacts.

(** * Properties of the file system *)

Module OSFacts.
Import OS.

(** ** Entries of one directory *)

Lemma find_entry_none name es :
  find_entry name es = None <-> ~ In name (map fst es).
Proof.
  induction es as [|[n x] es IH]; cbn [find_entry map fst In].
  - tauto.
  - destruct (text_eq_dec n name) as [->|Hne].
    + split; [discriminate|]. intros H. exfalso. apply H. now left.
    + rewrite IH. tauto.
Qed.

Lemma find_entry_mid pre name x es :
  ~ In name (map fst pre) ->
  find_entry name (pre ++ (name, x) :: es) = Some x.
Proof.
  induction pre as [|[n y] pre IH]; cbn [app find_entry map fst In]; intros H.
  - now destruct (text_eq_dec name name).
  - destruct (text_eq_dec n name) as [->|Hne]; [tauto|]. apply IH. tauto.
Qed.

Lemma set_entry_mid pre name x y es :
  ~ In name (map fst pre) ->
  set_entry name y (pre ++ (name, x) :: es) = pre ++ (name, y) :: es.
Proof.
  induction pre as [|[n z] pre IH]; cbn [app set_entry map fst In]; intros H.
  - now destruct (text_eq_dec name name).
  - destruct (text_eq_dec n name) as [->|Hne]; [tauto|]. f_equal. apply IH. tauto.
Qed.

Lemma remove_entry_mid pre name x es :
  ~ In name (map fst pre) ->
  remove_entry name (pre ++ (name, x) :: es) = pre ++ es.
Proof.
  induction pre as [|[n z] pre IH]; cbn [app remove_entry map fst In]; intros H.
  - now destruct (text_eq_dec name name).
  - destruct (text_eq_dec n name) as [->|Hne]; [tauto|]. f_equal. apply IH. tauto.
Qed.

Lemma find_set_same name x es :
  find_entry name (set_entry name x es) = Some x.
Proof.
  induction es as [|[n y] es IH]; cbn [set_entry find_entry].
  - now destruct (text_eq_dec name name).
  - destruct (text_eq_dec n name) as [->|Hne]; cbn [find_entry].
    + now destruct (text_eq_dec name name).
    + now destruct (text_eq_dec n name).
Qed.

Lemma find_set_other name name' x es :
  name' <> name ->
  find_entry name' (set_entry name x es) = find_entry name' es.
Proof.
  intros Hne.
  induction es as [|[n y] es IH]; cbn [set_entry find_entry].
  - destruct (text_eq_dec name name'); congruence.
  - destruct (text_eq_dec n name) as [->|Hn]; cbn [find_entry].
    + destruct (text_eq_dec name name'); congruence.
    + now rewrite IH.
Qed.

Lemma set_set name x y es :
  set_entry name y (set_entry name x es) = set_entry name y es.
Proof.
  induction es as [|[n z] es IH]; cbn [set_entry].
  - now destruct (text_eq_dec name name).
  - destruct (text_eq_dec n name) as [->|Hn]; cbn [set_entry].
    + now destruct (text_eq_dec name name).
    + destruct (text_eq_dec n name); [congruence|]. now rewrite IH.
Qed.

Lemma set_same name x es :
  find_entry name es = Some x -> set_entry name x es = es.
Proof.
  induction es as [|[n z] es IH]; cbn [set_entry find_entry]; [discriminate|].
  destruct (text_eq_dec n name) as [->|Hn]; intros H.
  - congruence.
  - now rewrite IH.
Qed.

(** ** Paths *)

Lemma lookup_app p q n :
  lookup (p ++ q) n
  = match lookup p n with Some x => lookup q x | None => None end.
Proof.
  revert n. induction p as [|name p IH]; intros n; cbn [app lookup].
  - reflexivity.
  - destruct n as [|es]; [reflexivity|].
    destruct (find_entry name es); [apply IH|reflexivity].
Qed.

Lemma lookup_replace p x n y :
  lookup p n = Some y -> lookup p (replace p x n) = Some x.
Proof.
  revert n. induction p as [|name p IH]; intros n; cbn [lookup replace].
  - reflexivity.
  - destruct n as [|es]; [discriminate|].
    destruct (find_entry name es) as [d|] eqn:E; [|discriminate].
    intros H. cbn [lookup]. rewrite find_set_same. now apply IH.
Qed.

Lemma replace_replace p x z n y :
  lookup p n = Some y -> replace p z (replace p x n) = replace p z n.
Proof.
  revert n. induction p as [|name p IH]; intros n; cbn [lookup replace].
  - reflexivity.
  - destruct n as [|es]; [discriminate|].
    destruct (find_entry name es) as [d|] eqn:E; [|discriminate].
    intros H. cbn [replace]. rewrite find_set_same, set_set.
    now rewrite (IH d H).
Qed.

Lemma replace_same p n x :
  lookup p n = Some x -> replace p x n = n.
Proof.
  revert n. induction p as [|name p IH]; intros n; cbn [lookup replace].
  - congruence.
  - destruct n as [|es]; [discriminate|].
    destruct (find_entry name es) as [d|] eqn:E; [|discriminate].
    intros H. rewrite (IH d H). now rewrite set_same.
Qed.

Lemma replace_app p q x n d :
  lookup p n = Some d ->
  replace (p ++ q) x n = replace p (replace q x d) n.
Proof.
  revert n. induction p as [|name p IH]; intros n; cbn [app lookup replace].
  - congruence.
  - destruct n as [|es]; [discriminate|].
    destruct (find_entry name es) as [d'|] eqn:E; [|discriminate].
    intros H. now rewrite (IH d' H).
Qed.

Lemma split_join head tail : split (join head tail) = Some (head, tail).
Proof.
  unfold join. induction head as [|name head IH]; cbn [app split].
  - reflexivity.
  - now rewrite IH.
Qed.

Lemma split_inv p head tail : split p = Some (head, tail) -> p = join head tail.
Proof.
  unfold join. revert head tail.
  induction p as [|name p IH]; intros head tail; cbn [split]; [discriminate|].
  destruct (split p) as [[h t]|] eqn:E.
  - intros [= <- <-]. cbn [app]. f_equal. now apply IH.
  - intros [= <- <-]. destruct p; [reflexivity|].
    cbn [split] in E. destruct (split p) as [[? ?]|]; discriminate.
Qed.

Lemma lookup_join top name n es :
  lookup top n = Some (Dir es) ->
  lookup (join top name) n = find_entry name es.
Proof.
  intros H. unfold join. rewrite lookup_app, H. cbn [lookup].
  now destruct (find_entry name es).
Qed.

Lemma replace_join top name y n es d :
  lookup top n = Some (Dir es) ->
  find_entry name es = Some d ->
  replace (join top name) y n = replace top (Dir (set_entry name y es)) n.
Proof.
  intros Htop Hname. unfold join.
  rewrite (replace_app _ _ _ _ _ Htop). cbn [replace]. now rewrite Hname.
Qed.

Lemma lookup_parent head tail n x :
  lookup (join head tail) n = Some x ->
  exists es, lookup head n = Some (Dir es) /\ find_entry tail es = Some x.
Proof.
  unfold join. rewrite lookup_app.
  destruct (lookup head n) as [[|es]|]; cbn [lookup]; try discriminate.
  destruct (find_entry tail es) eqn:E; [|discriminate].
  intros [= <-]. now exists es.
Qed.

Lemma height_entry es name x :
  find_entry name es = Some x -> (height x < height (Dir es))%nat.
Proof.
  cbn [height].
  induction es as [|[n y] es IH]; cbn [find_entry fold_right snd]; [discriminate|].
  destruct (text_eq_dec n name).
  - intros [= ->]. lia.
  - intros H. specialize (IH H). lia.
Qed.

Lemma height_In es e :
  In e es -> (height (snd e) < height (Dir es))%nat.
Proof.
  cbn [height].
  induction es as [|y es IH]; cbn [In fold_right]; [tauto|].
  intros [->|H]; [lia|]. specialize (IH H). lia.
Qed.

Lemma lookup_height p n d : lookup p n = Some d -> (height d <= height n)%nat.
Proof.
  revert n. induction p as [|name p IH]; intros n; cbn [lookup].
  - intros [= ->]. lia.
  - destruct n as [|es]; [discriminate|].
    destruct (find_entry name es) as [x|] eqn:E; [|discriminate].
    intros H. apply IH in H. apply height_entry in E. lia.
Qed.

(** Unique names, unfolded one level. *)
Lemma names_unique_Dir es :
  names_unique (Dir es) = true ->
  NoDup (map fst es) /\ forall e, In e es -> names_unique (snd e) = true.
Proof.
  cbn [names_unique].
  induction es as [|[n x] es IH]; cbn [map fst In].
  - intros _. split; [constructor|tauto].
  - destruct (find_entry n es) eqn:E; [discriminate|].
    intros [Hx Hes]%andb_prop. destruct (IH Hes) as [Hnd Hall].
    split.
    + constructor; [now apply find_entry_none|exact Hnd].
    + intros e [<-|He]; [exact Hx|now apply Hall].
Qed.

(** ** Paths that do not resolve *)





End OSFacts.

(** * Properties of the calls *)

Module CallFacts.
Import OS OSFacts.

Lemma resolve_parent_join head tail fs es :
  lookup head fs = Some (Dir es) ->
  resolve_parent (join head tail) fs = (Return (head, es, tail), fs).
Proof.
  intros H. unfold resolve_parent, bind, get.
  rewrite split_join, H. reflexivity.
Qed.

(** A call that cannot find the directory of its path raises and leaves the
    tree alone. *)
Lemma resolve_parent_unchanged p fs r fs' :
  resolve_parent p fs = (r, fs') -> fs' = fs.
Proof.
  unfold resolve_parent, bind, get, raise, ret.
  destruct (split p) as [[head tail]|]; [|now intros [= _ <-]].
  destruct (lookup head fs) as [[|es]|]; now intros [= _ <-].
Qed.

Lemma lookup_set_dir top d es' fs name :
  lookup top fs = Some d ->
  lookup (join top name) (replace top (Dir es') fs) = find_entry name es'.
Proof.
  intros H. apply lookup_join. now apply lookup_replace with (y := d).
Qed.

Lemma exists_true p fs x :
  lookup p fs = Some x -> exists_ p fs = (Return true, fs).
Proof. intros H. unfold exists_, bind, get, ret. now rewrite H. Qed.

Lemma isdir_true p fs es :
  lookup p fs = Some (Dir es) -> isdir p fs = (Return true, fs).
Proof. intros H. unfold isdir, bind, get, ret. now rewrite H. Qed.

Lemma split_cons name p : exists head tail, split (name :: p) = Some (head, tail).
Proof.
  cbn [split]. destruct (split p) as [[h t]|]; eauto.
Qed.

Lemma mkdir_existing p fs x :
  p <> [] -> lookup p fs = Some x -> mkdir p fs = (Raise FileExistsError, fs).
Proof.
  intros Hp H. destruct p as [|name p]; [congruence|].
  destruct (split_cons name p) as (head & tail & Hs).
  apply split_inv in Hs. rewrite Hs in *.
  destruct (lookup_parent _ _ _ _ H) as (es & Hhead & Htail).
  unfold mkdir.
  destruct (join head tail) eqn:E; [unfold join in E; now destruct head|].
  rewrite <- E. unfold bind.
  rewrite (resolve_parent_join head tail fs es Hhead).
  now rewrite Htail.
Qed.

(** The step of [os.makedirs] that sees to the directory part. *)
Definition make_head (fuel : nat) (name : path) (exist_ok : bool) : M unit :=
  match split name with
  | Some (head, _) =>
      match head with
      | [] => ret tt
      | _ :: _ =>
          head_exists <- exists_ head ;;
          if head_exists then ret tt
          else try_except (makedirs_rec fuel head exist_ok)
                 (fun e => match e with
                           | FileExistsError => ret tt
                           | _ => raise e
                           end)
      end
  | None => ret tt
  end.

Lemma makedirs_rec_S fuel name exist_ok :
  makedirs_rec (S fuel) name exist_ok
  = (make_head fuel name exist_ok ;;
     try_except_OSError (mkdir name)
       (fun e =>
          name_isdir <- isdir name ;;
          if negb exist_ok || negb name_isdir then raise e else ret tt)).
Proof. reflexivity. Qed.

(** [os.makedirs(name, exist_ok=True)] on a directory that is there. *)
Lemma makedirs_existing name fs es :
  name <> [] -> lookup name fs = Some (Dir es) ->
  makedirs name true fs = (Return tt, fs).
Proof.
  intros Hp H. unfold makedirs. rewrite makedirs_rec_S.
  assert (Hhead : make_head (length name) name true fs = (Return tt, fs)).
  { unfold make_head. destruct (split name) as [[[|h head] tail]|] eqn:Hs;
      try reflexivity.
    apply split_inv in Hs. rewrite Hs in H.
    destruct (lookup_parent _ _ _ _ H) as (esh & Hh & _).
    unfold bind. now rewrite (exists_true _ _ _ Hh). }
  unfold bind at 1. rewrite Hhead. unfold try_except_OSError, try_except.
  rewrite (mkdir_existing name fs (Dir es) Hp H). cbn [is_OSError].
  unfold bind. now rewrite (isdir_true _ _ _ H).
Qed.

Lemma for_each_unchanged {A : Type} (xs : list A) (body : A -> M unit) fs :
  (forall x, In x xs -> body x fs = (Return tt, fs)) ->
  for_each xs body fs = (Return tt, fs).
Proof.
  induction xs as [|x xs IH]; intros H; cbn [for_each]; [reflexivity|].
  unfold bind. rewrite (H x (or_introl eq_refl)).
  apply IH. intros y Hy. apply H. now right.
Qed.

(** ** Text files *)

Section TextFiles.
Context {R : Runtime}.

Lemma open_w_cases head tail now fs :
  open_w (join head tail) now fs
  = match lookup head fs with
    | Some (Dir es) =>
        match find_entry tail es with
        | Some (Dir _) => (Raise IsADirectoryError, fs)
        | _ => (Return tt, replace head (Dir (set_entry tail (File now []) es)) fs)
        end
    | Some (File _ _) => (Raise NotADirectoryError, fs)
    | None => (Raise (lookup_error head fs), fs)
    end.
Proof.
  unfold open_w, bind at 1, resolve_parent, bind, get. rewrite split_join.
  destruct (lookup head fs) as [[|es]|]; try reflexivity.
  unfold ret. cbv beta iota.
  destruct (find_entry tail es) as [[|]|]; reflexivity.
Qed.

Lemma open_a_cases head tail now fs :
  open_a (join head tail) now fs
  = match lookup head fs with
    | Some (Dir es) =>
        match find_entry tail es with
        | Some (Dir _) => (Raise IsADirectoryError, fs)
        | Some (File _ _) => (Return tt, fs)
        | None => (Return tt, replace head (Dir (set_entry tail (File now []) es)) fs)
        end
    | Some (File _ _) => (Raise NotADirectoryError, fs)
    | None => (Raise (lookup_error head fs), fs)
    end.
Proof.
  unfold open_a, bind at 1, resolve_parent, bind, get. rewrite split_join.
  destruct (lookup head fs) as [[|es]|]; try reflexivity.
  unfold ret. cbv beta iota.
  destruct (find_entry tail es) as [[|]|]; reflexivity.
Qed.

(** [f.write] on a file that is there. *)
Lemma write_file head tail data now fs es mtime old :
  lookup head fs = Some (Dir es) ->
  find_entry tail es = Some (File mtime old) ->
  write (join head tail) data now fs
  = if forallb encodable data
    then (Return tt,
          replace head (Dir (set_entry tail (File now (old ++ data)) es)) fs)
    else (Raise UnicodeEncodeError, fs).
Proof.
  intros Hhead Htail. unfold write.
  destruct (forallb encodable data); [|reflexivity].
  unfold bind. rewrite (resolve_parent_join _ _ _ _ Hhead), Htail. reflexivity.
Qed.

(** [f.write] on the file that [open] has just made or emptied, or that an
    earlier [f.write] of the same time has left. *)
Lemma write_opened head tail data now fs es d old :
  lookup head fs = Some d ->
  write (join head tail) data now
    (replace head (Dir (set_entry tail (File now old) es)) fs)
  = if forallb encodable data
    then (Return tt,
          replace head (Dir (set_entry tail (File now (old ++ data)) es)) fs)
    else (Raise UnicodeEncodeError,
          replace head (Dir (set_entry tail (File now old) es)) fs).
Proof.
  intros Hhead.
  rewrite (write_file head tail data now _ (set_entry tail (File now old) es) now old).
  - now rewrite (replace_replace _ _ _ _ _ Hhead), set_set.
  - now apply lookup_replace with (y := d).
  - apply find_set_same.
Qed.

(** [with open(p, "a") as f: f.write(data)], case by case. *)
Lemma append_text_cases head tail data now fs :
  append_text (join head tail) data now fs
  = match lookup head fs with
    | Some (Dir es) =>
        match find_entry tail es with
        | Some (Dir _) => (Raise IsADirectoryError, fs)
        | Some (File _ old) =>
            if forallb encodable data
            then (Return tt,
                  replace head (Dir (set_entry tail (File now (old ++ data)) es)) fs)
            else (Raise UnicodeEncodeError, fs)
        | None =>
            if forallb encodable data
            then (Return tt,
                  replace head (Dir (set_entry tail (File now data) es)) fs)
            else (Raise UnicodeEncodeError,
                  replace head (Dir (set_entry tail (File now []) es)) fs)
        end
    | Some (File _ _) => (Raise NotADirectoryError, fs)
    | None => (Raise (lookup_error head fs), fs)
    end.
Proof.
  unfold append_text, bind. rewrite open_a_cases.
  destruct (lookup head fs) as [[|es]|] eqn:Hhead; try reflexivity.
  destruct (find_entry tail es) as [[mtime old|sub]|] eqn:Htail; try reflexivity.
  - apply (write_file _ _ _ _ _ _ _ _ Hhead Htail).
  - apply (write_opened head tail data now fs es _ [] Hhead).
Qed.

End TextFiles.

(** ** Calls that only add directories *)

(** Every path of [fs] is still there in [fs'], with the same kind. *)
Definition grows (fs fs' : node) : Prop :=
  forall q x, lookup q fs = Some x ->
              exists x', lookup q fs' = Some x' /\ is_dir x' = is_dir x.

Lemma grows_refl fs : grows fs fs.
Proof. intros q x H. now exists x. Qed.

Lemma grows_trans fs1 fs2 fs3 : grows fs1 fs2 -> grows fs2 fs3 -> grows fs1 fs3.
Proof.
  intros H12 H23 q x H. destruct (H12 q x H) as (x2 & H2 & E2).
  destruct (H23 q x2 H2) as (x3 & H3 & E3). exists x3. split; [exact H3|congruence].
Qed.

Lemma replace_grows head : forall n es es',
  lookup head n = Some (Dir es) ->
  (forall name y, find_entry name es = Some y -> find_entry name es' = Some y) ->
  grows n (replace head (Dir es') n).
Proof.
  induction head as [|h head IH]; intros n es es' Hhead Hext q x Hq.
  - cbn [lookup] in Hhead. injection Hhead as ->. cbn [replace].
    destruct q as [|name q]; cbn [lookup] in *.
    + injection Hq as <-. now exists (Dir es').
    + destruct (find_entry name es) as [y|] eqn:E; [|discriminate].
      rewrite (Hext _ _ E). now exists x.
  - cbn [lookup] in Hhead. destruct n as [|E]; [discriminate|].
    destruct (find_entry h E) as [d|] eqn:Hd; [|discriminate].
    cbn [replace]. rewrite Hd.
    destruct q as [|name q]; cbn [lookup] in *.
    + injection Hq as <-. now eexists.
    + destruct (text_eq_dec name h) as [->|Hne].
      * rewrite Hd in Hq. rewrite find_set_same.
        exact (IH d es es' Hhead Hext q x Hq).
      * rewrite find_set_other by exact Hne.
        destruct (find_entry name E); [|discriminate]. now exists x.
Qed.

Lemma find_entry_app_new es name x name' y :
  find_entry name' es = Some y -> find_entry name' (es ++ [(name, x)]) = Some y.
Proof.
  induction es as [|[n z] es IH]; cbn [app find_entry]; [discriminate|].
  destruct (text_eq_dec n name'); [trivial|exact IH].
Qed.

Lemma find_entry_app_last es name x :
  find_entry name es = None -> find_entry name (es ++ [(name, x)]) = Some x.
Proof.
  induction es as [|[n z] es IH]; cbn [app find_entry].
  - intros _. now destruct (text_eq_dec name name).
  - destruct (text_eq_dec n name); [discriminate|exact IH].
Qed.

Lemma resolve_parent_inv p fs head es tail fs1 :
  resolve_parent p fs = (Return (head, es, tail), fs1) ->
  fs1 = fs /\ p = join head tail /\ lookup head fs = Some (Dir es).
Proof.
  intros R. pose proof (resolve_parent_unchanged _ _ _ _ R) as ->.
  unfold resolve_parent, bind, get, raise, ret in R.
  destruct (split p) as [[h t]|] eqn:Hs; [|discriminate].
  destruct (lookup h fs) as [[|es0]|] eqn:Hh; try discriminate.
  injection R as <- <- <-. apply split_inv in Hs. now repeat split.
Qed.

(** [os.mkdir] adds one empty directory, or raises and changes nothing. *)
Lemma mkdir_cases p fs :
  match mkdir p fs with
  | (Return _, fs') => grows fs fs' /\ lookup p fs' = Some (Dir [])
  | (Raise _, fs') => fs' = fs
  end.
Proof.
  unfold mkdir. destruct p as [|name p]; [reflexivity|].
  unfold bind.
  destruct (resolve_parent (name :: p) fs) as [[[[head es] tail]|e] fs1] eqn:R.
  - apply resolve_parent_inv in R as (-> & Hp & Hhead).
    destruct (find_entry tail es) as [y|] eqn:Ht; [reflexivity|].
    unfold set_dir, bind, get, OS.put. split.
    + apply (replace_grows head fs es _ Hhead).
      intros n y. apply find_entry_app_new.
    + rewrite Hp, (lookup_set_dir _ _ _ _ _ Hhead).
      now apply find_entry_app_last.
  - now apply resolve_parent_unchanged in R.
Qed.

(** [os.makedirs(name, exist_ok=True)] only adds directories, and when it
    returns, [name] is a directory. *)
Lemma makedirs_rec_cases fuel : forall name fs,
  match makedirs_rec fuel name true fs with
  | (Return _, fs') =>
      grows fs fs'
      /\ (fuel <> O -> exists es, lookup name fs' = Some (Dir es))
  | (Raise _, fs') => grows fs fs'
  end.
Proof.
  induction fuel as [|fuel IH]; intros name fs.
  - cbn [makedirs_rec]. split; [apply grows_refl|congruence].
  - rewrite makedirs_rec_S.
    assert (H1 : match make_head fuel name true fs with (_, fs1) => grows fs fs1 end).
    { unfold make_head.
      destruct (split name) as [[[|h head] tail]|]; try apply grows_refl.
      unfold bind, exists_, bind, get, ret.
      destruct (lookup (h :: head) fs); [apply grows_refl|].
      unfold try_except. specialize (IH (h :: head) fs).
      destruct (makedirs_rec fuel (h :: head) true fs) as [[u|e] fs1].
      - exact (proj1 IH).
      - destruct e; exact IH. }
    unfold bind at 1.
    destruct (make_head fuel name true fs) as [[u|e] fs1]; [|exact H1].
    unfold try_except_OSError, try_except. pose proof (mkdir_cases name fs1) as Hm.
    destruct (mkdir name fs1) as [[u2|e2] fs2].
    + destruct Hm as [Hg Hl]. split; [now apply grows_trans with fs1|].
      intros _. now exists [].
    + subst fs2. destruct (is_OSError e2); [|exact H1].
      unfold bind, isdir, bind, get, ret. cbn [negb orb].
      destruct (lookup name fs1) as [[|es]|] eqn:Hl; cbn [is_dir negb];
        unfold raise; try exact H1.
      split; [exact H1|]. intros _. now exists es.
Qed.

Lemma for_each_makedirs dirs : forall fs,
  match for_each dirs (fun directory => makedirs directory true) fs with
  | (Return _, fs') =>
      grows fs fs'
      /\ forall d, In d dirs -> exists es, lookup d fs' = Some (Dir es)
  | (Raise _, fs') => grows fs fs'
  end.
Proof.
  induction dirs as [|d dirs IH]; intros fs; cbn [for_each].
  - split; [apply grows_refl|]. intros d [].
  - unfold bind. unfold makedirs at 1.
    pose proof (makedirs_rec_cases (S (length d)) d fs) as Hd.
    destruct (makedirs_rec (S (length d)) d true fs) as [[u|e] fs1]; [|exact Hd].
    destruct Hd as [Hg Hdir]. specialize (Hdir ltac:(discriminate)).
    specialize (IH fs1).
    destruct (for_each dirs (fun directory => makedirs directory true) fs1)
      as [[u2|e2] fs2].
    + destruct IH as [Hg2 Hall]. split; [now apply grows_trans with fs1|].
      intros d' [<-|Hin]; [|now apply Hall].
      destruct Hdir as (es & Hes). destruct (Hg2 _ _ Hes) as (x' & Hx' & Hk).
      destruct x' as [|es']; [discriminate|]. now exists es'.
    + now apply grows_trans with fs1.
Qed.

End CallFacts.

(** * The sweep of [cleanup_old_files] *)

Module SweepFacts.
Import OS OSFacts CallFacts SystemManager.

Section Sweep.
Variables (current_time : float) (days : Z).

(** The body of the inner loop, for one file of the directory [root]. *)
Definition file_body (root : path) (file : text) : M unit :=
  let file_path := join root file in
  mtime <- getmtime file_path ;;
  if Float64.gt_int (Float64.sub current_time mtime) (days * 86400)
  then remove file_path
  else ret tt.

Definition walk_body : path * list text * list text -> M unit :=
  fun '(root, _, files) => for_each files (file_body root).

Definition keep (e : text * node) : bool :=
  match snd e with
  | File mtime _ => negb (expired current_time days mtime)
  | Dir _ => true
  end.

Lemma sweep_entries_nil : sweep_entries current_time days [] = [].
Proof. reflexivity. Qed.

Lemma sweep_entries_file name mtime data es :
  sweep_entries current_time days ((name, File mtime data) :: es)
  = if expired current_time days mtime
    then sweep_entries current_time days es
    else (name, File mtime data) :: sweep_entries current_time days es.
Proof.
  unfold sweep_entries. cbn [sweep].
  now destruct (expired current_time days mtime).
Qed.

Lemma sweep_entries_dir name sub es :
  sweep_entries current_time days ((name, Dir sub) :: es)
  = (name, sweep current_time days (Dir sub)) :: sweep_entries current_time days es.
Proof. reflexivity. Qed.

Lemma sweep_Dir es :
  sweep current_time days (Dir es) = Dir (sweep_entries current_time days es).
Proof. reflexivity. Qed.

Lemma nodup_mid (pre : list (text * node)) e es :
  NoDup (map fst (pre ++ e :: es)) ->
  ~ In (fst e) (map fst pre)
  /\ NoDup (map fst (pre ++ es))
  /\ forall e', fst e' = fst e -> NoDup (map fst ((pre ++ [e']) ++ es)).
Proof.
  rewrite !map_app. cbn [map]. intros H.
  pose proof (NoDup_remove_1 _ _ _ H) as H1.
  pose proof (NoDup_remove_2 _ _ _ H) as H2.
  split; [|split].
  - intros Hin. apply H2, in_or_app. now left.
  - exact H1.
  - intros e' He'. rewrite !map_app, <- app_assoc. cbn [map app]. now rewrite He'.
Qed.

Section OneDirectory.
Variables (top : path) (fs0 d0 : node).
Hypothesis Htop : lookup top fs0 = Some d0.

Lemma lookup_top es : lookup top (replace top (Dir es) fs0) = Some (Dir es).
Proof. now apply lookup_replace with (y := d0). Qed.

Lemma getmtime_entry es name mtime data :
  find_entry name es = Some (File mtime data) ->
  getmtime (join top name) (replace top (Dir es) fs0)
  = (Return mtime, replace top (Dir es) fs0).
Proof.
  intros H. unfold getmtime, bind, get.
  now rewrite (lookup_set_dir _ _ _ _ _ Htop), H.
Qed.

Lemma remove_entry_file es name mtime data :
  find_entry name es = Some (File mtime data) ->
  remove (join top name) (replace top (Dir es) fs0)
  = (Return tt, replace top (Dir (remove_entry name es)) fs0).
Proof.
  intros H. unfold remove, bind.
  rewrite (resolve_parent_join _ _ _ _ (lookup_top es)), H.
  unfold set_dir, bind, get, OS.put.
  now rewrite (replace_replace _ _ _ _ _ Htop).
Qed.

(** The inner loop removes the expired files of the directory. *)
Lemma files_loop es : forall pre,
  NoDup (map fst (pre ++ es)) ->
  for_each (map fst (filter (fun e => negb (is_dir (snd e))) es)) (file_body top)
    (replace top (Dir (pre ++ es)) fs0)
  = (Return tt, replace top (Dir (pre ++ filter keep es)) fs0).
Proof.
  induction es as [|[name x] es IH]; intros pre Hnd; [reflexivity|].
  destruct (nodup_mid _ _ _ Hnd) as (Hpre & Hrest & Hkeep).
  cbn [filter snd]. destruct x as [mtime data|sub]; cbn [is_dir negb map fst].
  - cbn [for_each]. unfold bind at 1, file_body at 1, bind at 1.
    rewrite (getmtime_entry _ name mtime data) by now apply find_entry_mid.
    unfold keep at 1. cbn [snd]. unfold expired.
    destruct (Float64.gt_int (Float64.sub current_time mtime) (days * 86400));
      cbn [negb].
    + rewrite (remove_entry_file _ name mtime data) by now apply find_entry_mid.
      rewrite remove_entry_mid by exact Hpre. now apply IH.
    + unfold ret at 1.
      specialize (IH (pre ++ [(name, File mtime data)]) (Hkeep _ eq_refl)).
      rewrite <- !app_assoc in IH. exact IH.
  - unfold keep at 1. cbn [snd].
    specialize (IH (pre ++ [(name, Dir sub)]) (Hkeep _ eq_refl)).
    rewrite <- !app_assoc in IH. exact IH.
Qed.

End OneDirectory.

Section Descend.
Variable fuel : nat.
Hypothesis IHwalk : forall top fs sub,
  lookup top fs = Some (Dir sub) ->
  names_unique (Dir sub) = true ->
  (height (Dir sub) <= fuel)%nat ->
  walk fuel top walk_body fs
  = (Return tt, replace top (sweep current_time days (Dir sub)) fs).

(** The descent into the sub-directories sweeps each of them. *)
Lemma dirs_loop top fs0 d0 (Htop : lookup top fs0 = Some d0) es : forall pre,
  NoDup (map fst (pre ++ es)) ->
  (forall e, In e es ->
             names_unique (snd e) = true /\ (height (snd e) <= fuel)%nat) ->
  for_each (map fst (filter (fun e => is_dir (snd e)) es))
    (fun dirname => walk fuel (join top dirname) walk_body)
    (replace top (Dir (pre ++ filter keep es)) fs0)
  = (Return tt, replace top (Dir (pre ++ sweep_entries current_time days es)) fs0).
Proof.
  induction es as [|[name x] es IH]; intros pre Hnd Hall; [reflexivity|].
  destruct (nodup_mid _ _ _ Hnd) as (Hpre & Hrest & Hkeep).
  assert (Hall' : forall e, In e es ->
             names_unique (snd e) = true /\ (height (snd e) <= fuel)%nat)
    by (intros e He; apply Hall; now right).
  cbn [filter snd]. destruct x as [mtime data|sub]; cbn [is_dir map fst].
  - rewrite sweep_entries_file. unfold keep at 1. cbn [snd].
    destruct (expired current_time days mtime); cbn [negb].
    + now apply IH.
    + specialize (IH (pre ++ [(name, File mtime data)]) (Hkeep _ eq_refl) Hall').
      rewrite <- !app_assoc in IH. exact IH.
  - rewrite sweep_entries_dir. unfold keep at 1. cbn [snd for_each].
    destruct (Hall _ (or_introl eq_refl)) as [Hu Hh]. cbn [snd] in Hu, Hh.
    set (E := pre ++ (name, Dir sub) :: filter keep es).
    assert (Hsub : lookup (join top name) (replace top (Dir E) fs0) = Some (Dir sub)).
    { rewrite (lookup_set_dir _ _ _ _ _ Htop). now apply find_entry_mid. }
    unfold bind at 1. rewrite (IHwalk _ _ _ Hsub Hu Hh).
    rewrite (replace_join _ _ _ _ E (Dir sub) (lookup_top top fs0 d0 Htop E))
      by now apply find_entry_mid.
    unfold E at 1. rewrite set_entry_mid by exact Hpre.
    rewrite (replace_replace _ _ _ _ _ Htop).
    specialize (IH (pre ++ [(name, sweep current_time days (Dir sub))])
                  (Hkeep (name, sweep current_time days (Dir sub)) eq_refl) Hall').
    rewrite <- !app_assoc in IH. exact IH.
Qed.

End Descend.

Lemma scandir_dir top fs es :
  lookup top fs = Some (Dir es) ->
  scandir top fs
  = (Return (map fst (filter (fun e => is_dir (snd e)) es),
             map fst (filter (fun e => negb (is_dir (snd e))) es)), fs).
Proof. intros H. unfold scandir, bind, get. now rewrite H. Qed.

(** With fuel for the depth of the directory, the walk leaves the swept
    tree. *)
Lemma walk_sweep fuel : forall top fs sub,
  lookup top fs = Some (Dir sub) ->
  names_unique (Dir sub) = true ->
  (height (Dir sub) <= fuel)%nat ->
  walk fuel top walk_body fs
  = (Return tt, replace top (sweep current_time days (Dir sub)) fs).
Proof.
  induction fuel as [|fuel IH]; intros top fs sub Htop Hu Hh.
  - cbn [height] in Hh. lia.
  - destruct (names_unique_Dir _ Hu) as [Hnd Hall].
    assert (G : walk (S fuel) top walk_body (replace top (Dir ([] ++ sub)) fs)
                = (Return tt, replace top (sweep current_time days (Dir sub)) fs)).
    { cbn [walk]. unfold bind at 1, try_except_OSError, try_except, bind at 1.
      rewrite (scandir_dir _ _ _ (lookup_top top fs _ Htop _)).
      unfold ret at 1. unfold bind at 1. unfold walk_body at 1. cbn [app].
      pose proof (files_loop top fs _ Htop sub [] Hnd) as HF.
      cbn [app] in HF. rewrite HF.
      assert (Hsub : forall e, In e sub ->
                names_unique (snd e) = true /\ (height (snd e) <= fuel)%nat).
      { intros e He. split; [now apply Hall|].
        pose proof (height_In _ _ He). lia. }
      pose proof (dirs_loop fuel IH top fs _ Htop sub [] Hnd Hsub) as HD.
      cbn [app] in HD. rewrite HD. reflexivity. }
    cbn [app] in G. rewrite (replace_same _ _ _ Htop) in G. exact G.
Qed.

(** ** What the swept tree holds *)

Lemma find_entry_In name es x :
  find_entry name es = Some x -> In (name, x) es.
Proof.
  induction es as [|[n y] es IH]; cbn [find_entry]; [discriminate|].
  destruct (text_eq_dec n name) as [->|Hne].
  - intros [= ->]. now left.
  - intros H. right. now apply IH.
Qed.

Lemma find_sweep_entries name es :
  NoDup (map fst es) ->
  find_entry name (sweep_entries current_time days es)
  = match find_entry name es with
    | Some (File mtime data) =>
        if expired current_time days mtime then None else Some (File mtime data)
    | Some (Dir sub) => Some (sweep current_time days (Dir sub))
    | None => None
    end.
Proof.
  induction es as [|[n x] es IH]; intros Hnd; [reflexivity|].
  cbn [map fst] in Hnd. apply NoDup_cons_iff in Hnd as [Hn Hnd].
  specialize (IH Hnd). cbn [find_entry].
  destruct x as [mtime data|sub].
  - rewrite sweep_entries_file.
    destruct (text_eq_dec n name) as [->|Hne].
    + destruct (expired current_time days mtime).
      * rewrite IH. apply find_entry_none in Hn. now rewrite Hn.
      * cbn [find_entry]. now destruct (text_eq_dec name name).
    + destruct (expired current_time days mtime); [exact IH|].
      cbn [find_entry]. now destruct (text_eq_dec n name).
  - rewrite sweep_entries_dir. cbn [find_entry].
    now destruct (text_eq_dec n name).
Qed.

Lemma lookup_sweep rel : forall es,
  names_unique (Dir es) = true ->
  match lookup rel (Dir es) with
  | Some (File mtime data) =>
      lookup rel (sweep current_time days (Dir es))
      = if expired current_time days mtime then None else Some (File mtime data)
  | Some (Dir sub) =>
      lookup rel (sweep current_time days (Dir es))
      = Some (sweep current_time days (Dir sub))
  | None => lookup rel (sweep current_time days (Dir es)) = None
  end.
Proof.
  induction rel as [|name rel IH]; intros es Hu; [reflexivity|].
  destruct (names_unique_Dir _ Hu) as [Hnd Hall].
  rewrite sweep_Dir. cbn [lookup]. rewrite (find_sweep_entries name es Hnd).
  destruct (find_entry name es) as [[mtime data|sub]|] eqn:E.
  - destruct rel as [|name' rel]; cbn [lookup].
    + now destruct (expired current_time days mtime).
    + now destruct (expired current_time days mtime).
  - apply find_entry_In, Hall in E. cbn [snd] in E. exact (IH sub E).
  - reflexivity.
Qed.

End Sweep.

(** ** The test of the sweep *)

(** The comparison of a float with an int is the comparison of the numbers
    they stand for. *)
Lemma gt_int_spec (x : float) (k : Z) :
  Float64.is_finite x = true ->
  Float64.gt_int x k = true <-> (inject_Z k < Float64.to_Q x)%Q.
Proof.
  destruct x as [s|s| |s m e]; cbn [Float64.is_finite]; try discriminate;
    intros _; unfold Float64.gt_int, Float64.to_Q.
  - rewrite Z.ltb_lt. change 0%Q with (inject_Z 0). now rewrite <- Zlt_Qlt.
  - cbv zeta. destruct (0 <=? e) eqn:He.
    + rewrite Z.ltb_lt. now rewrite <- Zlt_Qlt.
    + apply Z.leb_gt in He. rewrite Z.ltb_lt.
      unfold Qlt, inject_Z. cbn [Qnum Qden].
      rewrite Z2Pos.id by (apply Z.pow_pos_nonneg; lia). lia.
Qed.

(** When the difference of the two times is a float, so that the
    subtraction does not round, the test of the sweep is the comparison of
    the modification time with the time [days * 86400] seconds before the
    current time. *)
Lemma expired_exact (current_time : float) (days : Z) (mtime : float) :
  Float64.is_finite (Float64.sub current_time mtime) = true ->
  (Float64.to_Q (Float64.sub current_time mtime)
   == Float64.to_Q current_time - Float64.to_Q mtime)%Q ->
  expired current_time days mtime = true
  <-> (Float64.to_Q mtime
       < Float64.to_Q current_time - inject_Z (days * 86400))%Q.
Proof.
  intros Hfin Hexact. unfold expired. rewrite (gt_int_spec _ _ Hfin), Hexact.
  split; intros H; lra.
Qed.

End SweepFacts.

(** * Properties of the JSON encoding *)

Module JsonFacts.
Import Json.

Section Encoding.
Context {R : Runtime}.

(** ** Integers *)

(** The value of a list of digits, least significant first. *)
Fixpoint value_rev (ds : list N) : N :=
  match ds with
  | [] => 0
  | d :: ds' => d + 10 * value_rev ds'
  end.

Definition digit_char (d : N) : codepoint := (48 + d)%N.

Lemma digits_rev_S fuel n :
  digits_rev (S fuel) n
  = if (n <? 10)%N then [n] else (n mod 10)%N :: digits_rev fuel (n / 10)%N.
Proof. reflexivity. Qed.

Lemma digits_rev_spec fuel : forall n,
  (n < 2 ^ N.of_nat (S fuel))%N ->
  let ds := digits_rev (S fuel) n in
  value_rev ds = n
  /\ Forall (fun d => (d < 10)%N) ds
  /\ ds <> []
  /\ ((0 < n)%N -> last ds 0%N <> 0%N).
Proof.
  induction fuel as [|fuel IH]; intros n Hn; cbv zeta.
  - change (2 ^ N.of_nat 1)%N with 2%N in Hn.
    cbn [digits_rev]. destruct (N.ltb_spec n 10); [|lia].
    cbn [value_rev last]. repeat split; try lia; try discriminate.
    constructor; [lia|constructor].
  - rewrite digits_rev_S. destruct (N.ltb_spec n 10) as [Hlt|Hge].
    + cbn [value_rev last]. repeat split; try lia; try discriminate.
      constructor; [lia|constructor].
    + assert (Hdiv : (n / 10 < 2 ^ N.of_nat (S fuel))%N).
      { apply N.Div0.div_lt_upper_bound.
        rewrite (Nat2N.inj_succ (S fuel)), N.pow_succ_r' in Hn. lia. }
      destruct (IH _ Hdiv) as (Hv & Hall & Hne & Hlast).
      cbv zeta in Hv, Hall, Hne, Hlast.
      set (ds := digits_rev (S fuel) (n / 10)) in *.
      repeat split.
      * cbn [value_rev]. rewrite Hv.
        pose proof (N.div_mod n 10). lia.
      * constructor; [|exact Hall].
        apply N.mod_lt. lia.
      * discriminate.
      * intros _. destruct ds as [|d ds'] eqn:E; [congruence|].
        change (last ((n mod 10)%N :: d :: ds') 0%N) with (last (d :: ds') 0%N).
        apply Hlast.
        apply N.div_str_pos. lia.
Qed.

Lemma log2_fuel n : (n < 2 ^ N.of_nat (S (N.to_nat (N.log2 n))))%N.
Proof.
  rewrite Nat2N.inj_succ, N2Nat.id.
  destruct (N.eq_dec n 0) as [->|Hn]; [reflexivity|].
  apply N.log2_spec. lia.
Qed.

(** Reading digits continues the number read so far. *)
Lemma scan_digits_app ds : forall acc rest,
  Forall (fun d => (d < 10)%N) ds ->
  match rest with [] => True | c :: _ => is_digit c = false end ->
  scan_digits acc (map digit_char (rev ds) ++ rest)
  = ((acc * 10 ^ N.of_nat (length ds) + value_rev ds)%N, rest).
Proof.
  induction ds as [|d ds IH] using rev_ind; intros acc rest Hall Hrest.
  - cbn [rev map app length value_rev]. change (10 ^ N.of_nat 0)%N with 1%N.
    rewrite N.mul_1_r, N.add_0_r.
    destruct rest as [|c rest]; [reflexivity|].
    cbn [scan_digits]. now rewrite Hrest.
  - apply Forall_app in Hall as [Hall Hd]. apply Forall_inv in Hd.
    rewrite rev_app_distr. cbn [rev app map].
    cbn [scan_digits].
    assert (Hdig : is_digit (digit_char d) = true).
    { unfold is_digit, digit_char.
      apply andb_true_iff; split; apply N.leb_le; lia. }
    rewrite Hdig.
    rewrite (IH _ rest Hall Hrest).
    f_equal.
    rewrite length_app. cbn [length].
    rewrite Nat.add_1_r, Nat2N.inj_succ, N.pow_succ_r'.
    assert (Hval : forall l, value_rev (l ++ [d])
                             = (value_rev l + 10 ^ N.of_nat (length l) * d)%N).
    { induction l as [|x l IHl].
      - cbn [app value_rev length]. change (N.of_nat 0) with 0%N.
        rewrite N.pow_0_r. lia.
      - cbn [app value_rev length]. rewrite IHl.
        rewrite Nat2N.inj_succ, N.pow_succ_r'. lia. }
    rewrite Hval. unfold digit_char.
    replace (48 + d - 48)%N with d by lia.
    remember (10 ^ N.of_nat (length ds))%N as p. lia.
Qed.

Definition stops_number (rest : text) : Prop :=
  match rest with
  | [] => True
  | c :: _ => is_digit c = false /\ no_fraction rest = true
  end.

Lemma digits_shape n :
  exists msd ds,
    digits n = digit_char msd :: map digit_char (rev ds)
    /\ (msd < 10)%N
    /\ Forall (fun d => (d < 10)%N) ds
    /\ (msd * 10 ^ N.of_nat (length ds) + value_rev ds = n)%N
    /\ ((0 < n)%N -> msd <> 0%N)
    /\ (n = 0%N -> msd = 0%N /\ ds = []).
Proof.
  destruct (digits_rev_spec _ n (log2_fuel n)) as (Hv & Hall & Hne & Hlast).
  cbv zeta in Hv, Hall, Hne, Hlast. unfold digits.
  set (all := digits_rev (S (N.to_nat (N.log2 n))) n) in *.
  assert (Hzero : n = 0%N -> all = [0%N]) by (intros ->; reflexivity).
  clearbody all.
  rewrite (app_removelast_last 0%N Hne) in Hv, Hall |- *.
  set (ds := removelast all) in *. set (msd := last all 0%N) in *.
  exists msd, ds. apply Forall_app in Hall as [Hds Hmsd]. apply Forall_inv in Hmsd.
  assert (Hval : (value_rev (ds ++ [msd])
                  = value_rev ds + 10 ^ N.of_nat (length ds) * msd)%N).
  { clear. induction ds as [|x l IHl].
    - cbn [app value_rev length]. change (N.of_nat 0) with 0%N.
      rewrite N.pow_0_r. lia.
    - cbn [app value_rev length]. rewrite IHl.
      rewrite Nat2N.inj_succ, N.pow_succ_r'. lia. }
  split; [|split; [|split; [|split; [|split]]]].
  - rewrite rev_app_distr. reflexivity.
  - exact Hmsd.
  - exact Hds.
  - rewrite Hval in Hv. lia.
  - exact Hlast.
  - intros H0. specialize (Hzero H0). subst msd ds. now rewrite Hzero.
Qed.

Lemma digit_char_is_digit d : (d < 10)%N -> is_digit (digit_char d) = true.
Proof.
  intros H. unfold is_digit, digit_char.
  apply andb_true_iff; split; apply N.leb_le; lia.
Qed.

Lemma scan_natural_digits n rest :
  stops_number rest ->
  scan_natural (digits n ++ rest) = Some (n, rest).
Proof.
  intros Hrest.
  destruct (digits_shape n) as (msd & ds & -> & Hmsd & Hds & Hval & Hpos & Hzero).
  cbn [app scan_natural].
  destruct (N.eq_dec n 0) as [Hn|Hn].
  - destruct (Hzero Hn) as [-> ->]. subst n. reflexivity.
  - assert (Hm : msd <> 0%N) by (apply Hpos; lia).
    unfold digit_char at 1.
    destruct (N.eqb_spec (48 + msd) 48) as [E|_]; [lia|].
    fold (digit_char msd). rewrite (digit_char_is_digit _ Hmsd).
    rewrite scan_digits_app.
    + unfold digit_char. replace (48 + msd - 48)%N with msd by lia.
      now rewrite Hval.
    + exact Hds.
    + destruct rest; [exact I|apply Hrest].
Qed.

Lemma scan_int_decimal z rest :
  convertible z = true -> stops_number rest ->
  scan_int (decimal z ++ rest) = Some (z, rest).
Proof.
  intros Hconv Hrest.
  assert (Hnf : no_fraction rest = true)
    by (destruct rest; [reflexivity|apply Hrest]).
  assert (Hlen : forall n,
            (length (digits n ++ rest) - length rest)%nat = length (digits n))
    by (intros n; rewrite length_app; lia).
  unfold convertible in Hconv.
  unfold decimal, scan_int. destruct (Z.ltb_spec z 0) as [Hneg|Hpos].
  - replace (Z.abs z) with (- z) in Hconv by lia.
    cbn [app]. change (45 =? 45)%N with true. cbv iota beta.
    rewrite (scan_natural_digits _ _ Hrest), Hnf, Hlen, Hconv. cbn [andb].
    f_equal. f_equal. lia.
  - replace (Z.abs z) with z in Hconv by lia.
    pose proof (scan_natural_digits (Z.to_N z) rest Hrest) as Hscan.
    pose proof (Hlen (Z.to_N z)) as Hl.
    destruct (digits_shape (Z.to_N z)) as (msd & ds & E & Hmsd & _).
    rewrite E in *. cbn [app] in *.
    unfold digit_char at 1.
    destruct (N.eqb_spec (48 + msd) 45) as [E45|_]; [lia|].
    fold (digit_char msd). rewrite Hscan, Hnf, Hl, Hconv. cbn [andb].
    f_equal. f_equal. lia.
Qed.

(** The text of an integer starts with a sign or a digit. *)
Lemma decimal_head z :
  exists c s, decimal z = c :: s /\ is_whitespace c = false /\ (c =? 34)%N = false.
Proof.
  unfold decimal. destruct (z <? 0).
  - now exists 45%N, (digits (Z.to_N (- z))).
  - destruct (digits_shape (Z.to_N z)) as (msd & ds & -> & Hmsd & _).
    exists (digit_char msd), (map digit_char (rev ds)).
    split; [reflexivity|].
    unfold digit_char, is_whitespace.
    repeat match goal with
           | |- context [(?a =? ?b)%N] => destruct (N.eqb_spec a b); [lia|]
           end.
    now split.
Qed.

(** ** Escapes *)

Lemma hex_value_digit d : (d < 16)%N -> hex_value (hex_digit d) = Some d.
Proof.
  intros H. unfold hex_value, hex_digit.
  destruct (N.ltb_spec d 10).
  - replace ((48 <=? 48 + d) && (48 + d <=? 57))%N with true
      by (symmetry; apply andb_true_iff; split; apply N.leb_le; lia).
    f_equal. lia.
  - replace ((48 <=? 87 + d) && (87 + d <=? 57))%N with false
      by (symmetry; apply andb_false_iff; right; apply N.leb_gt; lia).
    replace ((97 <=? 87 + d) && (87 + d <=? 102))%N with true
      by (symmetry; apply andb_true_iff; split; apply N.leb_le; lia).
    f_equal. lia.
Qed.

Lemma decode_u_escape n :
  (n < 65536)%N ->
  decode_uXXXX (hex_digit ((n / 4096) mod 16)) (hex_digit ((n / 256) mod 16))
    (hex_digit ((n / 16) mod 16)) (hex_digit (n mod 16)) = Some n.
Proof.
  intros H. unfold decode_uXXXX.
  rewrite !hex_value_digit by (apply N.mod_lt; lia).
  f_equal.
  pose proof (N.div_mod n 16). pose proof (N.div_mod (n / 16) 16).
  pose proof (N.div_mod (n / 16 / 16) 16).
  rewrite !N.Div0.div_div in *.
  change (16 * 16)%N with 256%N in *. change (256 * 16)%N with 4096%N in *.
  assert ((n / 4096) mod 16 = n / 4096)%N.
  { apply N.mod_small. apply N.Div0.div_lt_upper_bound. lia. }
  lia.
Qed.

Lemma lor_shiftl_low a b k :
  (b < 2 ^ k)%N -> N.lor (N.shiftl a k) b = (a * 2 ^ k + b)%N.
Proof.
  intros Hb.
  assert (Hland : N.land (N.shiftl a k) b = 0%N).
  { apply N.bits_inj. intros i. rewrite N.land_spec, N.bits_0.
    destruct (N.lt_ge_cases i k) as [Hi|Hi].
    - now rewrite N.shiftl_spec_low.
    - rewrite <- (N.mod_small b (2 ^ k)) by exact Hb.
      rewrite N.mod_pow2_bits_high by exact Hi. apply andb_false_r. }
  rewrite <- N.lxor_lor by exact Hland.
  rewrite <- N.add_nocarry_lxor by exact Hland.
  now rewrite N.shiftl_mul_pow2.
Qed.

(** The two halves of the escape of a character above U+FFFF. *)
Definition high_half (c : codepoint) : N :=
  N.lor 55296 (N.land (N.shiftr (c - 65536) 10) 1023).

Definition low_half (c : codepoint) : N :=
  N.lor 56320 (N.land (c - 65536) 1023).

Lemma high_half_eq c :
  high_half c = (55296 + ((c - 65536) / 1024) mod 1024)%N.
Proof.
  unfold high_half. change 55296%N with (N.shiftl 54 10) at 1.
  change 1023%N with (N.ones 10).
  rewrite N.land_ones, N.shiftr_div_pow2.
  change (2 ^ 10)%N with 1024%N.
  rewrite lor_shiftl_low by (apply N.mod_lt; discriminate).
  reflexivity.
Qed.

Lemma low_half_eq c : low_half c = (56320 + (c - 65536) mod 1024)%N.
Proof.
  unfold low_half. change 56320%N with (N.shiftl 55 10) at 1.
  change 1023%N with (N.ones 10).
  rewrite N.land_ones. change (2 ^ 10)%N with 1024%N.
  rewrite lor_shiftl_low by (apply N.mod_lt; discriminate). reflexivity.
Qed.

Lemma halves_are_surrogates c :
  (65536 <= c)%N -> (c <= 1114111)%N ->
  is_high_surrogate (high_half c) = true /\ is_low_surrogate (low_half c) = true
  /\ (high_half c < 65536)%N /\ (low_half c < 65536)%N.
Proof.
  intros Hlo Hhi. rewrite high_half_eq, low_half_eq.
  assert (Hq : ((c - 65536) / 1024 < 1024)%N)
    by (apply N.Div0.div_lt_upper_bound; lia).
  assert (Hr : ((c - 65536) mod 1024 < 1024)%N) by (apply N.mod_lt; discriminate).
  rewrite (N.mod_small _ 1024 Hq).
  clear Hlo Hhi.
  unfold is_high_surrogate, is_low_surrogate.
  generalize dependent ((c - 65536) / 1024)%N.
  generalize dependent ((c - 65536) mod 1024)%N.
  intros r Hr q Hq.
  split; [|split; [|split]]; try lia; apply andb_true_iff; split; apply N.leb_le; lia.
Qed.

Lemma join_halves c :
  (65536 <= c)%N -> (c <= 1114111)%N ->
  join_surrogates (high_half c) (low_half c) = c.
Proof.
  intros Hlo Hhi. unfold join_surrogates. rewrite high_half_eq, low_half_eq.
  assert (Hq : ((c - 65536) / 1024 < 1024)%N)
    by (apply N.Div0.div_lt_upper_bound; lia).
  rewrite (N.mod_small _ 1024 Hq).
  pose proof (N.div_mod (c - 65536) 1024 ltac:(discriminate)) as Hdm.
  assert (Hr : ((c - 65536) mod 1024 < 1024)%N) by (apply N.mod_lt; discriminate).
  generalize dependent ((c - 65536) / 1024)%N.
  generalize dependent ((c - 65536) mod 1024)%N.
  intros r Hr q Hq Hdm.
  replace (55296 + q - 55296)%N with q by lia.
  replace (56320 + r - 56320)%N with r by lia.
  rewrite lor_shiftl_low by exact Hr.
  change (2 ^ 10)%N with 1024%N. lia.
Qed.

(** ** Reading back an escaped string *)

Lemma scanstring_quote rest : scanstring (34%N :: rest) = Some ([], rest).
Proof. reflexivity. Qed.

Lemma scanstring_short letter ch t :
  unescape letter = Some ch -> (letter =? 117)%N = false ->
  scanstring (92%N :: letter :: t) = cons_char ch (scanstring t).
Proof.
  intros Hun Hu. cbn [scanstring].
  change (92 =? 34)%N with false. change (92 =? 92)%N with true. cbv iota.
  now rewrite Hu, Hun.
Qed.

Lemma scanstring_plain c t :
  (c =? 34)%N = false -> (c =? 92)%N = false -> (c <? 32)%N = false ->
  scanstring (c :: t) = cons_char c (scanstring t).
Proof.
  intros H34 H92 H32. cbn [scanstring]. now rewrite H34, H92, H32.
Qed.

(** After a [\uXXXX] escape: what follows decides whether it is read alone. *)
Definition after_u (uni : N) (s3 : text) : option (text * text) :=
  match s3 with
  | b :: s3' =>
      if is_high_surrogate uni && (b =? 92)%N then
        match s3' with
        | u :: s4 =>
            if (u =? 117)%N then
              match s4 with
              | l3 :: l2 :: l1 :: l0 :: s5 =>
                  match decode_uXXXX l3 l2 l1 l0 with
                  | None => None
                  | Some uni2 =>
                      if is_low_surrogate uni2
                      then cons_char (join_surrogates uni uni2) (scanstring s5)
                      else cons_char uni (scanstring s3)
                  end
              | _ => None
              end
            else cons_char uni (scanstring s3)
        | [] => cons_char uni (scanstring s3)
        end
      else cons_char uni (scanstring s3)
  | [] => cons_char uni (scanstring s3)
  end.

Lemma scanstring_u n s3 :
  (n < 65536)%N ->
  scanstring (u_escape n ++ s3) = after_u n s3.
Proof.
  intros Hn. unfold u_escape. cbn [app scanstring].
  change (92 =? 34)%N with false. change (92 =? 92)%N with true.
  change (117 =? 117)%N with true. cbv iota.
  rewrite (decode_u_escape n Hn).
  destruct s3 as [|b [|u [|l3 [|l2 [|l1 [|l0 s5]]]]]]; reflexivity.
Qed.

Lemma after_u_single uni s3 :
  is_high_surrogate uni = false ->
  after_u uni s3 = cons_char uni (scanstring s3).
Proof.
  intros H. unfold after_u. rewrite H. now destruct s3.
Qed.

Lemma after_u_other uni b s3 :
  (b =? 92)%N = false ->
  after_u uni (b :: s3) = cons_char uni (scanstring (b :: s3)).
Proof.
  intros H. unfold after_u. now rewrite H, andb_false_r.
Qed.

Lemma after_u_short uni letter s3 :
  (letter =? 117)%N = false ->
  after_u uni (92%N :: letter :: s3)
  = cons_char uni (scanstring (92%N :: letter :: s3)).
Proof.
  intros H. unfold after_u. rewrite H.
  now destruct (is_high_surrogate uni && (92 =? 92)%N).
Qed.

Lemma after_u_escape uni n s5 :
  (n < 65536)%N ->
  after_u uni (u_escape n ++ s5)
  = if is_high_surrogate uni && is_low_surrogate n
    then cons_char (join_surrogates uni n) (scanstring s5)
    else cons_char uni (scanstring (u_escape n ++ s5)).
Proof.
  intros Hn. unfold after_u, u_escape. cbn [app].
  change (92 =? 92)%N with true. change (117 =? 117)%N with true.
  rewrite andb_true_r. rewrite (decode_u_escape n Hn).
  destruct (is_high_surrogate uni); [|reflexivity].
  cbn [andb]. reflexivity.
Qed.

(** The forms the escape of one character takes. *)
Inductive escape_shape (c : codepoint) : text -> Prop :=
| shape_short letter :
    unescape letter = Some c -> (letter =? 117)%N = false ->
    is_high_surrogate c = false ->
    escape_shape c [92%N; letter]
| shape_plain :
    (c =? 34)%N = false -> (c =? 92)%N = false -> (c <? 32)%N = false ->
    is_high_surrogate c = false ->
    escape_shape c [c]
| shape_u :
    (c < 65536)%N -> escape_shape c (u_escape c)
| shape_pair :
    (65536 <= c)%N -> (c <= 1114111)%N ->
    escape_shape c (u_escape (high_half c) ++ u_escape (low_half c)).

Lemma escape_char_shape c :
  (c <= 1114111)%N -> escape_shape c (escape_char c).
Proof.
  intros Hc. unfold escape_char.
  destruct (N.eqb_spec c 92) as [->|H92]; [now apply (shape_short _ 92%N)|].
  destruct (N.eqb_spec c 34) as [->|H34]; [now apply (shape_short _ 34%N)|].
  destruct (N.eqb_spec c 8) as [->|H8]; [now apply (shape_short _ 98%N)|].
  destruct (N.eqb_spec c 12) as [->|H12]; [now apply (shape_short _ 102%N)|].
  destruct (N.eqb_spec c 10) as [->|H10]; [now apply (shape_short _ 110%N)|].
  destruct (N.eqb_spec c 13) as [->|H13]; [now apply (shape_short _ 114%N)|].
  destruct (N.eqb_spec c 9) as [->|H9]; [now apply (shape_short _ 116%N)|].
  destruct (N.leb_spec 32 c) as [H32|H32]; cbn [andb].
  - destruct (N.leb_spec c 126) as [H126|H126].
    + apply shape_plain.
      * now apply N.eqb_neq.
      * now apply N.eqb_neq.
      * apply N.ltb_ge. lia.
      * unfold is_high_surrogate. apply andb_false_iff. left.
        apply N.leb_gt. lia.
    + destruct (N.ltb_spec c 65536) as [Hlt|Hge].
      * now apply shape_u.
      * now apply shape_pair.
  - destruct (N.ltb_spec c 65536) as [Hlt|Hge]; [now apply shape_u|lia].
Qed.

Lemma high_surrogate_small c : is_high_surrogate c = true -> (c < 65536)%N.
Proof.
  unfold is_high_surrogate. intros [_ H]%andb_prop. apply N.leb_le in H. lia.
Qed.

Lemma low_surrogate_small c : is_low_surrogate c = true -> (c < 65536)%N.
Proof.
  unfold is_low_surrogate. intros [_ H]%andb_prop. apply N.leb_le in H. lia.
Qed.

Lemma high_not_low c : is_high_surrogate c = true -> is_low_surrogate c = false.
Proof.
  unfold is_high_surrogate, is_low_surrogate. intros [_ H]%andb_prop.
  apply N.leb_le in H. apply andb_false_iff. left. apply N.leb_gt. lia.
Qed.

(** A character that is not a high surrogate is read back from its escape,
    whatever follows. *)
Lemma read_escape c enc t :
  escape_shape c enc -> is_high_surrogate c = false ->
  scanstring (enc ++ t) = cons_char c (scanstring t).
Proof.
  intros [letter Hun Hu _|H34 H92 H32 _|Hlt|Hlo Hhi] Hnh.
  - now apply scanstring_short.
  - now apply scanstring_plain.
  - rewrite scanstring_u by exact Hlt. now apply after_u_single.
  - destruct (halves_are_surrogates c Hlo Hhi) as (Hh & Hl & Hh16 & Hl16).
    rewrite <- app_assoc, scanstring_u by exact Hh16.
    rewrite after_u_escape by exact Hl16.
    now rewrite Hh, Hl, join_halves.
Qed.

(** A high surrogate is read alone when the next character is not a low
    surrogate. *)
Lemma after_u_next c c2 enc2 t :
  escape_shape c2 enc2 -> is_low_surrogate c2 = false ->
  after_u c (enc2 ++ t) = cons_char c (scanstring (enc2 ++ t)).
Proof.
  intros [letter Hun Hu _|H34 H92 H32 _|Hlt|Hlo Hhi] Hnl.
  - now apply after_u_short.
  - now apply after_u_other.
  - rewrite after_u_escape by exact Hlt. now rewrite Hnl, andb_false_r.
  - destruct (halves_are_surrogates c2 Hlo Hhi) as (Hh & _ & Hh16 & _).
    rewrite <- app_assoc, after_u_escape by exact Hh16.
    now rewrite (high_not_low _ Hh), andb_false_r.
Qed.

Lemma escape_low_surrogate c :
  is_low_surrogate c = true -> escape_char c = u_escape c.
Proof.
  intros H. pose proof (low_surrogate_small c H) as Hs.
  unfold is_low_surrogate in H. apply andb_prop in H as [H _].
  apply N.leb_le in H. unfold escape_char.
  repeat match goal with
         | |- context [(c =? ?b)%N] => destruct (N.eqb_spec c b); [lia|]
         end.
  destruct (N.leb_spec c 126); [lia|]. rewrite andb_false_r.
  destruct (N.ltb_spec c 65536); [reflexivity|lia].
Qed.

Lemma merge_single c s :
  is_high_surrogate c = false ->
  merge_surrogates (c :: s) = c :: merge_surrogates s.
Proof. intros H. cbn [merge_surrogates]. rewrite H. now destruct s. Qed.

(** The string literal written by the encoder is read back as the string,
    with every high surrogate that is followed by a low surrogate merged
    with it. *)
Lemma scanstring_escaped_length n : forall s rest,
  (length s <= n)%nat -> valid_str s = true ->
  scanstring (flat_map escape_char s ++ 34%N :: rest)
  = Some (merge_surrogates s, rest).
Proof.
  induction n as [|n IH]; intros s rest Hlen Hvalid.
  - destruct s; [reflexivity|cbn [length] in Hlen; lia].
  - destruct s as [|c s]; [reflexivity|].
    cbn [length] in Hlen. cbn [valid_str forallb] in Hvalid.
    apply andb_prop in Hvalid as [Hc Hs]. apply N.leb_le in Hc.
    fold (valid_str s) in Hs.
    pose proof (escape_char_shape c Hc) as Hshape.
    cbn [flat_map]. rewrite <- app_assoc.
    destruct (is_high_surrogate c) eqn:Hhigh.
    + pose proof (high_surrogate_small c Hhigh) as Hc16.
      assert (Hesc : escape_char c = u_escape c).
      { unfold is_high_surrogate in Hhigh. apply andb_prop in Hhigh as [H1 H2].
        apply N.leb_le in H1. unfold escape_char.
        repeat match goal with
               | |- context [(c =? ?b)%N] => destruct (N.eqb_spec c b); [lia|]
               end.
        destruct (N.leb_spec c 126); [lia|]. rewrite andb_false_r.
        destruct (N.ltb_spec c 65536); [reflexivity|lia]. }
      rewrite Hesc, scanstring_u by exact Hc16.
      destruct s as [|c2 s].
      * cbn [flat_map app merge_surrogates].
        rewrite after_u_other by reflexivity.
        now rewrite scanstring_quote.
      * cbn [valid_str forallb] in Hs.
        apply andb_prop in Hs as [Hc2 Hs']. apply N.leb_le in Hc2.
        fold (valid_str s) in Hs'.
        cbn [flat_map merge_surrogates]. rewrite <- app_assoc, Hhigh.
        destruct (is_low_surrogate c2) eqn:Hlow; cbn [andb].
        -- rewrite (escape_low_surrogate c2 Hlow).
           rewrite after_u_escape by (now apply low_surrogate_small).
           rewrite Hhigh, Hlow. cbn [andb].
           rewrite (IH s rest) by (cbn [length] in Hlen; lia || exact Hs').
           reflexivity.
        -- rewrite (after_u_next c c2 _ _ (escape_char_shape c2 Hc2) Hlow).
           pose proof (IH (c2 :: s) rest) as IH2.
           cbn [flat_map] in IH2. rewrite <- app_assoc in IH2.
           rewrite IH2.
           ++ reflexivity.
           ++ cbn [length] in *. lia.
           ++ cbn [valid_str forallb]. apply andb_true_iff. split; [|exact Hs'].
              now apply N.leb_le.
    + rewrite (read_escape c _ _ Hshape Hhigh).
      rewrite (IH s rest) by (lia || exact Hs).
      now rewrite merge_single.
Qed.

Lemma scanstring_escaped s rest :
  valid_str s = true ->
  scanstring (flat_map escape_char s ++ 34%N :: rest)
  = Some (merge_surrogates s, rest).
Proof. now apply (scanstring_escaped_length (length s)). Qed.

Lemma merge_no_pair s : no_surrogate_pair s = true -> merge_surrogates s = s.
Proof.
  induction s as [|c s IH]; [reflexivity|].
  cbn [no_surrogate_pair merge_surrogates].
  intros [Hc Hs]%andb_prop. specialize (IH Hs).
  destruct s as [|c2 s]; [reflexivity|].
  apply negb_true_iff in Hc. rewrite Hc. now rewrite IH.
Qed.

(** ** Reading back a document *)

Lemma skip_nonspace c s :
  is_whitespace c = false -> skip_whitespace (c :: s) = c :: s.
Proof. intros H. cbn [skip_whitespace]. now rewrite H. Qed.

Lemma skip_space c s :
  is_whitespace c = true -> skip_whitespace (c :: s) = skip_whitespace s.
Proof. intros H. cbn [skip_whitespace]. now rewrite H. Qed.

Lemma encode_value_head v :
  exists c s, encode_value v = c :: s /\ is_whitespace c = false.
Proof.
  destruct v as [str|n].
  - exists 34%N, (flat_map escape_char str ++ [34%N]). now split.
  - destruct (decimal_head n) as (c & s & E & Hws & _). now exists c, s.
Qed.

(** What may follow a value in a document. *)
Definition ends_value (rest : text) : Prop :=
  match rest with
  | [] => True
  | c :: _ => c = 44%N \/ c = 10%N
  end.

Lemma ends_value_stops rest : ends_value rest -> stops_number rest.
Proof.
  destruct rest as [|c rest]; [trivial|].
  intros [->| ->]; now split.
Qed.

Lemma scan_once_value v rest :
  valid_value v = true -> ends_value rest ->
  scan_once (encode_value v ++ rest) = Some (reread_value v, rest).
Proof.
  intros Hv Hrest. destruct v as [str|n]; cbn [encode_value reread_value].
  - unfold encode_basestring_ascii. cbn [app]. rewrite <- app_assoc. cbn [app].
    cbn [scan_once]. change (34 =? 34)%N with true. cbv iota.
    now rewrite scanstring_escaped.
  - destruct (decimal_head n) as (c & s & E & _ & H34).
    pose proof (scan_int_decimal n rest Hv (ends_value_stops _ Hrest)) as Hscan.
    rewrite E in *. cbn [app] in *. cbn [scan_once]. now rewrite H34, Hscan.
Qed.

Lemma encode_items_cons key v items rest :
  encode_items false ((key, v) :: items) ++ rest
  = 44%N :: 10%N :: 32%N :: 32%N :: 34%N
    :: flat_map escape_char key
       ++ 34%N :: key_separator ++ encode_value v ++ encode_items false items ++ rest.
Proof.
  cbn [encode_items]. unfold encode_item, encode_basestring_ascii, item_separator,
    newline_indent. cbn [fst snd].
  repeat (rewrite <- app_assoc; cbn [app]). reflexivity.
Qed.

Lemma encode_items_ends items tail :
  ends_value (encode_items false items ++ 10%N :: 125%N :: tail).
Proof.
  destruct items as [|[key v] items].
  - now right.
  - rewrite encode_items_cons. now left.
Qed.

Lemma scan_items_encoded items : forall fuel key v pairs tail,
  (length items < fuel)%nat ->
  valid_str key = true -> valid_value v = true -> valid_dict items = true ->
  scan_items fuel
    (flat_map escape_char key
     ++ 34%N :: key_separator ++ encode_value v
     ++ encode_items false items ++ 10%N :: 125%N :: tail) pairs
  = Some (pairs ++ (merge_surrogates key, reread_value v) :: reread items, tail).
Proof.
  induction items as [|[key2 v2] items IH];
    intros fuel key v pairs tail Hfuel Hkey Hv Hitems;
    (destruct fuel as [|fuel]; [cbn [length] in Hfuel; lia|]).
  - cbn [scan_items encode_items app]. rewrite (scanstring_escaped _ _ Hkey).
    unfold key_separator. cbn [app].
    rewrite skip_nonspace by reflexivity. change (58 =? 58)%N with true. cbv iota.
    rewrite skip_space by reflexivity.
    destruct (encode_value_head v) as (c & s & E & Hws).
    pose proof (scan_once_value v (10%N :: 125%N :: tail) Hv (or_intror eq_refl))
      as Hscan.
    rewrite E in *. cbn [app] in *.
    rewrite skip_nonspace by exact Hws. rewrite Hscan.
    rewrite skip_space by reflexivity. rewrite skip_nonspace by reflexivity.
    reflexivity.
  - cbn [valid_dict forallb fst snd] in Hitems.
    apply andb_prop in Hitems as [Hitem Hitems].
    apply andb_prop in Hitem as [Hkey2 Hv2].
    cbn [scan_items]. rewrite (scanstring_escaped _ _ Hkey).
    unfold key_separator at 1. cbn [app].
    rewrite skip_nonspace by reflexivity. change (58 =? 58)%N with true. cbv iota.
    rewrite skip_space by reflexivity.
    destruct (encode_value_head v) as (c & s & E & Hws).
    pose proof (scan_once_value v
                  (encode_items false ((key2, v2) :: items) ++ 10%N :: 125%N :: tail)
                  Hv (encode_items_ends _ _)) as Hscan.
    rewrite E in *. cbn [app] in *.
    rewrite skip_nonspace by exact Hws. rewrite Hscan.
    rewrite encode_items_cons.
    rewrite skip_nonspace by reflexivity.
    change (44 =? 125)%N with false. change (44 =? 44)%N with true. cbv iota.
    rewrite !skip_space by reflexivity. rewrite skip_nonspace by reflexivity.
    change (34 =? 34)%N with true. cbv iota.
    rewrite IH; [|cbn [length] in Hfuel; lia|assumption..].
    rewrite <- app_assoc. reflexivity.
Qed.

Lemma encode_items_length items :
  (length items <= length (encode_items false items))%nat.
Proof.
  induction items as [|[key v] items IH]; [cbn; lia|].
  pose proof (encode_items_cons key v items []) as E.
  rewrite app_nil_r in E. rewrite E.
  cbn [length]. rewrite !length_app. cbn [length]. rewrite !length_app. lia.
Qed.

(** Reading back the text of a dictionary gives the dictionary, in order,
    with surrogate pairs merged. *)
Theorem loads_dumps dct :
  valid_dict dct = true -> loads (dumps dct) = Some (reread dct).
Proof.
  intros Hvalid. destruct dct as [|[key v] items]; [reflexivity|].
  cbn [valid_dict forallb fst snd] in Hvalid.
  apply andb_prop in Hvalid as [Hitem Hitems].
  apply andb_prop in Hitem as [Hkey Hv].
  assert (E : dumps ((key, v) :: items)
              = 123%N :: 10%N :: 32%N :: 32%N :: 34%N
                :: flat_map escape_char key
                   ++ 34%N :: key_separator ++ encode_value v
                   ++ encode_items false items ++ 10%N :: 125%N :: []).
  { unfold dumps, newline_indent. cbn [encode_items app].
    unfold encode_item, encode_basestring_ascii. cbn [fst snd].
    repeat (rewrite <- app_assoc; cbn [app]). reflexivity. }
  rewrite E. unfold loads.
  rewrite skip_nonspace by reflexivity. change (123 =? 123)%N with true. cbv iota.
  unfold scan_object.
  rewrite !skip_space by reflexivity. rewrite skip_nonspace by reflexivity.
  change (34 =? 125)%N with false. change (34 =? 34)%N with true. cbv iota.
  rewrite scan_items_encoded; [reflexivity| |assumption..].
  pose proof (encode_items_length items).
  repeat (rewrite length_app || cbn [length]). lia.
Qed.

(** ** Reading a document that breaks off *)



(** ** The pieces written to a file *)

Lemma complete_app a b : complete (a ++ b) = complete a && complete b.
Proof. apply forallb_app. Qed.

Lemma written_app a b :
  written (a ++ b) = if complete a then written a ++ written b else written a.
Proof.
  induction a as [|[chunk|] a IH]; cbn [app written complete forallb andb].
  - reflexivity.
  - fold (complete a). rewrite IH. destruct (complete a); [|reflexivity].
    now rewrite app_assoc.
  - reflexivity.
Qed.

(** The number of digits of a number: it lies between two powers of
    ten. *)
Lemma value_rev_bound ds :
  Forall (fun d => (d < 10)%N) ds -> (value_rev ds < 10 ^ N.of_nat (length ds))%N.
Proof.
  induction 1 as [|d ds Hd Hds IH]; cbn [value_rev length].
  - change (N.of_nat 0) with 0%N. rewrite N.pow_0_r. lia.
  - rewrite Nat2N.inj_succ, N.pow_succ_r'. lia.
Qed.

Lemma digits_bounds n :
  exists k,
    length (digits n) = S k
    /\ (n < 10 ^ N.of_nat (S k))%N
    /\ ((0 < n)%N -> (10 ^ N.of_nat k <= n)%N)
    /\ (n = 0%N -> k = 0%nat).
Proof.
  destruct (digits_shape n) as (msd & ds & -> & Hmsd & Hds & Hval & Hpos & Hzero).
  exists (length ds). cbn [length]. rewrite length_map, length_rev.
  pose proof (value_rev_bound ds Hds) as Hv.
  split; [reflexivity|]. split; [|split].
  - rewrite Nat2N.inj_succ, N.pow_succ_r'. nia.
  - intros Hn. specialize (Hpos Hn). nia.
  - intros Hn. now destruct (Hzero Hn) as [_ ->].
Qed.

(** The interpreter converts the integers below ten to the power of its
    limit. *)
Lemma convertible_spec z :
  convertible z
  = ((int_max_str_digits =? 0)%N
     || (Z.abs z <? 10 ^ Z.of_N int_max_str_digits)).
Proof.
  unfold convertible, within_limit.
  destruct (N.eqb_spec int_max_str_digits 0) as [|Hlimit]; [reflexivity|].
  cbn [orb].
  assert (Hpos : (0 < int_max_str_digits)%N) by lia.
  set (n := Z.to_N (Z.abs z)).
  assert (Hn : Z.abs z = Z.of_N n) by (unfold n; rewrite Z2N.id; lia).
  rewrite Hn.
  change (10 ^ Z.of_N int_max_str_digits)
    with (Z.of_N 10 ^ Z.of_N int_max_str_digits).
  rewrite <- N2Z.inj_pow.
  destruct (digits_bounds n) as (k & -> & Hup & Hlow & Hzero).
  destruct (N.leb_spec (N.of_nat (S k)) int_max_str_digits) as [Hle|Hgt];
    symmetry.
  - apply Z.ltb_lt, N2Z.inj_lt.
    apply N.lt_le_trans with (1 := Hup). apply N.pow_le_mono_r; lia.
  - apply Z.ltb_ge, N2Z.inj_le.
    destruct (N.eq_dec n 0) as [H0|H0]; [specialize (Hzero H0); lia|].
    apply N.le_trans with (2 := Hlow ltac:(lia)).
    apply N.pow_le_mono_r; lia.
Qed.

(** An integer of at most 640 digits is within every limit. *)
Lemma small_convertible z : Z.abs z < 10 ^ 640 -> convertible z = true.
Proof.
  intros Hz. rewrite convertible_spec.
  destruct int_max_str_digits_range as [-> | H640]; [reflexivity|].
  apply orb_true_iff. right. apply Z.ltb_lt.
  apply Z.lt_le_trans with (1 := Hz). apply Z.pow_le_mono_r; lia.
Qed.

(** The integers of a dictionary can all be converted. *)
Definition all_convertible (dct : dict) : bool :=
  forallb (fun item => match snd item with
                       | Int n => convertible n
                       | Str _ => true
                       end) dct.

Lemma value_chunk_convertible v :
  match v with Int n => convertible n | Str _ => true end = true ->
  value_chunk v = Some (encode_value v).
Proof.
  destruct v as [s|n]; [reflexivity|]. cbn [value_chunk encode_value].
  unfold int_repr. now intros ->.
Qed.

Lemma iterencode_items_complete items : forall first,
  complete (iterencode_items first items) = all_convertible items.
Proof.
  induction items as [|[key v] items IH]; intros first; [reflexivity|].
  cbn [iterencode_items all_convertible forallb snd].
  rewrite !complete_app, IH. fold (all_convertible items).
  replace (complete (if first then [] else [Some item_separator])) with true
    by now destruct first.
  cbn [complete forallb andb]. destruct v as [s|n]; cbn [value_chunk]; [reflexivity|].
  unfold int_repr. now destruct (convertible n).
Qed.

Lemma iterencode_items_written items : forall first,
  all_convertible items = true ->
  written (iterencode_items first items) = encode_items first items.
Proof.
  induction items as [|[key v] items IH]; intros first Hall; [reflexivity|].
  cbn [all_convertible forallb snd] in Hall. apply andb_prop in Hall as [Hv Hall].
  cbn [iterencode_items encode_items]. unfold encode_item. cbn [fst snd].
  rewrite (value_chunk_convertible v Hv).
  rewrite written_app.
  replace (complete (if first then [] else [Some item_separator])) with true
    by now destruct first.
  replace (written (if first then [] else [Some item_separator]))
    with (if first then [] else item_separator)
    by (destruct first; [reflexivity|cbn [written]; now rewrite app_nil_r]).
  cbn [app written]. rewrite (IH false Hall).
  now rewrite <- !app_assoc.
Qed.

(** The generator ends when the integers can be converted, and only
    then. *)
Lemma iterencode_complete dct : complete (iterencode dct) = all_convertible dct.
Proof.
  destruct dct as [|item items]; [reflexivity|].
  unfold iterencode. rewrite !complete_app, iterencode_items_complete.
  cbn [complete forallb andb]. now rewrite andb_true_r.
Qed.

(** When it ends, the pieces make up the text of the dictionary. *)
Lemma iterencode_written dct :
  all_convertible dct = true -> written (iterencode dct) = dumps dct.
Proof.
  intros Hall. destruct dct as [|item items]; [reflexivity|].
  unfold iterencode, dumps. cbn [app written].
  rewrite written_app, iterencode_items_complete, Hall.
  rewrite (iterencode_items_written _ true Hall). reflexivity.
Qed.

Lemma valid_all_convertible dct : valid_dict dct = true -> all_convertible dct = true.
Proof.
  unfold valid_dict, all_convertible. rewrite !forallb_forall.
  intros H item Hitem. specialize (H item Hitem).
  apply andb_prop in H as [_ H]. destruct (snd item); [reflexivity|exact H].
Qed.

End Encoding.

End JsonFacts.

(** * More about the JSON text: its characters *)

Module JsonTextFacts.
Import Json JsonFacts.

Section Characters.
Context {R : Runtime}.

(** A printable ASCII character. *)
Definition printable (c : codepoint) : bool := ((32 <=? c) && (c <=? 126))%N.

Lemma printable_intro c : (32 <= c)%N -> (c <= 126)%N -> printable c = true.
Proof.
  intros H1 H2. unfold printable. apply andb_true_iff. split; now apply N.leb_le.
Qed.

Lemma hex_digit_printable d : (d < 16)%N -> printable (hex_digit d) = true.
Proof.
  intros H. unfold hex_digit.
  destruct (N.ltb_spec d 10); apply printable_intro; lia.
Qed.

Lemma u_escape_printable n : forallb printable (u_escape n) = true.
Proof.
  unfold u_escape. cbn [forallb].
  rewrite !hex_digit_printable by (apply N.mod_lt; discriminate).
  reflexivity.
Qed.

Lemma escape_char_printable c : forallb printable (escape_char c) = true.
Proof.
  unfold escape_char.
  repeat match goal with
         | |- context [(c =? ?b)%N] => destruct (N.eqb_spec c b); [reflexivity|]
         end.
  destruct ((32 <=? c) && (c <=? 126))%N eqn:E.
  - cbn [forallb]. unfold printable. now rewrite E.
  - destruct (c <? 65536)%N; [apply u_escape_printable|].
    cbv zeta. rewrite forallb_app, !u_escape_printable. reflexivity.
Qed.

Lemma basestring_printable s :
  forallb printable (encode_basestring_ascii s) = true.
Proof.
  unfold encode_basestring_ascii. rewrite !forallb_app. cbn [forallb].
  replace (forallb printable (flat_map escape_char s)) with true; [reflexivity|].
  symmetry. induction s as [|c s IH]; [reflexivity|].
  cbn [flat_map]. now rewrite forallb_app, escape_char_printable.
Qed.

Lemma decimal_printable z : forallb printable (decimal z) = true.
Proof.
  assert (Hd : forall n, forallb printable (digits n) = true).
  { intros n. destruct (digits_shape n) as (msd & ds & -> & Hmsd & Hds & _).
    cbn [forallb]. apply andb_true_iff. split.
    - unfold digit_char. apply printable_intro; lia.
    - apply forallb_forall. intros c Hc.
      apply in_map_iff in Hc as (d & <- & Hin). apply in_rev in Hin.
      rewrite Forall_forall in Hds. specialize (Hds d Hin).
      unfold digit_char. apply printable_intro; lia. }
  unfold decimal. destruct (z <? 0); [cbn [forallb]|]; now rewrite Hd.
Qed.

Lemma encode_item_printable item : forallb printable (encode_item item) = true.
Proof.
  unfold encode_item. rewrite !forallb_app, basestring_printable.
  destruct (snd item) as [s|n]; cbn [encode_value].
  - now rewrite basestring_printable.
  - now rewrite decimal_printable.
Qed.

(** The number of line breaks of a text. *)
Definition line_breaks (s : text) : nat := count_occ N.eq_dec s 10%N.

Lemma line_breaks_app a b : line_breaks (a ++ b) = (line_breaks a + line_breaks b)%nat.
Proof. apply count_occ_app. Qed.

Lemma printable_no_newline s :
  forallb printable s = true -> line_breaks s = 0%nat.
Proof.
  intros H. apply count_occ_not_In. intros Hin.
  rewrite forallb_forall in H. now specialize (H _ Hin).
Qed.

(** A character of the written text: a line break or printable ASCII. *)
Definition plain_char (c : codepoint) : bool := (c =? 10)%N || printable c.

(** The text of a dictionary: printable ASCII and line breaks only, one
    line break before each item and one before the closing brace. *)
Lemma encode_items_text items : forall first,
  forallb plain_char (encode_items first items) = true
  /\ line_breaks (encode_items first items)
     = (if first then Nat.pred (length items) else length items).
Proof.
  induction items as [|item items IH]; intros first.
  - now destruct first.
  - destruct (IH false) as [Hok Hcount]. cbn [encode_items length].
    assert (Hitem : forallb plain_char (encode_item item) = true).
    { pose proof (encode_item_printable item) as Hp.
      rewrite forallb_forall in Hp |- *. intros c Hc.
      unfold plain_char. rewrite (Hp c Hc). apply orb_true_r. }
    split.
    + rewrite !forallb_app, Hitem, Hok. now destruct first.
    + rewrite !line_breaks_app, Hcount,
        (printable_no_newline _ (encode_item_printable item)).
      now destruct first.
Qed.

Lemma dumps_text dct :
  forallb plain_char (dumps dct) = true
  /\ line_breaks (dumps dct)
     = match dct with [] => 0%nat | _ :: _ => S (length dct) end.
Proof.
  destruct dct as [|item items]; [now split|].
  destruct (encode_items_text (item :: items) true) as [Hok Hcount].
  unfold dumps. split.
  - rewrite !forallb_app, Hok. reflexivity.
  - rewrite !line_breaks_app, Hcount. cbn [length Nat.pred].
    change (line_breaks [123%N]) with 0%nat.
    change (line_breaks newline_indent) with 1%nat.
    change (line_breaks [10%N]) with 1%nat.
    change (line_breaks [125%N]) with 0%nat. lia.
Qed.

(** ** The pieces written to a file *)

Definition plain_chunk (chunk : option text) : Prop :=
  match chunk with
  | Some s => forallb plain_char s = true
  | None => True
  end.

Lemma printable_plain s : forallb printable s = true -> forallb plain_char s = true.
Proof.
  rewrite !forallb_forall. intros H c Hc.
  unfold plain_char. rewrite (H c Hc). apply orb_true_r.
Qed.

Lemma value_chunk_plain v : plain_chunk (value_chunk v).
Proof.
  destruct v as [s|n]; cbn [value_chunk plain_chunk].
  - apply printable_plain, basestring_printable.
  - unfold int_repr. destruct (convertible n); [|exact I].
    apply printable_plain, decimal_printable.
Qed.

Lemma iterencode_items_plain items : forall first,
  Forall plain_chunk (iterencode_items first items).
Proof.
  induction items as [|[key v] items IH]; intros first; [constructor|].
  cbn [iterencode_items]. apply Forall_app. split.
  - destruct first; repeat constructor.
  - repeat constructor.
    + apply printable_plain, basestring_printable.
    + apply value_chunk_plain.
    + apply IH.
Qed.

Lemma iterencode_plain dct : Forall plain_chunk (iterencode dct).
Proof.
  destruct dct as [|item items]; [repeat constructor|].
  unfold iterencode. repeat constructor.
  apply Forall_app. split; [apply iterencode_items_plain|repeat constructor].
Qed.

Lemma written_plain chunks :
  Forall plain_chunk chunks -> forallb plain_char (written chunks) = true.
Proof.
  induction 1 as [|[s|] chunks Hs Hall IH]; cbn [written]; try reflexivity.
  cbn [plain_chunk] in Hs. now rewrite forallb_app, Hs, IH.
Qed.

(** The codec of the locale encodes the written characters. *)
Lemma plain_encodable s :
  forallb plain_char s = true -> forallb encodable s = true.
Proof.
  rewrite !forallb_forall. intros H c Hc. specialize (H c Hc).
  apply ascii_encodable. apply N.ltb_lt.
  unfold plain_char, printable in H.
  apply orb_prop in H as [H|H].
  - apply N.eqb_eq in H. lia.
  - apply andb_prop in H as [_ H]. apply N.leb_le in H. lia.
Qed.

End Characters.

End JsonTextFacts.

(** * More about strings *)

Section TextFacts.
Context {U : UnicodeData}.

Definition is_ascii (s : text) : bool := forallb (fun c => (c <? 128)%N) s.

Lemma lower_ascii s : is_ascii s = true -> Py.lower s = map ascii_tolower s.
Proof. intros H. unfold Py.lower. now apply str_lower_ascii. Qed.

Lemma startswith_spec sub : forall s,
  Py.startswith s sub = true <-> exists post, s = sub ++ post.
Proof.
  induction sub as [|b sub IH]; intros s.
  - split; [intros _; now exists s|intros _; now destruct s].
  - destruct s as [|a s]; cbn [Py.startswith app].
    + split; [discriminate|]. intros (post & H). discriminate.
    + rewrite andb_true_iff, N.eqb_eq, IH. split.
      * intros (-> & post & ->). now exists post.
      * intros (post & [= -> ->]). split; [reflexivity|now exists post].
Qed.

Lemma startswith_app s sub after :
  Py.startswith s sub = true -> Py.startswith (s ++ after) sub = true.
Proof.
  rewrite !startswith_spec. intros (post & ->).
  exists (post ++ after). now rewrite app_assoc.
Qed.

Lemma contains_app_r s : forall sub after,
  Py.contains s sub = true -> Py.contains (s ++ after) sub = true.
Proof.
  induction s as [|a s IH]; intros sub after.
  - cbn [Py.contains app]. rewrite orb_false_r. intros H.
    pose proof (startswith_app [] sub after H) as H'. cbn [app] in H'.
    destruct after; cbn [Py.contains]; rewrite H'; reflexivity.
  - cbn [Py.contains app]. intros [H|H]%orb_prop.
    + pose proof (startswith_app (a :: s) sub after H) as H'. cbn [app] in H'.
      now rewrite H'.
    + rewrite (IH sub after H). apply orb_true_r.
Qed.

Lemma contains_app_l before : forall s sub,
  Py.contains s sub = true -> Py.contains (before ++ s) sub = true.
Proof.
  induction before as [|b before IH]; intros s sub H; [exact H|].
  cbn [app Py.contains]. rewrite (IH s sub H). apply orb_true_r.
Qed.

(** A match stays when text is put before and after. *)
Lemma contains_extend sub s before after :
  Py.contains s sub = true -> Py.contains (before ++ s ++ after) sub = true.
Proof. intros H. now apply contains_app_l, contains_app_r. Qed.

(** ** [split] *)

Lemma split_from_app word : forall a b sep,
  ch_isspace sep = true ->
  Py.split_from word (a ++ sep :: b) = Py.split_from word a ++ Py.split b.
Proof.
  intros a. revert word.
  induction a as [|c a IH]; intros word b sep Hsep.
  - cbn [app Py.split_from]. rewrite Hsep. unfold Py.split.
    now destruct word.
  - cbn [app Py.split_from]. destruct (ch_isspace c).
    + destruct word; cbn [app]; now rewrite IH.
    + now apply IH.
Qed.

Lemma split_app a b sep :
  ch_isspace sep = true -> Py.split (a ++ sep :: b) = Py.split a ++ Py.split b.
Proof. apply split_from_app. Qed.

Definition not_space (c : codepoint) : bool := negb (ch_isspace c).

Lemma split_from_tokens s : forall word,
  Forall (fun c => ch_isspace c = false) word ->
  Forall (fun w => w <> [] /\ Forall (fun c => ch_isspace c = false) w)
         (Py.split_from word s)
  /\ concat (Py.split_from word s) = rev word ++ filter not_space s.
Proof.
  induction s as [|c s IH]; intros word Hword.
  - cbn [Py.split_from filter]. rewrite app_nil_r.
    destruct word as [|x word]; [now split|].
    split.
    + constructor; [|constructor]. split.
      * intros E. apply (f_equal (@length _)) in E.
        rewrite length_rev in E. cbn in E. lia.
      * now apply Forall_rev.
    + cbn [concat]. now rewrite app_nil_r.
  - cbn [Py.split_from filter]. unfold not_space at 1.
    destruct (ch_isspace c) eqn:Hc; cbn [negb].
    + destruct (IH [] (Forall_nil _)) as [Htok Hcat]. cbn [rev app] in Hcat.
      destruct word as [|x word]; [now split|].
      split.
      * constructor; [|exact Htok]. split.
        -- intros E. apply (f_equal (@length _)) in E.
           rewrite length_rev in E. cbn in E. lia.
        -- now apply Forall_rev.
      * cbn [concat]. now rewrite Hcat.
    + destruct (IH (c :: word)) as [Htok Hcat]; [now constructor|].
      split; [exact Htok|]. rewrite Hcat. cbn [rev].
      now rewrite <- app_assoc.
Qed.

(** Lower-casing on the ASCII range leaves ['!'] alone and makes no new one. *)
Lemma count_bang_lower s :
  count_occ N.eq_dec (map ascii_tolower s) 33%N = count_occ N.eq_dec s 33%N.
Proof.
  induction s as [|c s IH]; [reflexivity|].
  cbn [map count_occ]. rewrite IH.
  assert (H : ascii_tolower c = 33%N <-> c = 33%N).
  { unfold ascii_tolower.
    destruct (N.leb_spec 65 c); destruct (N.leb_spec c 90); cbn [andb]; lia. }
  destruct (N.eq_dec (ascii_tolower c) 33), (N.eq_dec c 33); tauto.
Qed.

End TextFacts.

(** * More about the tree: what a call leaves alone *)

Module TreeFacts.
Import OS OSFacts CallFacts SweepFacts SystemManager JsonFacts JsonTextFacts.

(** Every file of [fs] is in [fs'] with the same time and text. *)
Definition keeps_files (fs fs' : node) : Prop :=
  forall q mtime data,
    lookup q fs = Some (File mtime data) -> lookup q fs' = Some (File mtime data).

Lemma keeps_files_refl fs : keeps_files fs fs.
Proof. intros q mtime data H. exact H. Qed.

Lemma keeps_files_trans fs1 fs2 fs3 :
  keeps_files fs1 fs2 -> keeps_files fs2 fs3 -> keeps_files fs1 fs3.
Proof. intros H12 H23 q mtime data H. apply H23, H12, H. Qed.

(** Replacing the node at [head] by one that keeps the files at the relative
    paths [ok] keeps every file whose path, if it runs through [head] at all,
    goes on with such a relative path. *)
Lemma replace_frame head : forall fs d d' (ok : path -> Prop),
  lookup head fs = Some d ->
  (forall rel mtime data,
     ok rel -> lookup rel d = Some (File mtime data) ->
     lookup rel d' = Some (File mtime data)) ->
  forall q mtime data,
    (forall rel, q = head ++ rel -> ok rel) ->
    lookup q fs = Some (File mtime data) ->
    lookup q (replace head d' fs) = Some (File mtime data).
Proof.
  induction head as [|h head IH]; intros fs d d' ok Hhead Hlocal q mtime data Hq Hfile.
  - cbn [lookup] in Hhead. injection Hhead as <-. cbn [replace].
    apply Hlocal; [now apply Hq|exact Hfile].
  - cbn [lookup] in Hhead. destruct fs as [|E]; [discriminate|].
    destruct (find_entry h E) as [c|] eqn:Hc; [|discriminate].
    cbn [replace]. rewrite Hc.
    destruct q as [|name q]; [discriminate|].
    cbn [lookup] in *.
    destruct (text_eq_dec name h) as [->|Hne].
    + rewrite Hc in Hfile. rewrite find_set_same.
      apply (IH c d d' ok Hhead Hlocal); [|exact Hfile].
      intros rel ->. now apply Hq.
    + now rewrite find_set_other.
Qed.

(** Inside one directory: putting a file under [tail] keeps the other
    files, when [tail] is not a directory. *)
Lemma set_entry_keeps es tail x rel mtime data :
  (forall sub, find_entry tail es <> Some (Dir sub)) ->
  rel <> [tail] ->
  lookup rel (Dir es) = Some (File mtime data) ->
  lookup rel (Dir (set_entry tail x es)) = Some (File mtime data).
Proof.
  intros Hnd Hrel. destruct rel as [|name rel]; [discriminate|].
  cbn [lookup]. destruct (text_eq_dec name tail) as [->|Hne].
  - destruct (find_entry tail es) as [[m d|sub]|] eqn:E; try discriminate.
    + destruct rel; [congruence|discriminate].
    + now contradiction (Hnd sub).
  - now rewrite find_set_other.
Qed.

Lemma put_file_keeps head tail x es fs q mtime data :
  lookup head fs = Some (Dir es) ->
  (forall sub, find_entry tail es <> Some (Dir sub)) ->
  q <> join head tail ->
  lookup q fs = Some (File mtime data) ->
  lookup q (replace head (Dir (set_entry tail x es)) fs) = Some (File mtime data).
Proof.
  intros Hhead Hnd Hq.
  apply (replace_frame head fs (Dir es) _ (fun rel => rel <> [tail]) Hhead).
  - intros rel m d Hrel. now apply set_entry_keeps.
  - intros rel -> ->. now apply Hq.
Qed.

(** ** The calls, with the tree they leave *)

(** A call that cannot reach the directory of its path. *)
Lemma resolve_parent_raises head tail fs :
  match lookup head fs with
  | None => resolve_parent (join head tail) fs = (Raise (lookup_error head fs), fs)
  | Some (File _ _) =>
      resolve_parent (join head tail) fs = (Raise NotADirectoryError, fs)
  | Some (Dir es) => resolve_parent (join head tail) fs = (Return (head, es, tail), fs)
  end.
Proof.
  unfold resolve_parent, bind, get. rewrite split_join.
  now destruct (lookup head fs) as [[|es]|].
Qed.

Section TextFiles.
Context {R : Runtime}.

(** The pieces of a document, written one after the other to the file
    that [open] has just made or emptied. *)
Lemma write_chunks_opened head tail now fs es d chunks : forall acc,
  lookup head fs = Some d ->
  Forall plain_chunk chunks ->
  Json.write_chunks chunks (fun chunk => write (join head tail) chunk now)
    (replace head (Dir (set_entry tail (File now acc) es)) fs)
  = (if Json.complete chunks then Return tt else Raise ValueError,
     replace head
       (Dir (set_entry tail (File now (acc ++ Json.written chunks)) es)) fs).
Proof.
  intros acc Hhead Hplain. revert acc.
  induction Hplain as [|[s|] chunks Hs Hall IH]; intros acc;
    cbn [Json.write_chunks Json.written Json.complete forallb andb].
  - now rewrite app_nil_r.
  - cbn [plain_chunk] in Hs. unfold bind.
    rewrite (write_opened head tail s now fs es d acc Hhead).
    rewrite (plain_encodable _ Hs). fold (Json.complete chunks).
    rewrite IH. now rewrite app_assoc.
  - now rewrite app_nil_r.
Qed.

(** [with open(p, "w") as f: json.dump(dct, f, indent=2)], case by case:
    the file holds the pieces written before the generator ended or
    raised. *)
Lemma dump_cases head tail dct now fs :
  (open_w (join head tail) now ;;
   Json.dump dct (fun chunk => write (join head tail) chunk now)) fs
  = match lookup head fs with
    | Some (Dir es) =>
        match find_entry tail es with
        | Some (Dir _) => (Raise IsADirectoryError, fs)
        | _ =>
            (if all_convertible dct then Return tt else Raise ValueError,
             replace head
               (Dir (set_entry tail
                       (File now (Json.written (Json.iterencode dct))) es)) fs)
        end
    | Some (File _ _) => (Raise NotADirectoryError, fs)
    | None => (Raise (lookup_error head fs), fs)
    end.
Proof.
  unfold bind. rewrite open_w_cases.
  destruct (lookup head fs) as [[|es]|] eqn:Hhead; try reflexivity.
  assert (Hrun : Json.dump dct (fun chunk => write (join head tail) chunk now)
                   (replace head (Dir (set_entry tail (File now []) es)) fs)
                 = (if all_convertible dct then Return tt else Raise ValueError,
                    replace head
                      (Dir (set_entry tail
                              (File now (Json.written (Json.iterencode dct))) es))
                      fs)).
  { unfold Json.dump.
    rewrite (write_chunks_opened head tail now fs es _ _ [] Hhead
               (iterencode_plain dct)).
    now rewrite iterencode_complete. }
  destruct (find_entry tail es) as [[|]|]; [exact Hrun|reflexivity|exact Hrun].
Qed.


Lemma dump_keeps head tail dct now fs q mtime old :
  q <> join head tail ->
  lookup q fs = Some (File mtime old) ->
  lookup q (snd ((open_w (join head tail) now ;;
                  Json.dump dct (fun chunk => write (join head tail) chunk now)) fs))
  = Some (File mtime old).
Proof.
  intros Hq Hfile. rewrite dump_cases.
  destruct (lookup head fs) as [[|es]|] eqn:Hhead; try exact Hfile.
  destruct (find_entry tail es) as [[m0 old0|sub]|] eqn:Htail; try exact Hfile;
    cbn [snd];
    (apply put_file_keeps; [exact Hhead|intros sub; congruence|exact Hq|exact Hfile]).
Qed.

End TextFiles.

(** ** [os.makedirs] keeps what is there *)

Lemma mkdir_keeps_files p fs :
  keeps_files fs (snd (mkdir p fs)).
Proof.
  unfold mkdir. destruct p as [|name p]; [apply keeps_files_refl|].
  unfold bind.
  destruct (resolve_parent (name :: p) fs) as [[[[head es] tail]|e] fs1] eqn:R.
  - apply resolve_parent_inv in R as (-> & Hp & Hhead).
    destruct (find_entry tail es) as [y|] eqn:Ht; [apply keeps_files_refl|].
    unfold set_dir, bind, get, OS.put. cbn [snd].
    intros q mtime data Hfile.
    apply (replace_frame head fs (Dir es) _ (fun _ => True) Hhead);
      [|trivial|exact Hfile].
    intros [|n rel] m d _; [discriminate|]. cbn [lookup].
    destruct (find_entry n es) as [x|] eqn:E; [|discriminate].
    now rewrite (find_entry_app_new _ _ _ _ _ E).
  - apply resolve_parent_unchanged in R as ->. apply keeps_files_refl.
Qed.

Lemma mkdir_raise_unchanged p fs e fs' :
  mkdir p fs = (Raise e, fs') -> fs' = fs.
Proof.
  intros H. pose proof (mkdir_cases p fs) as Hc. now rewrite H in Hc.
Qed.

Lemma makedirs_rec_keeps_files fuel : forall name exist_ok fs,
  keeps_files fs (snd (makedirs_rec fuel name exist_ok fs)).
Proof.
  induction fuel as [|fuel IH]; intros name exist_ok fs.
  - apply keeps_files_refl.
  - rewrite makedirs_rec_S.
    assert (H1 : keeps_files fs (snd (make_head fuel name exist_ok fs))).
    { unfold make_head.
      destruct (split name) as [[[|h head] tail]|]; try apply keeps_files_refl.
      unfold bind, exists_, bind, get, ret.
      destruct (lookup (h :: head) fs); [apply keeps_files_refl|].
      unfold try_except. specialize (IH (h :: head) exist_ok fs).
      destruct (makedirs_rec fuel (h :: head) exist_ok fs) as [[u|e] fs1].
      - exact IH.
      - destruct e; exact IH. }
    unfold bind at 1.
    destruct (make_head fuel name exist_ok fs) as [[u|e] fs1]; [|exact H1].
    cbn [snd] in H1. unfold try_except_OSError, try_except.
    pose proof (mkdir_keeps_files name fs1) as Hm.
    destruct (mkdir name fs1) as [[u2|e2] fs2] eqn:Em; cbn [snd] in Hm.
    + cbn [snd]. now apply keeps_files_trans with fs1.
    + apply mkdir_raise_unchanged in Em as ->.
      destruct (is_OSError e2); [|exact H1].
      unfold bind, isdir, bind, get, ret.
      destruct (negb exist_ok || negb _); exact H1.
Qed.

Lemma for_each_makedirs_keeps_files dirs : forall fs,
  keeps_files fs (snd (for_each dirs (fun directory => makedirs directory true) fs)).
Proof.
  induction dirs as [|d dirs IH]; intros fs; cbn [for_each].
  - apply keeps_files_refl.
  - unfold bind. unfold makedirs at 1.
    pose proof (makedirs_rec_keeps_files (S (length d)) d true fs) as Hd.
    destruct (makedirs_rec (S (length d)) d true fs) as [[u|e] fs1];
      cbn [snd] in Hd; [|exact Hd].
    apply keeps_files_trans with fs1; [exact Hd|apply IH].
Qed.

(** ** Unique names *)

Lemma names_unique_intro es :
  NoDup (map fst es) ->
  (forall e, In e es -> names_unique (snd e) = true) ->
  names_unique (Dir es) = true.
Proof.
  cbn [names_unique].
  induction es as [|[n x] es IH]; cbn [map fst]; intros Hnd Hall; [reflexivity|].
  apply NoDup_cons_iff in Hnd as [Hn Hnd].
  apply find_entry_none in Hn. rewrite Hn.
  apply andb_true_iff. split.
  - apply (Hall (n, x)). now left.
  - apply IH; [exact Hnd|]. intros e He. apply Hall. now right.
Qed.

Lemma set_entry_names name x es :
  map fst (set_entry name x es)
  = match find_entry name es with
    | Some _ => map fst es
    | None => map fst es ++ [name]
    end.
Proof.
  induction es as [|[n y] es IH]; cbn [set_entry find_entry map fst app].
  - reflexivity.
  - destruct (text_eq_dec n name) as [->|Hne]; cbn [map fst]; [reflexivity|].
    rewrite IH. now destruct (find_entry name es).
Qed.

Lemma set_entry_In name x es e :
  In e (set_entry name x es) -> e = (name, x) \/ In e es.
Proof.
  induction es as [|[n y] es IH]; cbn [set_entry In].
  - intros [<-|[]]. now left.
  - destruct (text_eq_dec n name) as [->|Hne]; cbn [In].
    + intros [<-|H]; [now left|right; now right].
    + intros [<-|H]; [right; now left|].
      destruct (IH H) as [->|H']; [now left|right; now right].
Qed.

Lemma names_unique_set_entry name x es :
  names_unique (Dir es) = true -> names_unique x = true ->
  names_unique (Dir (set_entry name x es)) = true.
Proof.
  intros Hu Hx. destruct (names_unique_Dir _ Hu) as [Hnd Hall].
  apply names_unique_intro.
  - rewrite set_entry_names. destruct (find_entry name es) eqn:E; [exact Hnd|].
    apply find_entry_none in E.
    apply NoDup_app; [exact Hnd|repeat constructor; intros []|].
    intros n Hn [<-|[]]. contradiction.
  - intros e He. destruct (set_entry_In _ _ _ _ He) as [->|H]; [exact Hx|].
    now apply Hall.
Qed.

(** ** The swept tree *)

Section Swept.
Variables (current_time : float) (days : Z).

Lemma sweep_entries_In es e :
  In e (sweep_entries current_time days es) ->
  exists e0, In e0 es /\ fst e = fst e0
             /\ snd e = sweep current_time days (snd e0).
Proof.
  induction es as [|[n x] es IH]; [intros []|].
  destruct x as [mtime data|sub].
  - rewrite sweep_entries_file.
    destruct (expired current_time days mtime).
    + intros H. destruct (IH H) as (e0 & H0 & Hf & Hs).
      exists e0. split; [now right|now split].
    + intros [<-|H].
      * exists (n, File mtime data). split; [now left|now split].
      * destruct (IH H) as (e0 & H0 & Hf & Hs).
        exists e0. split; [now right|now split].
  - rewrite sweep_entries_dir. intros [<-|H].
    + exists (n, Dir sub). split; [now left|now split].
    + destruct (IH H) as (e0 & H0 & Hf & Hs).
      exists e0. split; [now right|now split].
Qed.

Lemma sweep_entries_NoDup es :
  NoDup (map fst es) -> NoDup (map fst (sweep_entries current_time days es)).
Proof.
  induction es as [|[n x] es IH]; [trivial|].
  cbn [map fst]. intros [Hn Hnd]%NoDup_cons_iff. specialize (IH Hnd).
  assert (Hfresh : ~ In n (map fst (sweep_entries current_time days es))).
  { intros Hin. apply in_map_iff in Hin as (e & He & Hin).
    destruct (sweep_entries_In _ _ Hin) as (e0 & H0 & Hf & _).
    apply Hn. apply in_map_iff. exists e0. split; [congruence|exact H0]. }
  destruct x as [mtime data|sub].
  - rewrite sweep_entries_file.
    destruct (expired current_time days mtime); [exact IH|].
    cbn [map fst]. now constructor.
  - rewrite sweep_entries_dir. cbn [map fst]. now constructor.
Qed.

(** Induction on the height of a tree reaches every node. *)
Lemma sweep_unique_height h : forall n,
  (height n <= h)%nat -> names_unique n = true ->
  names_unique (sweep current_time days n) = true.
Proof.
  induction h as [|h IH]; intros [mtime data|es] Hh Hu; try reflexivity.
  - cbn [height] in Hh. lia.
  - destruct (names_unique_Dir _ Hu) as [Hnd Hall].
    rewrite sweep_Dir. apply names_unique_intro.
    + now apply sweep_entries_NoDup.
    + intros e He. destruct (sweep_entries_In _ _ He) as (e0 & H0 & _ & ->).
      apply IH; [|now apply Hall].
      pose proof (height_In _ _ H0). lia.
Qed.

Lemma sweep_unique n :
  names_unique n = true -> names_unique (sweep current_time days n) = true.
Proof. now apply (sweep_unique_height (height n)). Qed.

Lemma sweep_idem_height h : forall n,
  (height n <= h)%nat ->
  sweep current_time days (sweep current_time days n) = sweep current_time days n.
Proof.
  induction h as [|h IH]; intros [mtime data|es] Hh; try reflexivity.
  - cbn [height] in Hh. lia.
  - rewrite !sweep_Dir. f_equal.
    assert (Hsub : forall e, In e es -> (height (snd e) <= h)%nat).
    { intros e He. pose proof (height_In _ _ He). lia. }
    clear Hh. induction es as [|[n x] es IHes]; [reflexivity|].
    assert (Hrest : sweep_entries current_time days
                      (sweep_entries current_time days es)
                    = sweep_entries current_time days es).
    { apply IHes. intros e He. apply Hsub. now right. }
    destruct x as [mtime data|sub].
    + rewrite sweep_entries_file.
      destruct (expired current_time days mtime) eqn:E; [exact Hrest|].
      rewrite sweep_entries_file, E. now rewrite Hrest.
    + rewrite sweep_entries_dir.
      pose proof (IH (Dir sub) (Hsub (n, Dir sub) (or_introl eq_refl))) as Hx.
      rewrite (sweep_Dir current_time days sub) in *.
      rewrite sweep_entries_dir, Hx, Hrest. reflexivity.
Qed.

Lemma sweep_idem n :
  sweep current_time days (sweep current_time days n) = sweep current_time days n.
Proof. now apply (sweep_idem_height (height n)). Qed.

(** The run of [cleanup_old_files] on a directory. *)
Lemma cleanup_run fs directory es :
  lookup directory fs = Some (Dir es) ->
  names_unique (Dir es) = true ->
  cleanup_old_files directory days current_time fs
  = (Return tt, replace directory (sweep current_time days (Dir es)) fs).
Proof.
  intros Hdir Hu. unfold cleanup_old_files, bind at 1, get.
  apply (walk_sweep current_time days (S (height fs)) directory fs es Hdir Hu).
  apply lookup_height in Hdir. lia.
Qed.

End Swept.

End TreeFacts.

(** * The result store, call by call *)

Module StoreFacts.
Import OS OSFacts CallFacts TreeFacts Json JsonFacts JsonTextFacts.

(** The name of the file [save_result] writes. *)
Definition result_name (timestamp : text) : text :=
  str "result_" ++ timestamp ++ str ".json".


(** What is in the result file when the conversion of the score has
    raised: the document up to the place of the score. *)
Definition result_prefix (timestamp message : text) (result : DetectionResult)
  : text :=
  [123%N] ++ newline_indent
  ++ encode_basestring_ascii (str "timestamp") ++ key_separator
  ++ encode_basestring_ascii timestamp ++ item_separator
  ++ encode_basestring_ascii (str "message") ++ key_separator
  ++ encode_basestring_ascii message ++ item_separator
  ++ encode_basestring_ascii (str "classification") ++ key_separator
  ++ encode_basestring_ascii (classification result) ++ item_separator
  ++ encode_basestring_ascii (str "score") ++ key_separator.

(** The text in the result file after [save_result]. *)
Definition result_text {R : Runtime} (timestamp message : text)
  (result : DetectionResult) : text :=
  if convertible (score result)
  then dumps (FileProcessor.result_data timestamp message result)
  else result_prefix timestamp message result.

Section Store.
Context {R : Runtime}.

Lemma bind_assoc {A B C : Type} (m : M A) (f : A -> M B) (g : B -> M C) fs :
  bind m (fun x => bind (f x) g) fs = bind (bind m f) g fs.
Proof. unfold bind. now destruct (m fs) as [[a|e] fs1]. Qed.

Lemma result_convertible timestamp message result :
  all_convertible (FileProcessor.result_data timestamp message result)
  = convertible (score result).
Proof.
  unfold all_convertible, FileProcessor.result_data. cbn [forallb snd andb].
  now destruct (convertible (score result)).
Qed.

Lemma result_written timestamp message result :
  written (iterencode (FileProcessor.result_data timestamp message result))
  = result_text timestamp message result.
Proof.
  unfold result_text.
  destruct (convertible (score result)) eqn:Hc.
  - apply iterencode_written. now rewrite result_convertible.
  - unfold iterencode, FileProcessor.result_data.
    cbn [iterencode_items value_chunk app]. unfold int_repr. rewrite Hc.
    cbn [written]. unfold result_prefix.
    repeat (rewrite <- app_assoc; cbn [app]). now rewrite !app_nil_r.
Qed.

(** [save_result], case by case. *)
Lemma save_result_cases self message result timestamp now fs :
  FileProcessor.save_result self message result timestamp now fs
  = match lookup (FileProcessor.output_dir self) fs with
    | Some (Dir es) =>
        match find_entry (result_name timestamp) es with
        | Some (Dir _) => (Raise IsADirectoryError, fs)
        | _ =>
            (if convertible (score result)
             then Return (join (FileProcessor.output_dir self) (result_name timestamp))
             else Raise ValueError,
             replace (FileProcessor.output_dir self)
               (Dir (set_entry (result_name timestamp)
                       (File now (result_text timestamp message result)) es)) fs)
        end
    | Some (File _ _) => (Raise NotADirectoryError, fs)
    | None => (Raise (lookup_error (FileProcessor.output_dir self) fs), fs)
    end.
Proof.
  unfold FileProcessor.save_result. cbv zeta. fold (result_name timestamp).
  rewrite bind_assoc. unfold bind at 1. rewrite dump_cases.
  rewrite result_convertible, result_written.
  destruct (lookup (FileProcessor.output_dir self) fs) as [[|es]|];
    try reflexivity.
  destruct (find_entry (result_name timestamp) es) as [[|]|]; try reflexivity;
    now destruct (convertible (score result)).
Qed.

(** A call of [save_result] that returns. *)
Lemma save_result_returns self message result timestamp now fs p fs' :
  FileProcessor.save_result self message result timestamp now fs = (Return p, fs') ->
  exists es,
    lookup (FileProcessor.output_dir self) fs = Some (Dir es)
    /\ (forall sub, find_entry (result_name timestamp) es <> Some (Dir sub))
    /\ convertible (score result) = true
    /\ p = join (FileProcessor.output_dir self) (result_name timestamp)
    /\ fs' = replace (FileProcessor.output_dir self)
               (Dir (set_entry (result_name timestamp)
                       (File now (dumps (FileProcessor.result_data timestamp
                                           message result))) es)) fs.
Proof.
  rewrite save_result_cases. unfold result_text.
  destruct (lookup (FileProcessor.output_dir self) fs) as [[|es]|];
    try discriminate.
  intros H. exists es. split; [reflexivity|].
  destruct (find_entry (result_name timestamp) es) as [[|]|]; try discriminate;
    destruct (convertible (score result)); try discriminate;
    injection H as <- <-; (split; [intros sub; discriminate|now repeat split]).
Qed.

(** A call of [save_result] where the directory is. *)
Lemma save_result_run self message result timestamp now fs es :
  lookup (FileProcessor.output_dir self) fs = Some (Dir es) ->
  (forall sub, find_entry (result_name timestamp) es <> Some (Dir sub)) ->
  FileProcessor.save_result self message result timestamp now fs
  = (if convertible (score result)
     then Return (join (FileProcessor.output_dir self) (result_name timestamp))
     else Raise ValueError,
     replace (FileProcessor.output_dir self)
       (Dir (set_entry (result_name timestamp)
               (File now (result_text timestamp message result)) es)) fs).
Proof.
  intros Hdir Hnd. rewrite save_result_cases, Hdir.
  destruct (find_entry (result_name timestamp) es) as [[|sub]|];
    [reflexivity|now contradiction (Hnd sub)|reflexivity].
Qed.

(** The characters and the line breaks of the text in the result file. *)
Lemma result_text_plain timestamp message result :
  forallb plain_char (result_text timestamp message result) = true.
Proof.
  rewrite <- result_written. apply written_plain, iterencode_plain.
Qed.

Lemma result_text_breaks timestamp message result :
  line_breaks (result_text timestamp message result)
  = if convertible (score result) then 5%nat else 4%nat.
Proof.
  unfold result_text. destruct (convertible (score result)).
  - now rewrite (proj2 (dumps_text _)).
  - unfold result_prefix. rewrite !line_breaks_app.
    rewrite !(printable_no_newline _ (basestring_printable _)).
    reflexivity.
Qed.


(** ** Paths through a regular file *)


(** ** The log *)

Lemma ascii_text_encodable (s : text) :
  forallb (fun c : codepoint => (c <? 128)%N) s = true ->
  forallb encodable s = true.
Proof.
  rewrite !forallb_forall. intros H c Hc. apply ascii_encodable, H, Hc.
Qed.

Lemma ascii_prefix_encodable (s t : text) :
  forallb (fun c : codepoint => (c <? 128)%N) s = true ->
  forallb encodable (s ++ t) = forallb encodable t.
Proof. intros H. now rewrite forallb_app, (ascii_text_encodable s H). Qed.

(** The entry can be written when its three parts can. *)
Lemma log_entry_encodable timestamp operation details :
  forallb encodable (FileProcessor.log_entry timestamp operation details)
  = forallb encodable timestamp && forallb encodable operation
    && forallb encodable details.
Proof.
  unfold FileProcessor.log_entry.
  rewrite ascii_prefix_encodable by reflexivity.
  rewrite (forallb_app _ timestamp).
  rewrite ascii_prefix_encodable by reflexivity.
  rewrite (forallb_app _ operation).
  rewrite ascii_prefix_encodable by reflexivity.
  rewrite ascii_prefix_encodable by reflexivity.
  match goal with
  | |- context [forallb encodable (details ++ ?r)] =>
      rewrite (forallb_app encodable details r), (ascii_text_encodable r)
        by reflexivity
  end.
  now rewrite andb_true_r, andb_assoc.
Qed.


(** [log_operation], case by case. *)
Lemma log_operation_cases self operation details timestamp now fs :
  let entry := FileProcessor.log_entry timestamp operation details in
  FileProcessor.log_operation self operation details timestamp now fs
  = match lookup (FileProcessor.logs_dir self) fs with
    | Some (Dir es) =>
        match find_entry (str "system_log.txt") es with
        | Some (Dir _) => (Raise IsADirectoryError, fs)
        | Some (File _ old) =>
            if forallb encodable entry
            then (Return tt,
                  replace (FileProcessor.logs_dir self)
                    (Dir (set_entry (str "system_log.txt")
                            (File now (old ++ entry)) es)) fs)
            else (Raise UnicodeEncodeError, fs)
        | None =>
            if forallb encodable entry
            then (Return tt,
                  replace (FileProcessor.logs_dir self)
                    (Dir (set_entry (str "system_log.txt") (File now entry) es)) fs)
            else (Raise UnicodeEncodeError,
                  replace (FileProcessor.logs_dir self)
                    (Dir (set_entry (str "system_log.txt") (File now []) es)) fs)
        end
    | Some (File _ _) => (Raise NotADirectoryError, fs)
    | None => (Raise (lookup_error (FileProcessor.logs_dir self) fs), fs)
    end.
Proof.
  cbv zeta. unfold FileProcessor.log_operation, FileProcessor.log_file.
  apply append_text_cases.
Qed.

(** The text of the log after writing under [name] in the log
    directory. *)
Lemma log_content_set self fs es now data :
  lookup (FileProcessor.logs_dir self) fs = Some (Dir es) ->
  FileProcessor.log_content self
    (replace (FileProcessor.logs_dir self)
       (Dir (set_entry (str "system_log.txt") (File now data) es)) fs)
  = data.
Proof.
  intros Hdir. unfold FileProcessor.log_content, FileProcessor.log_file.
  now rewrite (lookup_set_dir _ _ _ _ _ Hdir), find_set_same.
Qed.

Lemma log_content_entry self fs es :
  lookup (FileProcessor.logs_dir self) fs = Some (Dir es) ->
  FileProcessor.log_content self fs
  = match find_entry (str "system_log.txt") es with
    | Some (File _ data) => data
    | _ => []
    end.
Proof.
  intros Hdir. unfold FileProcessor.log_content, FileProcessor.log_file.
  now rewrite (lookup_join _ _ _ _ Hdir).
Qed.

End Store.

End StoreFacts.

(** * Claims about the classifier *)

Section ClassifierClaims.
Context {U : UnicodeData}.

(** C1. For every text and every integer threshold, [classify] labels the
    text SPAM exactly when the computed score reaches the threshold and
    NOT SPAM otherwise: a score equal to the threshold gives SPAM, a score
    one below it gives NOT SPAM, and a detector built without an argument
    has threshold 2. *)
Theorem classify_threshold (self : SpamDetector.t) (txt : text) :
  let r := SpamDetector.classify self txt in
  let th := SpamDetector.spam_threshold self in
  score r = SpamDetector.calculate_spam_score self txt
  /\ (classification r = SPAM <-> score r >= th)
  /\ (classification r = NOT_SPAM <-> score r < th)
  /\ (score r = th -> classification r = SPAM)
  /\ (score r = th - 1 -> classification r = NOT_SPAM)
  /\ SpamDetector.spam_threshold (SpamDetector.init None) = 2.
Proof.
  cbv zeta. unfold SpamDetector.classify. cbn [score classification].
  pose proof labels_differ as Hd.
  destruct (Z.leb_spec (SpamDetector.spam_threshold self)
              (SpamDetector.calculate_spam_score self txt)) as [Hle|Hlt].
  - repeat split; intros; try reflexivity; try lia; congruence.
  - repeat split; intros; try reflexivity; try lia; congruence.
Qed.

(** C2. [calculate_spam_score] returns one point per indicator phrase that
    occurs in the lower-cased text, plus one point when the text holds more
    than two exclamation marks, plus one point when more than two of its
    whitespace-separated tokens longer than two characters are upper-case;
    so the score lies between 0 and the number of indicators plus 2. *)
Theorem calculate_spam_score_rule (self : SpamDetector.t) (txt : text) :
  SpamDetector.calculate_spam_score self txt
  = Py.len (filter (fun ind => Py.contains (Py.lower txt) ind) SPAM_INDICATORS)
    + (if 2 <? Z.of_nat (count_occ N.eq_dec txt 33%N) then 1 else 0)
    + (if 2 <? Py.len (filter (fun tok => (2 <? Py.len tok) && Py.isupper tok)
                              (Py.split txt))
       then 1 else 0)
  /\ NoDup SPAM_INDICATORS
  /\ 0 <= SpamDetector.calculate_spam_score self txt <= Py.len SPAM_INDICATORS + 2.
Proof.
  split; [|split].
  - rewrite score_is_rule. reflexivity.
  - exact indicators_distinct.
  - rewrite score_is_rule. apply score_rule_range.
Qed.

(** C5. The empty string scores 0 and is NOT SPAM under the default
    threshold; more generally every text with no indicator phrase in its
    lower-cased form, at most two exclamation marks and at most two
    upper-case tokens longer than two characters scores 0 and is NOT SPAM. *)
Theorem quiet_text_not_spam :
  SpamDetector.classify (SpamDetector.init None) []
  = {| classification := NOT_SPAM; score := 0 |}
  /\ forall txt : text,
       (forall ind, In ind SPAM_INDICATORS ->
                    Py.contains (Py.lower txt) ind = false) ->
       Z.of_nat (count_occ N.eq_dec txt 33%N) <= 2 ->
       Py.len (SpamDetector.caps_words txt) <= 2 ->
       SpamDetector.classify (SpamDetector.init None) txt
       = {| classification := NOT_SPAM; score := 0 |}.
Proof.
  assert (Hgen : forall txt : text,
       (forall ind, In ind SPAM_INDICATORS ->
                    Py.contains (Py.lower txt) ind = false) ->
       Z.of_nat (count_occ N.eq_dec txt 33%N) <= 2 ->
       Py.len (SpamDetector.caps_words txt) <= 2 ->
       SpamDetector.classify (SpamDetector.init None) txt
       = {| classification := NOT_SPAM; score := 0 |}).
  { intros txt Hind Hbang Hcaps.
    unfold SpamDetector.classify. rewrite score_is_rule.
    assert (Hz : score_rule txt = 0).
    { unfold score_rule, indicator_points, punctuation_flag, caps_flag,
        exclamation_marks.
      replace (filter (indicator_hit txt) SPAM_INDICATORS) with (@nil text).
      - destruct (Z.ltb_spec 2 (Z.of_nat (count_occ N.eq_dec txt 33%N))); [lia|].
        destruct (Z.ltb_spec 2 (Py.len (SpamDetector.caps_words txt))); [lia|].
        reflexivity.
      - symmetry. apply filter_none. intros ind Hin.
        unfold indicator_hit. now rewrite (Hind ind Hin). }
    rewrite Hz. reflexivity. }
  split; [|exact Hgen].
  apply Hgen.
  - intros ind Hin. rewrite lower_nil.
    apply contains_nil_false. now apply indicator_nonempty.
  - cbn. lia.
  - cbn. lia.
Qed.

(** C10. A token counts as a caps word exactly when it is longer than two
    characters, has at least one upper-case character and has no
    lower-case (or title-case) character. Hence a token without any cased
    character never counts, a token whose characters are upper-case
    letters or caseless (digits, punctuation) counts as soon as one of them
    is upper-case, and counting requires a cased character and the absence
    of lower-case characters, not that every character be upper-case. *)
Theorem caps_word_test (txt word : text) :
  In word (Py.split txt) -> 2 < Py.len word ->
  (In word (SpamDetector.caps_words txt) <->
     (exists c, In c word /\ ch_isupper c = true)
     /\ (forall c, In c word -> ch_islower c = false /\ ch_istitle c = false))
  /\ ((forall c, In c word -> ch_cased c = false) ->
      ~ In word (SpamDetector.caps_words txt))
  /\ ((exists c, In c word /\ ch_isupper c = true) ->
      (forall c, In c word ->
                 (ch_islower c = false /\ ch_istitle c = false)
                 \/ ch_cased c = false) ->
      In word (SpamDetector.caps_words txt))
  /\ (In word (SpamDetector.caps_words txt) ->
      (exists c, In c word /\ ch_cased c = true)
      /\ (forall c, In c word -> ch_islower c = false)).
Proof.
  intros Hsplit Hlen.
  assert (Hiff : In word (SpamDetector.caps_words txt) <->
     (exists c, In c word /\ ch_isupper c = true)
     /\ (forall c, In c word -> ch_islower c = false /\ ch_istitle c = false)).
  { unfold SpamDetector.caps_words. rewrite filter_In.
    apply Z.ltb_lt in Hlen as Hlenb. rewrite Hlenb. cbn [andb].
    assert (Hgen : Py.isupper word
                   = negb (existsb (fun c => ch_islower c || ch_istitle c) word)
                     && existsb ch_isupper word).
    { unfold Py.len in Hlen.
      destruct word as [|a [|b w]]; cbn [length] in Hlen; try lia; reflexivity. }
    rewrite Hgen, andb_true_iff, negb_true_iff, existsb_exists.
    split.
    - intros [_ [Hno Hup]]. split; [exact Hup|].
      intros c Hc. apply orb_false_iff.
      destruct (ch_islower c || ch_istitle c) eqn:E; [|reflexivity].
      assert (Hex : existsb (fun c => ch_islower c || ch_istitle c) word = true)
        by (apply existsb_exists; eauto).
      congruence.
    - intros [Hup Hno]. split; [exact Hsplit|]. split; [|exact Hup].
      destruct (existsb (fun c => ch_islower c || ch_istitle c) word) eqn:E;
        [|reflexivity].
      apply existsb_exists in E as [c [Hc Hcl]].
      destruct (Hno c Hc) as [Hl Ht]. rewrite Hl, Ht in Hcl. discriminate. }
  split; [exact Hiff|]. split; [|split].
  - intros Hunc Hin. apply Hiff in Hin as [[c [Hc Hup]] _].
    specialize (Hunc c Hc). unfold ch_cased in Hunc.
    rewrite Hup in Hunc. discriminate.
  - intros Hup Hall. apply Hiff. split; [exact Hup|].
    intros c Hc. destruct (Hall c Hc) as [H|H]; [exact H|].
    unfold ch_cased in H.
    apply orb_false_iff in H as [H Ht]. apply orb_false_iff in H as [_ Hl].
    now split.
  - intros Hin. apply Hiff in Hin as [[c [Hc Hup]] Hno]. split.
    + exists c. split; [exact Hc|]. unfold ch_cased. now rewrite Hup.
    + intros c' Hc'. apply (Hno c' Hc').
Qed.

(** C4. Scoring is monotone: if a text is changed so that one more
    indicator phrase is matched, or so that the exclamation-mark condition
    starts to hold, or so that the caps-word condition starts to hold,
    while every other condition stays as it was, the score does not
    decrease. *)
Theorem score_monotone (self : SpamDetector.t) (txt txt' : text) :
  (exists ind, In ind SPAM_INDICATORS
               /\ indicator_hit txt ind = false /\ indicator_hit txt' ind = true
               /\ (forall ind', In ind' SPAM_INDICATORS -> ind' <> ind ->
                                indicator_hit txt' ind' = indicator_hit txt ind')
               /\ punctuation_flag txt' = punctuation_flag txt
               /\ caps_flag txt' = caps_flag txt)
  \/ (punctuation_flag txt = false /\ punctuation_flag txt' = true
      /\ (forall ind, In ind SPAM_INDICATORS ->
                      indicator_hit txt' ind = indicator_hit txt ind)
      /\ caps_flag txt' = caps_flag txt)
  \/ (caps_flag txt = false /\ caps_flag txt' = true
      /\ (forall ind, In ind SPAM_INDICATORS ->
                      indicator_hit txt' ind = indicator_hit txt ind)
      /\ punctuation_flag txt' = punctuation_flag txt) ->
  SpamDetector.calculate_spam_score self txt
  <= SpamDetector.calculate_spam_score self txt'.
Proof.
  intros H. rewrite !score_is_rule. apply score_rule_mono.
  - destruct H as [[ind [Hin [Hf [Ht [Hoth _]]]]]|[[_ [_ [Hoth _]]]|[_ [_ [Hoth _]]]]];
      intros i Hi Hhit.
    + destruct (list_eq_dec N.eq_dec i ind) as [->|Hne]; [exact Ht|].
      now rewrite Hoth.
    + now rewrite Hoth.
    + now rewrite Hoth.
  - destruct H as [[ind [_ [_ [_ [_ [Hp _]]]]]]|[[_ [Hp _]]|[_ [_ [_ Hp]]]]];
      intros Hflag; congruence.
  - destruct H as [[ind [_ [_ [_ [_ [_ Hc]]]]]]|[[_ [_ [_ Hc]]]|[_ [Hc _]]]];
      intros Hflag; congruence.
Qed.

End ClassifierClaims.

(** ** The claims at concrete messages (Latin-1 texts) *)

(** Settles a statement about all indicators by running through the list. *)
Ltac each_indicator H :=
  vm_compute in H;
  repeat (destruct H as [<-|H]; [try (vm_compute; reflexivity)|]);
  try contradiction.

Lemma classify_threshold_witness :
  let r := SpamDetector.classify (SpamDetector.init None) (str "urgent prize") in
  score r = 2 /\ classification r = SPAM.
Proof.
  cbv zeta. split; [vm_compute; reflexivity|].
  apply (classify_threshold (SpamDetector.init None) (str "urgent prize")).
  vm_compute. reflexivity.
Defined.

Lemma quiet_text_not_spam_witness :
  SpamDetector.classify (SpamDetector.init None)
    (str "Hey, are we still on for lunch today?")
  = {| classification := NOT_SPAM; score := 0 |}.
Proof.
  apply (proj2 quiet_text_not_spam).
  - intros ind H. each_indicator H.
  - vm_compute. discriminate.
  - vm_compute. discriminate.
Defined.

Lemma caps_word_test_witness :
  let txt := str "WINNER!! 12345 you" in
  In (str "WINNER!!") (SpamDetector.caps_words txt)
  /\ ~ In (str "12345") (SpamDetector.caps_words txt).
Proof.
  cbv zeta. split.
  - assert (Hs : In (str "WINNER!!") (Py.split (str "WINNER!! 12345 you")))
      by (vm_compute; auto).
    assert (Hl : 2 < Py.len (str "WINNER!!")) by (vm_compute; reflexivity).
    destruct (caps_word_test _ _ Hs Hl) as (_ & _ & Hmix & _).
    apply Hmix.
    + exists 87%N. split; [vm_compute; auto|reflexivity].
    + intros c Hc. vm_compute in Hc.
      repeat (destruct Hc as [<-|Hc]; [left; split; reflexivity|]).
      contradiction.
  - assert (Hs : In (str "12345") (Py.split (str "WINNER!! 12345 you")))
      by (vm_compute; auto).
    assert (Hl : 2 < Py.len (str "12345")) by (vm_compute; reflexivity).
    destruct (caps_word_test _ _ Hs Hl) as (_ & Hnone & _ & _).
    apply Hnone.
    intros c Hc. vm_compute in Hc.
    repeat (destruct Hc as [<-|Hc]; [reflexivity|]).
    contradiction.
Defined.

Lemma score_monotone_witness :
  SpamDetector.calculate_spam_score (SpamDetector.init None) (str "hello")
  <= SpamDetector.calculate_spam_score (SpamDetector.init None) (str "hello prize").
Proof.
  apply score_monotone. left. exists (str "prize").
  split; [vm_compute; auto|].
  split; [vm_compute; reflexivity|].
  split; [vm_compute; reflexivity|].
  split; [|split; vm_compute; reflexivity].
  intros ind H Hne. each_indicator H.
Defined.

(** C3 as stated: the message would match "valued customer". It does not:
    the words "valued" and "customer" are separated by "network". *)
Lemma prize_message_claimed_matches_fail :
  ~ (Forall (fun ind => Py.contains (Py.lower prize_message) (Py.lower ind) = true)
            (map str ["winner"; "valued customer"; "selected"; "prize"; "reward"]%string)
     /\ score (SpamDetector.classify (SpamDetector.mk 2) prize_message) >= 5
     /\ classification (SpamDetector.classify (SpamDetector.mk 2) prize_message) = SPAM).
Proof.
  intros [Hall _].
  apply Forall_inv_tail, Forall_inv in Hall.
  vm_compute in Hall. discriminate.
Qed.

(** C3, amended. The message is a Latin-1 text; of the indicator phrases it
    matches exactly "winner", "prize", "reward" and "selected" (and not
    "valued customer"); it holds three exclamation marks, which gives the
    punctuation point, and a single caps word; with threshold 2 it scores 5
    and is labelled SPAM. *)
Theorem prize_message_spam :
  Latin1.in_range prize_message = true
  /\ filter (fun ind => Py.contains (Py.lower prize_message) (Py.lower ind))
            SPAM_INDICATORS
     = map str ["winner"; "prize"; "reward"; "selected"]%string
  /\ Py.contains (Py.lower prize_message) (Py.lower (str "valued customer")) = false
  /\ Py.count prize_message (str "!") = 3
  /\ SpamDetector.caps_words prize_message = [str "WINNER!!"]
  /\ SpamDetector.classify (SpamDetector.mk 2) prize_message
     = {| classification := SPAM; score := 5 |}.
Proof. repeat split; vm_compute; reflexivity. Qed.

(** * Claims about the system operations *)

Module SystemClaims.
Import OS OSFacts CallFacts SweepFacts StoreFacts.

(** C8. [setup_environment] is idempotent: called in a state in which the
    four required directories already exist (as the first call leaves it),
    it raises nothing and leaves the tree exactly as it was, so that no
    directory is added or duplicated. *)
Theorem setup_environment_idempotent (fs : node) :
  ((forall d, In d SystemManager.required_dirs ->
              exists es, lookup d fs = Some (Dir es)) ->
   SystemManager.setup_environment fs = (Return tt, fs))
  /\ (forall fs',
        SystemManager.setup_environment fs = (Return tt, fs') ->
        (forall d, In d SystemManager.required_dirs ->
                   exists es, lookup d fs' = Some (Dir es))
        /\ SystemManager.setup_environment fs' = (Return tt, fs')).
Proof.
  assert (Hsame : forall fs0,
            (forall d, In d SystemManager.required_dirs ->
                       exists es, lookup d fs0 = Some (Dir es)) ->
            SystemManager.setup_environment fs0 = (Return tt, fs0)).
  { intros fs0 H. unfold SystemManager.setup_environment.
    apply for_each_unchanged. intros d Hd.
    destruct (H d Hd) as (es & Hes).
    apply makedirs_existing with (es := es); [|exact Hes].
    cbn in Hd. intuition (subst; discriminate). }
  split; [apply Hsame|].
  intros fs' Hrun.
  pose proof (for_each_makedirs SystemManager.required_dirs fs) as Hfirst.
  unfold SystemManager.setup_environment in Hrun. rewrite Hrun in Hfirst.
  destruct Hfirst as [_ Hdirs]. split; [exact Hdirs|]. now apply Hsame.
Qed.

Lemma setup_environment_idempotent_witness :
  SystemManager.setup_environment (Dir []) = (Return tt, fresh_tree)
  /\ SystemManager.setup_environment fresh_tree = (Return tt, fresh_tree).
Proof.
  assert (Hfirst : SystemManager.setup_environment (Dir []) = (Return tt, fresh_tree))
    by (vm_compute; reflexivity).
  split; [exact Hfirst|].
  exact (proj2 (proj2 (setup_environment_idempotent (Dir [])) fresh_tree Hfirst)).
Defined.

(** C6 as stated: every file last modified more than [days * 86400]
    seconds before the current time would be deleted. The file of
    [stale_tree] was last modified at 99.999999999, which is before
    1700006500 - 19676 * 86400 = 100; its age is computed as
    1700006500.0 - 99.999999999, which rounds to 1700006400.0 and is not
    greater than 19676 * 86400, so the sweep keeps the file. *)
Lemma cleanup_old_files_keeps_older_file :
  (Float64.to_Q stale_mtime
   < Float64.to_Q (Float64.of_Z 1700006500) - inject_Z (19676 * 86400))%Q
  /\ SystemManager.cleanup_old_files [str "data"; str "output"] 19676
       (Float64.of_Z 1700006500) stale_tree
     = (Return tt, stale_tree)
  /\ lookup [str "data"; str "output"; str "old.json"] stale_tree
     = Some (File stale_mtime (str "{}")).
Proof.
  split; [|split].
  - unfold Qlt. vm_compute. reflexivity.
  - vm_compute. reflexivity.
  - reflexivity.
Qed.

(** C6, amended. [cleanup_old_files] visits every file below the
    directory, at every depth, and deletes exactly the files for which the
    difference [current_time - mtime], as computed in floating point, is
    greater than [days * 86400]: such a file is gone afterwards, every other
    file is still there with its time and text, every directory stays,
    nothing appears, and the rest of the tree is as before. Whenever the
    subtraction does not round, these are exactly the files last modified
    more than [days * 86400] seconds before the current time. With
    [days = 7] a file whose computed age is 8 days is deleted and a file
    whose computed age is 6 days is kept. *)
Theorem cleanup_old_files_sweeps (fs : node) (directory : path) (days : Z)
  (current_time : float) (es : list (text * node)) :
  lookup directory fs = Some (Dir es) ->
  names_unique (Dir es) = true ->
  exists fs',
    SystemManager.cleanup_old_files directory days current_time fs = (Return tt, fs')
    /\ fs' = replace directory (SystemManager.sweep current_time days (Dir es)) fs
    /\ (forall rel,
          match lookup (directory ++ rel) fs with
          | Some (File mtime data) =>
              (Float64.gt_int (Float64.sub current_time mtime) (days * 86400) = true ->
               lookup (directory ++ rel) fs' = None)
              /\ (Float64.gt_int (Float64.sub current_time mtime) (days * 86400)
                  = false ->
                  lookup (directory ++ rel) fs' = Some (File mtime data))
              /\ (Float64.is_finite (Float64.sub current_time mtime) = true ->
                  (Float64.to_Q (Float64.sub current_time mtime)
                   == Float64.to_Q current_time - Float64.to_Q mtime)%Q ->
                  ((Float64.to_Q mtime
                    < Float64.to_Q current_time - inject_Z (days * 86400))%Q ->
                   lookup (directory ++ rel) fs' = None)
                  /\ (~ (Float64.to_Q mtime
                         < Float64.to_Q current_time - inject_Z (days * 86400))%Q ->
                      lookup (directory ++ rel) fs' = Some (File mtime data)))
              /\ (days = 7 ->
                  Float64.sub current_time mtime = Float64.of_Z (8 * 86400) ->
                  lookup (directory ++ rel) fs' = None)
              /\ (days = 7 ->
                  Float64.sub current_time mtime = Float64.of_Z (6 * 86400) ->
                  lookup (directory ++ rel) fs' = Some (File mtime data))
          | Some (Dir _) =>
              exists sub', lookup (directory ++ rel) fs' = Some (Dir sub')
          | None => lookup (directory ++ rel) fs' = None
          end).
Proof.
  intros Hdir Hu.
  exists (replace directory (SystemManager.sweep current_time days (Dir es)) fs).
  split; [|split; [reflexivity|]].
  - unfold SystemManager.cleanup_old_files, bind at 1, get.
    apply (walk_sweep current_time days (S (height fs)) directory fs es Hdir Hu).
    apply lookup_height in Hdir. lia.
  - intros rel.
    rewrite !lookup_app, Hdir.
    rewrite (lookup_replace _ _ _ _ Hdir).
    pose proof (lookup_sweep current_time days rel es Hu) as L.
    destruct (lookup rel (Dir es)) as [[mtime data|sub]|].
    + rewrite L. unfold SystemManager.expired.
      split; [|split; [|split; [|split]]].
      * now intros ->.
      * now intros ->.
      * intros Hfin Hexact.
        pose proof (expired_exact current_time days mtime Hfin Hexact) as Hiff.
        unfold SystemManager.expired in Hiff. split; intros H.
        -- apply Hiff in H. now rewrite H.
        -- destruct (Float64.gt_int _ _); [|reflexivity].
           exfalso. apply H, Hiff. reflexivity.
      * intros -> ->. reflexivity.
      * intros -> ->. reflexivity.
    + rewrite L. rewrite sweep_Dir. eauto.
    + exact L.
Qed.

Lemma cleanup_old_files_sweeps_witness :
  exists fs',
    SystemManager.cleanup_old_files [str "data"; str "output"] 7
      (Float64.of_Z 1000000) aged_tree
    = (Return tt, fs')
    /\ lookup [str "data"; str "output"; str "old.json"] fs' = None
    /\ lookup [str "data"; str "output"; str "new.json"] fs'
       = Some (File (Float64.of_Z (1000000 - 6 * 86400)) (str "{}"))
    /\ lookup [str "data"; str "output"; str "archive"; str "older.json"] fs' = None.
Proof.
  destruct (cleanup_old_files_sweeps aged_tree [str "data"; str "output"] 7
              (Float64.of_Z 1000000) _ eq_refl eq_refl)
    as (fs' & Hrun & _ & Hfiles).
  exists fs'. split; [exact Hrun|].
  pose proof (Hfiles [str "old.json"]) as Hold.
  pose proof (Hfiles [str "new.json"]) as Hnew.
  pose proof (Hfiles [str "archive"; str "older.json"]) as Holder.
  change (lookup ([str "data"; str "output"] ++ [str "old.json"]) aged_tree)
    with (Some (File (Float64.of_Z (1000000 - 8 * 86400)) (str "{}"))) in Hold.
  change (lookup ([str "data"; str "output"] ++ [str "new.json"]) aged_tree)
    with (Some (File (Float64.of_Z (1000000 - 6 * 86400)) (str "{}"))) in Hnew.
  change (lookup ([str "data"; str "output"] ++ [str "archive"; str "older.json"])
            aged_tree)
    with (Some (File (Float64.of_Z (1000000 - 30 * 86400)) (str "{}"))) in Holder.
  cbn [app] in Hold, Hnew, Holder.
  destruct Hold as (_ & _ & _ & Hold & _).
  destruct Hnew as (_ & _ & _ & _ & Hnew).
  destruct Holder as (_ & _ & Holder & _).
  split; [|split].
  - apply Hold; reflexivity.
  - apply Hnew; reflexivity.
  - apply Holder; [reflexivity|reflexivity|].
    unfold Qlt. vm_compute. reflexivity.
Defined.


Section LogClaims.
Context {R : Runtime}.


End LogClaims.


End SystemClaims.

(** * Claims about the result store *)

Module StoreClaims.
Import OS OSFacts CallFacts Json JsonFacts StoreFacts.

(** C7 as stated: every message would come back as it was. The file
    written for [paired_message] holds the escapes of its two code points,
    which are read back as the single character U+1F600. *)
Lemma save_result_message_not_reproduced :
  exists p fs' mtime content,
    FileProcessor.save_result (FileProcessor.init None) paired_message
      sample_result (str "20240101_120000") (Float64.of_Z 100) fresh_tree
    = (Return p, fs')
    /\ lookup p fs' = Some (File mtime content)
    /\ loads content
       = Some [(str "timestamp", Str (str "20240101_120000"));
               (str "message", Str [128512%N]);
               (str "classification", Str SPAM);
               (str "score", Int 5)]
    /\ [128512%N] <> paired_message.
Proof.
  eexists _, _, _, _. split; [vm_compute; reflexivity|].
  split; [vm_compute; reflexivity|].
  split; [vm_compute; reflexivity|discriminate].
Qed.

Section RoundTrip.
Context {R : Runtime}.

(** C7, amended. For every message and classification that are Python
    strings in which no high surrogate is directly followed by a low
    surrogate, and every integer score: when [save_result] returns, it
    returns the path [output_dir/result_<timestamp>.json], the file at that
    path holds the JSON text of the dictionary, and reading that text back
    gives an object with exactly the four fields timestamp, message,
    classification and score, in this order, whose message, classification
    and score are the ones passed in. The call returns whenever the output
    directory exists, the path is not a directory, and the score has no
    more digits than the interpreter converts to text, which is to say that
    the limit on the digits is switched off or the score is below ten to the
    power of the limit in absolute value; with a score of more digits the
    call raises [ValueError]. *)
Theorem save_result_round_trip (self : FileProcessor.t) (message : text)
  (result : DetectionResult) (timestamp : text) (now : float) (fs : node) :
  valid_str timestamp = true ->
  valid_str message = true -> no_surrogate_pair message = true ->
  valid_str (classification result) = true ->
  no_surrogate_pair (classification result) = true ->
  let filepath :=
    join (FileProcessor.output_dir self) (str "result_" ++ timestamp ++ str ".json") in
  (forall p fs',
     FileProcessor.save_result self message result timestamp now fs = (Return p, fs') ->
     p = filepath
     /\ exists content,
          lookup p fs' = Some (File now content)
          /\ content = dumps (FileProcessor.result_data timestamp message result)
          /\ loads content
             = Some [(str "timestamp", Str (merge_surrogates timestamp));
                     (str "message", Str message);
                     (str "classification", Str (classification result));
                     (str "score", Int (score result))])
  /\ (forall es,
        lookup (FileProcessor.output_dir self) fs = Some (Dir es) ->
        (forall sub, find_entry (str "result_" ++ timestamp ++ str ".json") es
                     <> Some (Dir sub)) ->
        (convertible (score result) = true ->
         exists fs',
           FileProcessor.save_result self message result timestamp now fs
           = (Return filepath, fs'))
        /\ (convertible (score result) = false ->
            exists fs',
              FileProcessor.save_result self message result timestamp now fs
              = (Raise ValueError, fs')))
  /\ (convertible (score result) = true
      <-> int_max_str_digits = 0%N
          \/ Z.abs (score result) < 10 ^ Z.of_N int_max_str_digits).
Proof.
  intros Hts Hmsg Hmsg' Hcls Hcls'. cbv zeta.
  fold (result_name timestamp). split; [|split].
  - intros p fs'. rewrite save_result_cases.
    destruct (lookup (FileProcessor.output_dir self) fs) as [[|es]|] eqn:Hdir;
      try discriminate.
    assert (Hret :
      (if convertible (score result)
       then Return (join (FileProcessor.output_dir self) (result_name timestamp))
       else Raise ValueError,
       replace (FileProcessor.output_dir self)
         (Dir (set_entry (result_name timestamp)
                 (File now (result_text timestamp message result)) es)) fs)
      = (Return p, fs') ->
      p = join (FileProcessor.output_dir self) (result_name timestamp)
      /\ exists content,
           lookup p fs' = Some (File now content)
           /\ content = dumps (FileProcessor.result_data timestamp message result)
           /\ loads content
              = Some [(str "timestamp", Str (merge_surrogates timestamp));
                      (str "message", Str message);
                      (str "classification", Str (classification result));
                      (str "score", Int (score result))]).
    { unfold result_text.
      destruct (convertible (score result)) eqn:Hconv; [|discriminate].
      intros [= <- <-]. split; [reflexivity|].
      exists (dumps (FileProcessor.result_data timestamp message result)).
      split; [|split; [reflexivity|]].
      - rewrite (lookup_set_dir _ _ _ _ _ Hdir). apply find_set_same.
      - rewrite loads_dumps.
        + unfold reread, FileProcessor.result_data. cbn [map fst snd reread_value].
          rewrite (merge_no_pair _ Hmsg'), (merge_no_pair _ Hcls'). reflexivity.
        + unfold valid_dict, FileProcessor.result_data.
          cbn [forallb fst snd valid_value]. rewrite Hts, Hmsg, Hcls, Hconv.
          reflexivity. }
    destruct (find_entry (result_name timestamp) es) as [[|]|];
      [exact Hret|discriminate|exact Hret].
  - intros es Hdir Hfile. rewrite save_result_cases, Hdir.
    destruct (find_entry (result_name timestamp) es) as [[mtime old|sub]|] eqn:Hent;
      [|now contradiction (Hfile sub)|];
      (split; intros ->; eauto).
  - rewrite convertible_spec, orb_true_iff, N.eqb_eq, Z.ltb_lt. reflexivity.
Qed.

End RoundTrip.

Lemma save_result_round_trip_witness :
  exists fs' content,
    FileProcessor.save_result (FileProcessor.init None) prize_message
      sample_result (str "20240101_120000") (Float64.of_Z 100) fresh_tree
    = (Return [str "data"; str "output"; str "result_20240101_120000.json"], fs')
    /\ lookup [str "data"; str "output"; str "result_20240101_120000.json"] fs'
       = Some (File (Float64.of_Z 100) content)
    /\ loads content
       = Some [(str "timestamp", Str (str "20240101_120000"));
               (str "message", Str prize_message);
               (str "classification", Str SPAM);
               (str "score", Int 5)].
Proof.
  destruct (save_result_round_trip (R := CPython.runtime) (FileProcessor.init None)
              prize_message sample_result (str "20240101_120000")
              (Float64.of_Z 100) fresh_tree
              eq_refl eq_refl eq_refl eq_refl eq_refl) as (Hback & Hruns & _).
  destruct (Hruns [] eq_refl) as [Hreturns _]; [discriminate|].
  destruct (Hreturns eq_refl) as (fs' & Hrun).
  destruct (Hback _ _ Hrun) as (_ & content & Hfile & _ & Hloads).
  exists fs', content. split; [exact Hrun|]. split; [exact Hfile|exact Hloads].
Defined.

End StoreClaims.

(** * Further properties of the classifier *)

Section ClassifierMore.
Context {U : UnicodeData}.

(** X1. The label is monotone in the threshold: a text labelled SPAM at one
    threshold is labelled SPAM at every lower one. A detector with threshold
    0 or less labels every text SPAM, and one with a threshold above 14 (the
    12 indicators and the two heuristics) labels every text NOT SPAM. *)
Theorem classify_threshold_monotone (txt : text) (th : Z) :
  (forall th', th' <= th ->
     classification (SpamDetector.classify (SpamDetector.mk th) txt) = SPAM ->
     classification (SpamDetector.classify (SpamDetector.mk th') txt) = SPAM)
  /\ (th <= 0 ->
      classification (SpamDetector.classify (SpamDetector.mk th) txt) = SPAM)
  /\ (14 < th ->
      classification (SpamDetector.classify (SpamDetector.mk th) txt) = NOT_SPAM).
Proof.
  unfold SpamDetector.classify. cbn [classification SpamDetector.spam_threshold].
  pose proof (score_rule_range txt) as Hr.
  change (Py.len SPAM_INDICATORS + 2) with 14 in Hr.
  rewrite (score_is_rule (SpamDetector.mk th) txt).
  split; [|split].
  - intros th' Hle. rewrite (score_is_rule (SpamDetector.mk th') txt).
    destruct (Z.leb_spec th (score_rule txt)) as [H|H].
    + intros _. destruct (Z.leb_spec th' (score_rule txt)); [reflexivity|lia].
    + intros E. now contradiction labels_differ.
  - intros Hth. destruct (Z.leb_spec th (score_rule txt)); [reflexivity|lia].
  - intros Hth. destruct (Z.leb_spec th (score_rule txt)); [lia|reflexivity].
Qed.

(** X2. Two ASCII texts that differ only in the case of their letters match
    the same indicator phrases and hold the same number of exclamation
    marks, so their scores differ by the caps-word point at most. *)
Theorem letter_case_moves_caps_point_only (self : SpamDetector.t) (txt txt' : text) :
  is_ascii txt = true -> is_ascii txt' = true ->
  map ascii_tolower txt = map ascii_tolower txt' ->
  (forall indicator,
     Py.contains (Py.lower txt) (Py.lower indicator)
     = Py.contains (Py.lower txt') (Py.lower indicator))
  /\ Py.count txt (str "!") = Py.count txt' (str "!")
  /\ SpamDetector.calculate_spam_score self txt
     - (if 2 <? Py.len (SpamDetector.caps_words txt) then 1 else 0)
     = SpamDetector.calculate_spam_score self txt'
       - (if 2 <? Py.len (SpamDetector.caps_words txt') then 1 else 0).
Proof.
  intros Ha Ha' Hcase.
  assert (Hlow : Py.lower txt = Py.lower txt')
    by (rewrite !lower_ascii by assumption; exact Hcase).
  assert (Hbang : exclamation_marks txt = exclamation_marks txt').
  { unfold exclamation_marks.
    rewrite <- (count_bang_lower txt), <- (count_bang_lower txt'). now rewrite Hcase. }
  split; [|split].
  - intros indicator. now rewrite Hlow.
  - change (str "!") with [33%N]. rewrite !count_single. exact Hbang.
  - rewrite !score_is_rule. unfold score_rule, indicator_points, indicator_hit,
      punctuation_flag.
    rewrite Hlow, Hbang. fold (caps_flag txt) (caps_flag txt'). unfold points.
    destruct (caps_flag txt), (caps_flag txt'); lia.
Qed.

(** X3. Joining two ASCII messages with a space never scores less than
    either of them: every indicator match, the exclamation marks and the caps
    words of both are still there. *)
Theorem score_of_joined_messages (self : SpamDetector.t) (a b : text) :
  ch_isspace 32%N = true ->
  is_ascii a = true -> is_ascii b = true ->
  SpamDetector.calculate_spam_score self a
  <= SpamDetector.calculate_spam_score self (a ++ 32%N :: b)
  /\ SpamDetector.calculate_spam_score self b
     <= SpamDetector.calculate_spam_score self (a ++ 32%N :: b).
Proof.
  intros Hsp Ha Hb.
  assert (Hab : is_ascii (a ++ 32%N :: b) = true).
  { unfold is_ascii in *. rewrite forallb_app. cbn [forallb].
    apply andb_true_iff. split; [exact Ha|].
    apply andb_true_iff. split; [reflexivity|exact Hb]. }
  assert (Hlow : Py.lower (a ++ 32%N :: b)
                 = Py.lower a ++ 32%N :: Py.lower b).
  { rewrite !lower_ascii by assumption. now rewrite map_app. }
  assert (Hbang : exclamation_marks (a ++ 32%N :: b)
                  = exclamation_marks a + exclamation_marks b).
  { unfold exclamation_marks. rewrite count_occ_app. cbn [count_occ].
    destruct (N.eq_dec _ _) as [E|_]; [discriminate E|].
    rewrite Nat2Z.inj_add. reflexivity. }
  assert (Hcaps : Py.len (SpamDetector.caps_words (a ++ 32%N :: b))
                  = Py.len (SpamDetector.caps_words a)
                    + Py.len (SpamDetector.caps_words b)).
  { assert (Hsplit : Py.split (a ++ 32%N :: b) = Py.split a ++ Py.split b)
      by exact (split_app a b 32%N Hsp).
    unfold SpamDetector.caps_words, Py.len.
    rewrite Hsplit, filter_app, length_app, Nat2Z.inj_add. reflexivity. }
  assert (Hpos : forall t, 0 <= exclamation_marks t /\ 0 <= Py.len (SpamDetector.caps_words t)).
  { intros t. unfold exclamation_marks, Py.len. lia. }
  rewrite !score_is_rule. split; apply score_rule_mono.
  - intros ind _. unfold indicator_hit. rewrite Hlow. intros H.
    apply (contains_extend ind (Py.lower a) [] (32%N :: Py.lower b) H).
  - unfold punctuation_flag. rewrite Hbang, !Z.ltb_lt.
    pose proof (Hpos b). lia.
  - unfold caps_flag. rewrite Hcaps, !Z.ltb_lt. pose proof (Hpos b). lia.
  - intros ind _. unfold indicator_hit. rewrite Hlow. intros H.
    pose proof (contains_extend ind (Py.lower b) (Py.lower a ++ [32%N]) [] H) as H'.
    rewrite app_nil_r, <- app_assoc in H'. exact H'.
  - unfold punctuation_flag. rewrite Hbang, !Z.ltb_lt.
    pose proof (Hpos a). lia.
  - unfold caps_flag. rewrite Hcaps, !Z.ltb_lt. pose proof (Hpos a). lia.
Qed.

(** X4. An indicator counts exactly when the lower-cased text holds the
    (lower-cased) indicator as a block of consecutive characters: there is
    no matching of parts of the phrase or across other words. *)
Theorem indicator_match_is_substring (txt indicator : text) :
  Py.contains (Py.lower txt) (Py.lower indicator) = true
  <-> exists before after,
        Py.lower txt = before ++ Py.lower indicator ++ after.
Proof.
  generalize (Py.lower indicator) as sub. generalize (Py.lower txt) as s.
  intros s sub. induction s as [|a s IH].
  - cbn [Py.contains]. rewrite orb_false_r, startswith_spec. split.
    + intros (after & H). now exists [], after.
    + intros (before & after & H).
      destruct before; [now exists after|discriminate].
  - cbn [Py.contains]. rewrite orb_true_iff, startswith_spec, IH. split.
    + intros [(after & H)|(before & after & ->)].
      * now exists [], after.
      * now exists (a :: before), after.
    + intros (before & after & H). destruct before as [|a' before].
      * left. now exists after.
      * right. injection H as -> ->. now exists before, after.
Qed.

(** X5. The tokens of [text.split()] are never empty and hold no
    whitespace, and laid end to end they are the text without its
    whitespace: the shouting heuristic looks at every other character
    exactly once. *)
Theorem split_tokens (txt : text) :
  (forall word, In word (Py.split txt) ->
     word <> [] /\ forall c, In c word -> ch_isspace c = false)
  /\ concat (Py.split txt) = filter (fun c => negb (ch_isspace c)) txt.
Proof.
  destruct (split_from_tokens txt [] (Forall_nil _)) as [Htok Hcat].
  split.
  - intros word Hin. rewrite Forall_forall in Htok.
    destruct (Htok word Hin) as [Hne Hall]. split; [exact Hne|].
    now apply Forall_forall.
  - exact Hcat.
Qed.

(** X6. Without any indicator phrase the two heuristics decide alone: the
    score is at most 2, and under the default threshold the text is labelled
    SPAM exactly when it holds more than two exclamation marks and more than
    two caps words. *)
Theorem heuristics_alone (txt : text) :
  (forall ind, In ind SPAM_INDICATORS ->
               Py.contains (Py.lower txt) (Py.lower ind) = false) ->
  let r := SpamDetector.classify (SpamDetector.init None) txt in
  score r <= 2
  /\ (classification r = SPAM
      <-> 2 < Py.count txt (str "!")
          /\ 2 < Py.len (SpamDetector.caps_words txt)).
Proof.
  intros Hnone. cbv zeta. unfold SpamDetector.classify.
  cbn [score classification SpamDetector.init SpamDetector.spam_threshold].
  rewrite score_is_rule.
  assert (Hz : indicator_points txt = 0).
  { unfold indicator_points. rewrite <- hit_filter_lower.
    now rewrite (filter_none _ _ Hnone). }
  unfold score_rule. rewrite Hz.
  change (str "!") with [33%N]. rewrite count_single.
  fold (exclamation_marks txt). unfold punctuation_flag, caps_flag,
    SpamDetector.default_spam_threshold, points.
  pose proof labels_differ as Hd.
  destruct (Z.ltb_spec 2 (exclamation_marks txt));
    destruct (Z.ltb_spec 2 (Py.len (SpamDetector.caps_words txt)));
    cbn; (split; [lia|]); split; intros; try lia; try reflexivity;
    try (now contradiction Hd); try (exfalso; congruence).
Qed.

End ClassifierMore.

Lemma classify_threshold_monotone_witness :
  classification (SpamDetector.classify (SpamDetector.mk 5) prize_message) = SPAM
  /\ classification (SpamDetector.classify (SpamDetector.mk 3) prize_message) = SPAM.
Proof.
  assert (H5 : classification (SpamDetector.classify (SpamDetector.mk 5) prize_message)
               = SPAM) by (vm_compute; reflexivity).
  split; [exact H5|].
  apply (proj1 (classify_threshold_monotone prize_message 5) 3); [lia|exact H5].
Defined.

Lemma letter_case_moves_caps_point_only_witness :
  SpamDetector.calculate_spam_score (SpamDetector.init None) (str "URGENT PRIZE NOW!")
  - 1
  = SpamDetector.calculate_spam_score (SpamDetector.init None) (str "urgent prize now!")
    - 0.
Proof.
  exact (proj2 (proj2 (letter_case_moves_caps_point_only (SpamDetector.init None)
                         (str "URGENT PRIZE NOW!") (str "urgent prize now!")
                         eq_refl eq_refl eq_refl))).
Defined.

Lemma score_of_joined_messages_witness :
  SpamDetector.calculate_spam_score (SpamDetector.init None) (str "call now")
  <= SpamDetector.calculate_spam_score (SpamDetector.init None)
       (str "call now" ++ 32%N :: str "urgent")
  /\ SpamDetector.calculate_spam_score (SpamDetector.init None) (str "urgent")
     <= SpamDetector.calculate_spam_score (SpamDetector.init None)
          (str "call now" ++ 32%N :: str "urgent").
Proof.
  exact (score_of_joined_messages (SpamDetector.init None) (str "call now")
           (str "urgent") eq_refl eq_refl eq_refl).
Defined.

Lemma heuristics_alone_witness :
  classification
    (SpamDetector.classify (SpamDetector.init None)
       (str "I HAVE A DATE ON SUNDAY WITH WILL!!!")) = SPAM.
Proof.
  assert (Hnone : forall ind, In ind SPAM_INDICATORS ->
            Py.contains (Py.lower (str "I HAVE A DATE ON SUNDAY WITH WILL!!!"))
              (Py.lower ind) = false).
  { intros ind H. each_indicator H. }
  apply (proj2 (heuristics_alone _ Hnone)).
  split; vm_compute; reflexivity.
Defined.

Lemma indicator_match_is_substring_witness :
  Py.contains (Py.lower prize_message) (Py.lower (str "prize")) = true.
Proof.
  apply (proj2 (indicator_match_is_substring prize_message (str "prize"))).
  exists (Py.lower
            (str "WINNER!! As a valued network customer you have been selected to receive a "
             ++ [163%N] ++ str "900 ")),
         (str " reward!").
  vm_compute. reflexivity.
Defined.

Lemma split_tokens_witness :
  str "WINNER!!" <> []
  /\ (forall c, In c (str "WINNER!!") -> ch_isspace c = false).
Proof.
  apply (proj1 (split_tokens (U := Latin1.unicode) (str "  WINNER!!  you won "))
           (str "WINNER!!")).
  vm_compute. auto.
Defined.

(** * Further properties of the system operations *)

Module SystemMore.
Import OS OSFacts CallFacts SweepFacts TreeFacts StoreFacts.

(** X7. [exist_ok=True] does not hide a file in the way: when the name
    [data] is taken by a regular file, [setup_environment] raises
    [FileExistsError] at its first directory and leaves the tree as it
    was. *)
Theorem setup_environment_blocked_by_file (fs : node) (mtime : float)
  (data : text) :
  lookup [str "data"] fs = Some (File mtime data) ->
  SystemManager.setup_environment fs = (Raise FileExistsError, fs).
Proof.
  intros H. unfold SystemManager.setup_environment, SystemManager.required_dirs.
  cbn [for_each]. unfold bind at 1.
  assert (Hmk : makedirs [str "data"] true fs = (Raise FileExistsError, fs)).
  { unfold makedirs. rewrite makedirs_rec_S. unfold bind at 1.
    change (make_head (length [str "data"]) [str "data"] true fs)
      with (ret (A := unit) tt fs).
    unfold ret at 1. unfold try_except_OSError, try_except.
    rewrite (mkdir_existing [str "data"] fs _ ltac:(discriminate) H).
    cbn [is_OSError]. unfold bind, isdir, bind, get, ret. now rewrite H. }
  now rewrite Hmk.
Qed.

Lemma setup_environment_blocked_by_file_witness :
  SystemManager.setup_environment blocked_tree = (Raise FileExistsError, blocked_tree).
Proof.
  exact (setup_environment_blocked_by_file blocked_tree (Float64.of_Z 5)
           (str "not a directory") eq_refl).
Defined.

(** X8. [setup_environment] only adds directories: whether it returns or
    raises, every file that was there is still there with its time and
    text, and every directory that was there is still a directory. *)
Theorem setup_environment_keeps (fs : node) :
  let fs' := snd (SystemManager.setup_environment fs) in
  (forall q mtime data,
     lookup q fs = Some (File mtime data) -> lookup q fs' = Some (File mtime data))
  /\ (forall q es,
        lookup q fs = Some (Dir es) -> exists es', lookup q fs' = Some (Dir es')).
Proof.
  cbv zeta. unfold SystemManager.setup_environment. split.
  - apply for_each_makedirs_keeps_files.
  - intros q es Hq.
    pose proof (for_each_makedirs SystemManager.required_dirs fs) as Hg.
    destruct (for_each SystemManager.required_dirs
                (fun directory => makedirs directory true) fs) as [[u|e] fs'];
      cbn [snd].
    + destruct Hg as [Hg _]. destruct (Hg q _ Hq) as ([|es'] & Hq' & Hk);
        [discriminate|eauto].
    + destruct (Hg q _ Hq) as ([|es'] & Hq' & Hk); [discriminate|eauto].
Qed.

Lemma setup_environment_keeps_witness :
  lookup [str "data"; str "logs"; str "system_log.txt"]
    (snd (SystemManager.setup_environment busy_tree))
  = Some (File (Float64.of_Z 999999) (str "started")).
Proof.
  apply (proj1 (setup_environment_keeps busy_tree)). reflexivity.
Defined.

Section Store.
Context {R : Runtime}.

(** X9. [setup_environment] prepares the ground for the result store: in
    the tree a successful call leaves, [log_operation] of the default
    [FileProcessor] returns for every timestamp, operation and details that
    the text encoding of the locale encodes, and [save_result] returns for
    every score that the interpreter converts to text, as long as the path of
    the file to write is not taken by a directory. *)
Theorem setup_environment_enables_store (fs fs' : node) :
  SystemManager.setup_environment fs = (Return tt, fs') ->
  let self := FileProcessor.init None in
  (forall operation details timestamp now,
     forallb encodable timestamp = true ->
     forallb encodable operation = true ->
     forallb encodable details = true ->
     (forall sub, lookup (FileProcessor.log_file self) fs' <> Some (Dir sub)) ->
     exists fs'',
       FileProcessor.log_operation self operation details timestamp now fs'
       = (Return tt, fs''))
  /\ (forall message result timestamp now,
        let filepath :=
          join (FileProcessor.output_dir self)
               (str "result_" ++ timestamp ++ str ".json") in
        Json.convertible (score result) = true ->
        (forall sub, lookup filepath fs' <> Some (Dir sub)) ->
        exists fs'',
          FileProcessor.save_result self message result timestamp now fs'
          = (Return filepath, fs'')).
Proof.
  intros Hrun. cbv zeta.
  pose proof (for_each_makedirs SystemManager.required_dirs fs) as Hdirs.
  unfold SystemManager.setup_environment in Hrun. rewrite Hrun in Hdirs.
  destruct Hdirs as [_ Hdirs]. split.
  - intros operation details timestamp now Hts Hop Hdet Hfile.
    destruct (Hdirs [str "data"; str "logs"]) as (es & Hes);
      [cbn; tauto|].
    pose proof (log_operation_cases (FileProcessor.init None) operation details
                  timestamp now fs') as Hc.
    cbv zeta in Hc. rewrite Hc. clear Hc.
    change (FileProcessor.logs_dir (FileProcessor.init None))
      with [str "data"; str "logs"].
    rewrite Hes, log_entry_encodable, Hts, Hop, Hdet. cbn [andb].
    destruct (find_entry (str "system_log.txt") es) as [[mtime old|sub]|] eqn:Hent;
      [eauto| |eauto].
    exfalso. apply (Hfile sub). unfold FileProcessor.log_file.
    change (FileProcessor.logs_dir (FileProcessor.init None))
      with [str "data"; str "logs"].
    now rewrite (lookup_join _ _ _ _ Hes).
  - intros message result timestamp now Hconv Hfile.
    destruct (Hdirs [str "data"; str "output"]) as (es & Hes);
      [cbn; tauto|].
    rewrite save_result_cases.
    change (FileProcessor.output_dir (FileProcessor.init None))
      with [str "data"; str "output"] in *.
    fold (result_name timestamp) in *.
    rewrite Hes, Hconv.
    destruct (find_entry (result_name timestamp) es) as [[mtime old|sub]|] eqn:Hent;
      [eauto| |eauto].
    exfalso. apply (Hfile sub). now rewrite (lookup_join _ _ _ _ Hes).
Qed.

End Store.

Lemma setup_environment_enables_store_witness :
  exists fs'',
    FileProcessor.log_operation (FileProcessor.init None) (str "Start") (str "a")
      (str "2024-01-01 10:00:00") (Float64.of_Z 100) fresh_tree = (Return tt, fs'').
Proof.
  assert (Hrun : SystemManager.setup_environment (Dir []) = (Return tt, fresh_tree))
    by (vm_compute; reflexivity).
  apply (proj1 (setup_environment_enables_store (R := CPython.runtime)
                  (Dir []) fresh_tree Hrun));
    try reflexivity.
  intros sub. discriminate.
Defined.



(** X11. [cleanup_old_files] is idempotent: a second sweep of the same
    directory with the same current time and the same number of days finds
    nothing left to delete and leaves the tree as the first sweep left it. *)
Theorem cleanup_old_files_idempotent (fs : node) (directory : path) (days : Z)
  (current_time : float) (es : list (text * node)) :
  lookup directory fs = Some (Dir es) ->
  names_unique (Dir es) = true ->
  exists fs1,
    SystemManager.cleanup_old_files directory days current_time fs = (Return tt, fs1)
    /\ SystemManager.cleanup_old_files directory days current_time fs1
       = (Return tt, fs1).
Proof.
  intros Hdir Hu.
  set (fs1 := replace directory (SystemManager.sweep current_time days (Dir es)) fs).
  exists fs1. split; [now apply cleanup_run|].
  assert (Hdir1 : lookup directory fs1
                  = Some (SystemManager.sweep current_time days (Dir es)))
    by (now apply lookup_replace with (y := Dir es)).
  assert (Hu1 : names_unique (SystemManager.sweep current_time days (Dir es)) = true)
    by (now apply sweep_unique).
  pose proof (cleanup_run current_time days fs1 directory
                (SystemManager.sweep_entries current_time days es) Hdir1 Hu1) as Hrun.
  change (Dir (SystemManager.sweep_entries current_time days es))
    with (SystemManager.sweep current_time days (Dir es)) in Hrun.
  rewrite sweep_idem in Hrun. rewrite Hrun.
  now rewrite (replace_same _ _ _ Hdir1).
Qed.

Lemma cleanup_old_files_idempotent_witness :
  exists fs1,
    SystemManager.cleanup_old_files [str "data"; str "output"] 7
      (Float64.of_Z 1000000) busy_tree
    = (Return tt, fs1)
    /\ SystemManager.cleanup_old_files [str "data"; str "output"] 7
         (Float64.of_Z 1000000) fs1
       = (Return tt, fs1).
Proof.
  exact (cleanup_old_files_idempotent busy_tree [str "data"; str "output"] 7
           (Float64.of_Z 1000000) _ eq_refl eq_refl).
Defined.

(** X12. [cleanup_old_files] stays inside its directory: every file whose
    path does not run through the directory is there afterwards with its
    time and text, however old it is. *)
Theorem cleanup_old_files_stays_inside (fs : node) (directory : path) (days : Z)
  (current_time : float) (es : list (text * node)) :
  lookup directory fs = Some (Dir es) ->
  names_unique (Dir es) = true ->
  forall q mtime data,
    (forall rel, q <> directory ++ rel) ->
    lookup q fs = Some (File mtime data) ->
    lookup q (snd (SystemManager.cleanup_old_files directory days current_time fs))
    = Some (File mtime data).
Proof.
  intros Hdir Hu q mtime data Hout Hfile.
  rewrite (cleanup_run current_time days fs directory es Hdir Hu). cbn [snd].
  apply (replace_frame directory fs (Dir es) _ (fun _ => False) Hdir).
  - intros rel m d [].
  - intros rel Hrel. now apply (Hout rel).
  - exact Hfile.
Qed.

Lemma cleanup_old_files_stays_inside_witness :
  lookup [str "data"; str "logs"; str "system_log.txt"]
    (snd (SystemManager.cleanup_old_files [str "data"; str "output"] 0
            (Float64.of_Z 2000000) busy_tree))
  = Some (File (Float64.of_Z 999999) (str "started")).
Proof.
  apply (cleanup_old_files_stays_inside busy_tree [str "data"; str "output"] 0
           (Float64.of_Z 2000000) _ eq_refl eq_refl).
  - intros rel H. discriminate H.
  - reflexivity.
Defined.

End SystemMore.

(** * Further properties of the result store *)

Module StoreMore.
Import OS OSFacts CallFacts SweepFacts TreeFacts Json JsonFacts JsonTextFacts.
Import StoreFacts.

Section Store.
Context {R : Runtime}.

(** X13. A result that was just saved survives the sweep: after
    [save_result] at time [now] of a score that the interpreter converts to
    text, [cleanup_old_files] on the output directory keeps the file with
    its text whenever the difference between the current time of the sweep
    and [now], as the sweep computes it, is not greater than
    [days * 86400]. *)
Theorem saved_result_survives_cleanup (self : FileProcessor.t) (message : text)
  (result : DetectionResult) (timestamp : text) (now : float) (days : Z)
  (current_time : float) (fs : node) (es : list (text * node)) :
  lookup (FileProcessor.output_dir self) fs = Some (Dir es) ->
  names_unique (Dir es) = true ->
  (forall sub, find_entry (result_name timestamp) es <> Some (Dir sub)) ->
  convertible (score result) = true ->
  Float64.gt_int (Float64.sub current_time now) (days * 86400) = false ->
  exists p fs1 fs2,
    FileProcessor.save_result self message result timestamp now fs = (Return p, fs1)
    /\ SystemManager.cleanup_old_files (FileProcessor.output_dir self) days
         current_time fs1 = (Return tt, fs2)
    /\ lookup p fs2
       = Some (File now (dumps (FileProcessor.result_data timestamp message result))).
Proof.
  intros Hdir Hu Hnd Hconv Hyoung.
  set (content := dumps (FileProcessor.result_data timestamp message result)).
  set (odir := FileProcessor.output_dir self) in *.
  set (es1 := set_entry (result_name timestamp) (File now content) es).
  exists (join odir (result_name timestamp)), (replace odir (Dir es1) fs).
  assert (Hdir1 : lookup odir (replace odir (Dir es1) fs) = Some (Dir es1))
    by (now apply lookup_replace with (y := Dir es)).
  assert (Hu1 : names_unique (Dir es1) = true)
    by (now apply names_unique_set_entry).
  eexists. split; [|split].
  - rewrite (save_result_run self message result timestamp now fs es Hdir Hnd).
    unfold result_text. now rewrite Hconv.
  - apply (cleanup_run current_time days _ odir es1 Hdir1 Hu1).
  - unfold join. rewrite lookup_app.
    rewrite (lookup_replace odir _ _ _ Hdir1).
    pose proof (lookup_sweep current_time days [result_name timestamp] es1 Hu1) as L.
    assert (Hfile : lookup [result_name timestamp] (Dir es1)
                    = Some (File now content)).
    { cbn [lookup]. unfold es1. now rewrite find_set_same. }
    rewrite Hfile in L. rewrite L.
    unfold SystemManager.expired. now rewrite Hyoung.
Qed.

(** X14. Two results saved under the same timestamp collide. After a
    first call that returns, a second call with a score that the
    interpreter converts returns the same path, and the file then holds the
    second record only; a second call with a score of too many digits raises
    [ValueError], and the file then holds the beginning of the second record
    and nothing of the first. In both cases the output directory has the
    same names as after the first call. *)
Theorem save_result_same_timestamp_overwrites (self : FileProcessor.t)
  (message1 message2 : text) (result1 result2 : DetectionResult)
  (timestamp : text) (now1 now2 : float) (fs fs1 : node) (p : path) :
  FileProcessor.save_result self message1 result1 timestamp now1 fs = (Return p, fs1) ->
  exists fs2 es1 es2,
    (convertible (score result2) = true ->
     FileProcessor.save_result self message2 result2 timestamp now2 fs1
     = (Return p, fs2)
     /\ lookup p fs2
        = Some (File now2
                  (dumps (FileProcessor.result_data timestamp message2 result2))))
    /\ (convertible (score result2) = false ->
        FileProcessor.save_result self message2 result2 timestamp now2 fs1
        = (Raise ValueError, fs2)
        /\ lookup p fs2
           = Some (File now2 (result_prefix timestamp message2 result2)))
    /\ lookup (FileProcessor.output_dir self) fs1 = Some (Dir es1)
    /\ lookup (FileProcessor.output_dir self) fs2 = Some (Dir es2)
    /\ map fst es2 = map fst es1.
Proof.
  intros Hrun.
  apply save_result_returns in Hrun as (es & Hdir & Hnd & Hconv1 & -> & ->).
  set (odir := FileProcessor.output_dir self) in *.
  set (name := result_name timestamp) in *.
  set (es1 := set_entry name
                (File now1 (dumps (FileProcessor.result_data timestamp message1 result1)))
                es).
  assert (Hdir1 : lookup odir (replace odir (Dir es1) fs) = Some (Dir es1))
    by (now apply lookup_replace with (y := Dir es)).
  assert (Hnd1 : forall sub, find_entry name es1 <> Some (Dir sub))
    by (intros sub; unfold es1; rewrite find_set_same; discriminate).
  set (content2 := result_text timestamp message2 result2).
  exists (replace odir (Dir (set_entry name (File now2 content2) es1))
            (replace odir (Dir es1) fs)), es1,
         (set_entry name (File now2 content2) es1).
  rewrite (save_result_run self message2 result2 timestamp now2 _ es1 Hdir1 Hnd1).
  fold odir name content2.
  assert (Hfile : lookup (join odir name)
                    (replace odir (Dir (set_entry name (File now2 content2) es1))
                       (replace odir (Dir es1) fs))
                  = Some (File now2 content2)).
  { rewrite (lookup_set_dir _ _ _ _ _ Hdir1). apply find_set_same. }
  split; [|split; [|split; [exact Hdir1|split]]].
  - intros Hc. unfold content2, result_text in *. rewrite Hc in *. now split.
  - intros Hc. unfold content2, result_text in *. rewrite Hc in *. now split.
  - now apply lookup_replace with (y := Dir es1).
  - rewrite set_entry_names. unfold es1 at 1. now rewrite find_set_same.
Qed.



(** X17. Whatever the message holds, the text that [save_result] leaves in
    the file is printable ASCII and line breaks only: line breaks, quotes
    and non-ASCII characters of the message are escaped and cannot change
    the layout of the file. The text has exactly five line breaks when the
    call returns, and four when it raises for the digits of the score. *)
Theorem result_text_layout (self : FileProcessor.t) (message : text)
  (result : DetectionResult) (timestamp : text) (now : float) (fs : node)
  (es : list (text * node)) :
  lookup (FileProcessor.output_dir self) fs = Some (Dir es) ->
  (forall sub, find_entry (result_name timestamp) es <> Some (Dir sub)) ->
  exists outcome fs' content,
    FileProcessor.save_result self message result timestamp now fs = (outcome, fs')
    /\ lookup (join (FileProcessor.output_dir self) (result_name timestamp)) fs'
       = Some (File now content)
    /\ (forall c, In c content -> c = 10%N \/ (32 <= c <= 126)%N)
    /\ match outcome with
       | Return _ => count_occ N.eq_dec content 10%N = 5%nat
       | Raise e => e = ValueError /\ count_occ N.eq_dec content 10%N = 4%nat
       end.
Proof.
  intros Hdir Hnd.
  rewrite (save_result_run self message result timestamp now fs es Hdir Hnd).
  eexists _, _, (result_text timestamp message result).
  split; [reflexivity|]. split; [|split].
  - rewrite (lookup_set_dir _ _ _ _ _ Hdir). apply find_set_same.
  - intros c Hc. pose proof (result_text_plain timestamp message result) as Hok.
    rewrite forallb_forall in Hok. specialize (Hok c Hc).
    unfold plain_char, printable in Hok.
    apply orb_prop in Hok as [H|H].
    + left. now apply N.eqb_eq.
    + right. apply andb_prop in H as [H1 H2].
      split; now apply N.leb_le.
  - pose proof (result_text_breaks timestamp message result) as Hb.
    unfold line_breaks in Hb.
    destruct (convertible (score result)); [exact Hb|now split].
Qed.

(** X18. The file of a result can always be read back: for any Python
    strings it parses to an object of exactly the four fields with the score
    as it was; each string comes back as it was, except that a high surrogate
    directly followed by a low surrogate comes back as the one character the
    two encode. *)
Theorem saved_result_always_parses (self : FileProcessor.t) (message : text)
  (result : DetectionResult) (timestamp : text) (now : float) (fs fs' : node)
  (p : path) :
  valid_str timestamp = true -> valid_str message = true ->
  valid_str (classification result) = true ->
  FileProcessor.save_result self message result timestamp now fs = (Return p, fs') ->
  exists content,
    lookup p fs' = Some (File now content)
    /\ loads content
       = Some [(str "timestamp", Str (merge_surrogates timestamp));
               (str "message", Str (merge_surrogates message));
               (str "classification", Str (merge_surrogates (classification result)));
               (str "score", Int (score result))].
Proof.
  intros Hts Hmsg Hcls Hrun.
  apply save_result_returns in Hrun as (es & Hdir & Hnd & Hconv & -> & ->).
  exists (dumps (FileProcessor.result_data timestamp message result)).
  split.
  - rewrite (lookup_set_dir _ _ _ _ _ Hdir). apply find_set_same.
  - rewrite loads_dumps; [reflexivity|].
    unfold valid_dict, FileProcessor.result_data.
    cbn [forallb fst snd valid_value]. now rewrite Hts, Hmsg, Hcls, Hconv.
Qed.

(** A run of calls of [log_operation], each with its operation, details,
    timestamp and time of writing. *)
Definition log_calls (self : FileProcessor.t)
  (calls : list (text * text * text * float)) : M unit :=
  for_each calls
    (fun '(operation, details, timestamp, now) =>
       FileProcessor.log_operation self operation details timestamp now).

Definition call_entry (call : text * text * text * float) : text :=
  let '(operation, details, timestamp, _) := call in
  FileProcessor.log_entry timestamp operation details.

(** X19. [log_operation] can be called again and again: once the log
    directory exists and the log path is not a directory, every call of a
    run whose texts the encoding of the locale encodes returns, and
    afterwards the log holds what it held before followed by the entries of
    the calls in the order of the calls. *)
Theorem log_operation_repeated (self : FileProcessor.t)
  (calls : list (text * text * text * float)) : forall (fs : node) es,
  lookup (FileProcessor.logs_dir self) fs = Some (Dir es) ->
  (forall sub, find_entry (str "system_log.txt") es <> Some (Dir sub)) ->
  (forall call, In call calls -> forallb encodable (call_entry call) = true) ->
  exists fs',
    log_calls self calls fs = (Return tt, fs')
    /\ FileProcessor.log_content self fs'
       = FileProcessor.log_content self fs ++ flat_map call_entry calls.
Proof.
  unfold log_calls.
  induction calls as [|[[[operation details] timestamp] now] calls IH];
    intros fs es Hdir Hnd Henc.
  - exists fs. split; [reflexivity|]. cbn [flat_map]. now rewrite app_nil_r.
  - cbn [for_each flat_map call_entry]. unfold bind.
    pose proof (log_operation_cases self operation details timestamp now fs) as Hc.
    cbv zeta in Hc. rewrite Hc, Hdir. clear Hc.
    pose proof (Henc _ (or_introl eq_refl)) as Hentry. cbn [call_entry] in Hentry.
    rewrite Hentry.
    set (entry := FileProcessor.log_entry timestamp operation details).
    assert (Hstep : forall old,
              FileProcessor.log_content self fs = old ->
              exists fs',
                for_each calls
                  (fun '(operation, details, timestamp, now) =>
                     FileProcessor.log_operation self operation details timestamp now)
                  (replace (FileProcessor.logs_dir self)
                     (Dir (set_entry (str "system_log.txt")
                             (File now (old ++ entry)) es)) fs)
                = (Return tt, fs')
                /\ FileProcessor.log_content self fs'
                   = FileProcessor.log_content self fs
                     ++ entry ++ flat_map call_entry calls).
    { intros old Hold.
      set (es1 := set_entry (str "system_log.txt") (File now (old ++ entry)) es).
      assert (Hdir1 : lookup (FileProcessor.logs_dir self)
                        (replace (FileProcessor.logs_dir self) (Dir es1) fs)
                      = Some (Dir es1))
        by (now apply lookup_replace with (y := Dir es)).
      assert (Hnd1 : forall sub,
                find_entry (str "system_log.txt") es1 <> Some (Dir sub))
        by (intros sub; unfold es1; rewrite find_set_same; discriminate).
      destruct (IH _ es1 Hdir1 Hnd1) as (fs' & Hrun & Hlog).
      { intros call Hcall. apply Henc. now right. }
      exists fs'. split; [exact Hrun|]. rewrite Hlog.
      unfold es1. rewrite (log_content_set self fs es now _ Hdir), Hold.
      now rewrite <- app_assoc. }
    pose proof (log_content_entry self fs es Hdir) as Hold.
    destruct (find_entry (str "system_log.txt") es) as [[mtime old|sub]|] eqn:Hent.
    + apply Hstep. exact Hold.
    + now contradiction (Hnd sub).
    + apply (Hstep [] Hold).
Qed.



End Store.

Lemma saved_result_survives_cleanup_witness :
  exists p fs1 fs2,
    FileProcessor.save_result (FileProcessor.init None) (str "hello") sample_result
      (str "20240101_120000") (Float64.of_Z 1000000) busy_tree = (Return p, fs1)
    /\ SystemManager.cleanup_old_files [str "data"; str "output"] 7
         (Float64.of_Z 1000000) fs1
       = (Return tt, fs2)
    /\ lookup p fs2
       = Some (File (Float64.of_Z 1000000)
                 (dumps (FileProcessor.result_data (str "20240101_120000")
                           (str "hello") sample_result))).
Proof.
  apply (saved_result_survives_cleanup (R := CPython.runtime)
           (FileProcessor.init None) (str "hello")
           sample_result (str "20240101_120000") (Float64.of_Z 1000000) 7
           (Float64.of_Z 1000000) busy_tree _ eq_refl eq_refl).
  - intros sub. discriminate.
  - reflexivity.
  - reflexivity.
Defined.

Lemma save_result_same_timestamp_overwrites_witness :
  exists fs1 fs2,
    FileProcessor.save_result (FileProcessor.init None) (str "first") sample_result
      (str "20240101_120000") (Float64.of_Z 100) fresh_tree
    = (Return [str "data"; str "output"; str "result_20240101_120000.json"], fs1)
    /\ FileProcessor.save_result (FileProcessor.init None) (str "second") sample_result
         (str "20240101_120000") (Float64.of_Z 100) fs1
       = (Return [str "data"; str "output"; str "result_20240101_120000.json"], fs2)
    /\ lookup [str "data"; str "output"; str "result_20240101_120000.json"] fs2
       = Some (File (Float64.of_Z 100)
                 (dumps (FileProcessor.result_data (str "20240101_120000")
                           (str "second") sample_result))).
Proof.
  eexists.
  assert (H1 : FileProcessor.save_result (FileProcessor.init None) (str "first")
                 sample_result (str "20240101_120000") (Float64.of_Z 100) fresh_tree
               = (Return [str "data"; str "output"; str "result_20240101_120000.json"],
                  snd (FileProcessor.save_result (FileProcessor.init None) (str "first")
                         sample_result (str "20240101_120000") (Float64.of_Z 100)
                         fresh_tree)))
    by (vm_compute; reflexivity).
  destruct (save_result_same_timestamp_overwrites (R := CPython.runtime)
              (FileProcessor.init None)
              (str "first") (str "second") sample_result sample_result
              (str "20240101_120000") (Float64.of_Z 100) (Float64.of_Z 100) _ _ _ H1)
    as (fs2 & es1 & es2 & Hsecond & _).
  destruct (Hsecond eq_refl) as [H2 Hfile].
  exists fs2. split; [exact H1|]. split; [exact H2|exact Hfile].
Defined.



Lemma result_text_layout_witness :
  exists outcome fs' content,
    FileProcessor.save_result (FileProcessor.init None)
      (str "two" ++ [10%N] ++ str "lines") sample_result (str "20240101_120000")
      (Float64.of_Z 100) fresh_tree = (outcome, fs')
    /\ lookup [str "data"; str "output"; str "result_20240101_120000.json"] fs'
       = Some (File (Float64.of_Z 100) content)
    /\ (forall c, In c content -> c = 10%N \/ (32 <= c <= 126)%N)
    /\ match outcome with
       | Return _ => count_occ N.eq_dec content 10%N = 5%nat
       | Raise e => e = ValueError /\ count_occ N.eq_dec content 10%N = 4%nat
       end.
Proof.
  apply (result_text_layout (R := CPython.runtime) (FileProcessor.init None)
           (str "two" ++ [10%N] ++ str "lines") sample_result
           (str "20240101_120000") (Float64.of_Z 100) fresh_tree [] eq_refl).
  intros sub. discriminate.
Defined.

Lemma saved_result_always_parses_witness :
  exists content,
    lookup [str "data"; str "output"; str "result_20240101_120000.json"]
      (snd (FileProcessor.save_result (FileProcessor.init None) paired_message
              sample_result (str "20240101_120000") (Float64.of_Z 100) fresh_tree))
    = Some (File (Float64.of_Z 100) content)
    /\ loads content
       = Some [(str "timestamp", Str (str "20240101_120000"));
               (str "message", Str [128512%N]);
               (str "classification", Str SPAM);
               (str "score", Int 5)].
Proof.
  apply (saved_result_always_parses (R := CPython.runtime) (FileProcessor.init None)
           paired_message sample_result (str "20240101_120000") (Float64.of_Z 100)
           fresh_tree _ _ eq_refl eq_refl eq_refl).
  vm_compute. reflexivity.
Defined.

Lemma log_operation_repeated_witness :
  exists fs',
    log_calls (FileProcessor.init None)
      [(str "Start", str "a", str "2024-01-01 10:00:00", Float64.of_Z 100);
       (str "Stop", str "b", str "2024-01-01 10:00:05", Float64.of_Z 105)] busy_tree
    = (Return tt, fs')
    /\ FileProcessor.log_content (FileProcessor.init None) fs'
       = str "started"
         ++ FileProcessor.log_entry (str "2024-01-01 10:00:00") (str "Start") (str "a")
         ++ FileProcessor.log_entry (str "2024-01-01 10:00:05") (str "Stop") (str "b").
Proof.
  destruct (log_operation_repeated (R := CPython.runtime) (FileProcessor.init None)
              [(str "Start", str "a", str "2024-01-01 10:00:00", Float64.of_Z 100);
               (str "Stop", str "b", str "2024-01-01 10:00:05", Float64.of_Z 105)]
              busy_tree _ eq_refl) as (fs' & Hrun & Hlog).
  - discriminate.
  - intros call [<-|[<-|[]]]; reflexivity.
  - exists fs'. split; [exact Hrun|]. rewrite Hlog.
    cbn [flat_map call_entry]. now rewrite app_nil_r.
Defined.



End StoreMore.
